(** * Writingway: prompt assembly, stream decoding and connection testing

  A shallow embedding of [src/generation.js] ([buildPrompt],
  [streamGeneration]) and of the two versions of [saveAISettings]
  found in the AI settings module, together with the properties the
  specification states about them.

  Conventions.  A JavaScript string is a [string]; each [ascii] stands
  for one UTF-16 code unit in the range U+0000..U+00FF.  [undefined]
  is [None].  Effects are threaded explicitly: the console, the
  [onToken] callback (as the list of values it received), [localStorage]
  (a [gmap]), [alert] and the health endpoint (an oracle indexed by the
  probe number).

  The development also covers the functions around these: the quick
  save, [loadAISettings] and [fetchProviderModels] of the settings
  module, the compendium manager of [src/generation.js] over an abstract
  store, and the choice of the default voice. *)

From Stdlib Require Import ZArith Ascii String List Bool Lia DecimalString.
From stdpp Require Import gmap strings list.

Arguments String.append : simpl nomatch.

Set Warnings "-register-all,-abstract-large-number".

Local Open Scope string_scope.
Local Open Scope nat_scope.

(* ===================================================================== *)
(** * Part I. Definitions *)
(* ===================================================================== *)

(** ** JavaScript string primitives used by the sources *)

Module Js.

(** [WhiteSpace] and [LineTerminator] code units below U+0100: TAB, LF,
    VT, FF, CR, SP and NBSP.  This is the class of [\s] and the one
    [trim] strips. *)
Definition is_ws (c : ascii) : bool :=
  match c with
  | "009" | "010" | "011" | "012" | "013" | " " | "160" => true
  | _ => false
  end%char.

(** Truthiness of a string: only the empty string is falsy. *)
Definition nonempty (s : string) : bool :=
  match s with EmptyString => false | String _ _ => true end.

Fixpoint trimStart (s : string) : string :=
  match s with
  | String c s' => if is_ws c then trimStart s' else s
  | EmptyString => EmptyString
  end.

Fixpoint trimEnd (s : string) : string :=
  match s with
  | String c s' =>
      let r := trimEnd s' in
      if is_ws c && negb (nonempty r) then EmptyString else String c r
  | EmptyString => EmptyString
  end.

(** [s.trim()] *)
Definition trim (s : string) : string := trimEnd (trimStart s).

(** [s.substring(0, n)] and [s.substring(n)] for [0 <= n]. *)
Fixpoint take (n : nat) (s : string) : string :=
  match n, s with
  | S n', String c s' => String c (take n' s')
  | _, _ => EmptyString
  end.

Fixpoint drop (n : nat) (s : string) : string :=
  match n, s with
  | S n', String _ s' => drop n' s'
  | _, _ => s
  end.

(** [s.startsWith(p)] *)
Definition startsWith (p s : string) : bool := String.prefix p s.

(** [s.indexOf(needle)]; [None] is the source's [-1]. *)
Fixpoint indexOf (needle s : string) : option nat :=
  if String.prefix needle s then Some 0
  else match s with
       | EmptyString => None
       | String _ s' => option_map S (indexOf needle s')
       end.

(** [s.includes(needle)] *)
Fixpoint includes (needle s : string) : bool :=
  String.prefix needle s ||
  match s with
  | EmptyString => false
  | String _ s' => includes needle s'
  end.

(** Put a character in front of the first piece of a split. *)
Definition push_front (c : ascii) (pieces : list string) : list string :=
  match pieces with
  | p :: ps => String c p :: ps
  | [] => [String c EmptyString]
  end.

(** [s.split(sep)] for a one-character separator: the pieces between
    the separators, never an empty array. *)
Fixpoint split_char (sep : ascii) (s : string) : list string :=
  match s with
  | EmptyString => [EmptyString]
  | String c s' =>
      if Ascii.eqb c sep then EmptyString :: split_char sep s'
      else push_front c (split_char sep s')
  end.

(** [s.split(/\s+/)]: the pieces between the maximal runs of white
    space.  A run at the very start leaves an empty first piece, a run
    at the very end an empty last piece.  [in_run] tells that the
    previous character already belonged to a run. *)
Fixpoint split_ws_from (in_run : bool) (s : string) : list string :=
  match s with
  | EmptyString => [EmptyString]
  | String c s' =>
      if is_ws c then
        if in_run then split_ws_from true s'
        else EmptyString :: split_ws_from true s'
      else push_front c (split_ws_from false s')
  end.

Definition split_ws (s : string) : list string := split_ws_from false s.

(** [a.slice(-n)]: the last [n] elements, all of them when there are
    fewer. *)
Definition slice_last {A} (n : nat) (a : list A) : list A :=
  List.skipn (List.length a - n) a.

(** [a.join(sep)] *)
Definition join (sep : string) (a : list string) : string :=
  String.concat sep a.

(** Decimal rendering of a non-negative integer, as string
    concatenation with a number produces it. *)
Definition of_nat (n : nat) : string :=
  NilEmpty.string_of_uint (Nat.to_uint n).

End Js.

(** ** JSON values and [JSON.parse] *)

Module Json.

(** A parsed JSON text.  A number is kept as the exact decimal
    [m * 10^e] its literal denotes. *)
Inductive value : Type :=
| Null
| Bool (b : bool)
| Num (m e : Z)
| Str (s : string)
| Arr (items : list value)
| Obj (members : list (string * value)).

Definition dquote : ascii := "034"%char.
Definition backslash : ascii := "092"%char.

(** JSON white space: SP, TAB, LF, CR. *)
Definition is_space (c : ascii) : bool :=
  match c with
  | " " | "009" | "010" | "013" => true
  | _ => false
  end%char.

Fixpoint skip_space (s : string) : string :=
  match s with
  | String c s' => if is_space c then skip_space s' else s
  | EmptyString => EmptyString
  end.

(** The value of a decimal digit, [0] being code unit 48. *)
Definition digit (c : ascii) : option Z :=
  let n := nat_of_ascii c in
  if Nat.leb 48 n && Nat.leb n 57 then Some (Z.of_nat (n - 48)) else None.

(** The value of a hexadecimal digit of either case. *)
Definition hex (c : ascii) : option nat :=
  let n := nat_of_ascii c in
  if Nat.leb 48 n && Nat.leb n 57 then Some (n - 48)
  else if Nat.leb 65 n && Nat.leb n 70 then Some (n - 55)
  else if Nat.leb 97 n && Nat.leb n 102 then Some (n - 87)
  else None.

Definition cons_char (c : ascii) (r : option (string * string))
  : option (string * string) :=
  match r with
  | Some (body, rest) => Some (String c body, rest)
  | None => None
  end.

(** The characters of a string literal, read after its opening quote:
    the decoded text and what follows the closing quote.  An escape
    [\uXXXX] above U+00FF denotes a code unit outside the modelled
    alphabet and is not accepted here. *)
Fixpoint parse_chars (s : string) : option (string * string) :=
  match s with
  | EmptyString => None
  | String c s' =>
      if Ascii.eqb c dquote then Some (EmptyString, s')
      else if Ascii.eqb c backslash then
        match s' with
        | String e s'' =>
            if Ascii.eqb e dquote then cons_char dquote (parse_chars s'')
            else if Ascii.eqb e backslash
                 then cons_char backslash (parse_chars s'')
            else match e with
            | "/" => cons_char "/" (parse_chars s'')
            | "b" => cons_char "008" (parse_chars s'')
            | "f" => cons_char "012" (parse_chars s'')
            | "n" => cons_char "010" (parse_chars s'')
            | "r" => cons_char "013" (parse_chars s'')
            | "t" => cons_char "009" (parse_chars s'')
            | "u" =>
                match s'' with
                | String h1 (String h2 (String h3 (String h4 rest))) =>
                    match hex h1, hex h2, hex h3, hex h4 with
                    | Some 0, Some 0, Some a, Some b =>
                        cons_char (ascii_of_nat (16 * a + b))
                                  (parse_chars rest)
                    | _, _, _, _ => None
                    end
                | _ => None
                end
            | _ => None
            end%char
        | EmptyString => None
        end
      else if Nat.ltb (nat_of_ascii c) 32 then None
      else cons_char c (parse_chars s')
  end.

(** A maximal run of decimal digits, accumulated onto [acc]: the value,
    the number of digits read and the rest. *)
Fixpoint digits (acc : Z) (s : string) : Z * nat * string :=
  match s with
  | String c s' =>
      match digit c with
      | Some d =>
          let '(v, n, rest) := digits (10 * acc + d) s' in (v, S n, rest)
      | None => (acc, 0, s)
      end
  | EmptyString => (acc, 0, s)
  end.

(** The integer part: a lone [0], or a run of digits not starting with
    [0]. *)
Definition parse_int (s : string) : option (Z * string) :=
  match s with
  | String "0" s' => Some (0%Z, s')
  | _ => let '(v, n, rest) := digits 0 s in
         if Nat.eqb n 0 then None else Some (v, rest)
  end.

(** The optional fraction, appended to the mantissa [m]: the new
    mantissa and the number of fraction digits. *)
Definition parse_frac (m : Z) (s : string) : option (Z * nat * string) :=
  match s with
  | String "." s' =>
      let '(v, n, rest) := digits m s' in
      if Nat.eqb n 0 then None else Some (v, n, rest)
  | _ => Some (m, 0, s)
  end.

Definition parse_exp (s : string) : option (Z * string) :=
  let unsigned (sign : Z) (s' : string) :=
    let '(v, n, rest) := digits 0 s' in
    if Nat.eqb n 0 then None else Some ((sign * v)%Z, rest) in
  match s with
  | String ("e" | "E") s' =>
      match s' with
      | String "+" s'' => unsigned 1%Z s''
      | String "-" s'' => unsigned (-1)%Z s''
      | _ => unsigned 1%Z s'
      end
  | _ => Some (0%Z, s)
  end.

Definition parse_number (s : string) : option (value * string) :=
  let '(sign, s1) :=
    match s with String "-" s' => ((-1)%Z, s') | _ => (1%Z, s) end in
  match parse_int s1 with
  | Some (i, s2) =>
      match parse_frac i s2 with
      | Some (m, nfrac, s3) =>
          match parse_exp s3 with
          | Some (x, s4) => Some (Num (sign * m) (x - Z.of_nat nfrac), s4)
          | None => None
          end
      | None => None
      end
  | None => None
  end.

Definition parse_literal (s : string) : option (value * string) :=
  if String.prefix "true" s then Some (Bool true, Js.drop 4 s)
  else if String.prefix "false" s then Some (Bool false, Js.drop 5 s)
  else if String.prefix "null" s then Some (Null, Js.drop 4 s)
  else parse_number s.

(** Recursive descent on a fuel that bounds the nesting; [parse_items]
    and [parse_members] read what follows an opening bracket once it is
    known not to be closed at once. *)
Fixpoint parse_value (fuel : nat) (s : string) : option (value * string) :=
  match fuel with
  | 0 => None
  | S fuel' =>
      match skip_space s with
      | String c s' =>
          if Ascii.eqb c dquote then
            match parse_chars s' with
            | Some (txt, rest) => Some (Str txt, rest)
            | None => None
            end
          else match c with
          | "[" =>
              match skip_space s' with
              | String "]" rest => Some (Arr [], rest)
              | s'' =>
                  match parse_items fuel' s'' with
                  | Some (vs, rest) => Some (Arr vs, rest)
                  | None => None
                  end
              end
          | "{" =>
              match skip_space s' with
              | String "}" rest => Some (Obj [], rest)
              | s'' =>
                  match parse_members fuel' s'' with
                  | Some (ms, rest) => Some (Obj ms, rest)
                  | None => None
                  end
              end
          | _ => parse_literal (String c s')
          end%char
      | EmptyString => None
      end
  end
with parse_items (fuel : nat) (s : string)
  : option (list value * string) :=
  match fuel with
  | 0 => None
  | S fuel' =>
      match parse_value fuel' s with
      | Some (v, rest) =>
          match skip_space rest with
          | String "," rest' =>
              match parse_items fuel' rest' with
              | Some (vs, rest'') => Some (v :: vs, rest'')
              | None => None
              end
          | String "]" rest' => Some ([v], rest')
          | _ => None
          end%char
      | None => None
      end
  end
with parse_members (fuel : nat) (s : string)
  : option (list (string * value) * string) :=
  match fuel with
  | 0 => None
  | S fuel' =>
      match skip_space s with
      | String q s1 =>
          if Ascii.eqb q dquote then
            match parse_chars s1 with
            | Some (key, s2) =>
                match skip_space s2 with
                | String ":" s3 =>
                    match parse_value fuel' s3 with
                    | Some (v, s4) =>
                        match skip_space s4 with
                        | String "," s5 =>
                            match parse_members fuel' s5 with
                            | Some (ms, s6) => Some ((key, v) :: ms, s6)
                            | None => None
                            end
                        | String "}" s5 => Some ([(key, v)], s5)
                        | _ => None
                        end%char
                    | None => None
                    end
                | _ => None
                end%char
            | None => None
            end
          else None
      | EmptyString => None
      end
  end.

(** [JSON.parse(text)]: [None] stands for the [SyntaxError] it throws. *)
Definition parse (text : string) : option value :=
  match parse_value (2 * String.length text + 2) text with
  | Some (v, rest) =>
      match skip_space rest with
      | EmptyString => Some v
      | String _ _ => None
      end
  | None => None
  end.

(** The value of an own property of an object literal: the last member
    with that key wins. *)
Fixpoint lookup (key : string) (members : list (string * value))
  : option value :=
  match members with
  | [] => None
  | (k, v) :: rest =>
      match lookup key rest with
      | Some v' => Some v'
      | None => if String.eqb k key then Some v else None
      end
  end.

(** [data.content] and [data.stop]: reading a property of [null]
    throws a [TypeError] (the outer [None]); neither name is a property
    of a string, number, boolean or array, nor inherited by an object,
    so everything but an own member reads as [undefined] (the inner
    [None]). *)
Definition member (key : string) (data : value) : option (option value) :=
  match data with
  | Null => None
  | Obj members => Some (lookup key members)
  | _ => Some None
  end.

(** A number literal converts to a double different from zero unless it
    is zero or rounds to zero, that is unless [|m * 10^e| <= 2^-1075]. *)
Definition nonzero (m e : Z) : bool :=
  (negb (m =? 0) &&
   ((0 <=? e) || (10 ^ (- e) <? Z.abs m * 2 ^ 1075)))%Z.

(** Truthiness of a property read. *)
Definition truthy (v : option value) : bool :=
  match v with
  | None => false
  | Some Null => false
  | Some (Bool b) => b
  | Some (Num m e) => nonzero m e
  | Some (Str s) => Js.nonempty s
  | Some (Arr _) => true
  | Some (Obj _) => true
  end.

Definition hex_char (n : nat) : ascii :=
  match n with
  | 0 => "0" | 1 => "1" | 2 => "2" | 3 => "3" | 4 => "4" | 5 => "5"
  | 6 => "6" | 7 => "7" | 8 => "8" | 9 => "9" | 10 => "a" | 11 => "b"
  | 12 => "c" | 13 => "d" | 14 => "e" | _ => "f"
  end%char.

Fixpoint quote_chars (s : string) : string :=
  match s with
  | EmptyString => String dquote EmptyString
  | String c s' =>
      let esc (e : ascii) := String backslash (String e (quote_chars s')) in
      if Ascii.eqb c dquote then esc dquote
      else if Ascii.eqb c backslash then esc backslash
      else match c with
      | "008" => esc "b"
      | "012" => esc "f"
      | "010" => esc "n"
      | "013" => esc "r"
      | "009" => esc "t"
      | _ =>
          let n := nat_of_ascii c in
          if Nat.ltb n 32 then
            String backslash
              (String "u" (String "0" (String "0"
                (String (hex_char (n / 16))
                  (String (hex_char (n mod 16)) (quote_chars s'))))))
          else String c (quote_chars s')
      end%char
  end.

(** [JSON.stringify(s)] for a string or [undefined] ([undefined] stays
    [undefined]). *)
Definition stringify (s : option string) : option string :=
  match s with
  | Some txt => Some (String dquote (quote_chars txt))
  | None => None
  end.

End Json.

(** ** [src/generation.js] *)

Module Generation.

(** *** Inputs of [buildPrompt] *)

(** A compendium entry as the caller passes it; an absent field is
    [undefined]. *)
Record CompendiumEntry : Type := {
  ce_title : option string;
  ce_id : option string;
  ce_body : option string;
  ce_description : option string
}.

(** The [options] argument, with the fields typed as the data model of
    the specification types them.  A [null] or [undefined] element of
    [compendiumEntries] is [None]. *)
Record Options : Type := {
  povCharacter : option string;
  tense : option string;
  pov : option string;
  prosePrompt : option string;
  preview : bool;
  compendiumEntries : option (list (option CompendiumEntry))
}.

(** [options = {}] *)
Definition no_options : Options := {|
  povCharacter := None; tense := None; pov := None; prosePrompt := None;
  preview := false; compendiumEntries := None
|}.

(** The console, as the lines written to it so far. *)
Definition Console : Type := list string.

(** [a || b] on values that are a string or [undefined]. *)
Definition or_else (a b : option string) : option string :=
  match a with
  | Some s => if Js.nonempty s then a else b
  | None => b
  end.

(** Conversion to a string, as in a template literal. *)
Definition to_string (a : option string) : string :=
  match a with
  | Some s => s
  | None => "undefined"
  end.

Definition newline : string := String "010"%char EmptyString.

(** *** The pieces [buildPrompt] computes, under the names it gives them *)

Definition povName (options : Options) : string :=
  match povCharacter options with
  | Some c => if Js.nonempty (Js.trim c) then Js.trim c else "the protagonist"
  | None => "the protagonist"
  end.

Definition tenseText (options : Options) : string :=
  match tense options with
  | Some "present" => "present tense"
  | _ => "past tense"
  end.

Definition povText (options : Options) : string :=
  to_string (or_else (pov options) (Some "3rd person limited")).

Definition povSentence (options : Options) : string :=
  "You are a co-author tasked with assisting your partner. You are writing a story from the point of view of "
  ++ povName options ++ " in " ++ tenseText options ++ ", in "
  ++ povText options ++ ".".

Definition systemPrompt (options : Options) : string :=
  povSentence options
  ++ " You are a creative writing assistant. The author provides a BEAT (what happens next) and you expand it into vivid, engaging prose. Write 2-3 paragraphs that bring the beat to life. Match the author's tone and style. Use sensory details. Show, don't tell.".

Definition words (sceneContext : string) : list string :=
  Js.split_ws sceneContext.

Definition contextWords (sceneContext : string) : string :=
  Js.join " " (Js.slice_last 500 (words sceneContext)).

Definition contextHeader : string :=
  newline ++ newline ++ "CURRENT SCENE SO FAR:" ++ newline.

Definition contextText (sceneContext : string) : string :=
  if Js.nonempty sceneContext
  then contextHeader ++ contextWords sceneContext
  else EmptyString.

Definition templateStart : string := "--- PROMPT TEMPLATE START ---".
Definition templateEnd : string := "--- PROMPT TEMPLATE END ---".

Definition proseTemplateText (options : Options) : string :=
  match prosePrompt options with
  | Some p =>
      if Js.nonempty (Js.trim p) then
        if preview options
        then newline ++ newline ++ Js.trim p
        else newline ++ newline ++ templateStart ++ newline
             ++ Js.trim p ++ newline ++ templateEnd
      else EmptyString
  | None => EmptyString
  end.

Definition entryTitle (ce : CompendiumEntry) : string :=
  to_string
    (or_else (ce_title ce)
             (Some ("entry " ++ to_string (or_else (ce_id ce) (Some EmptyString))))).

(** [(ce.body || ce.body || ce.description || '') || ce.body || ''] *)
Definition entryBody (ce : CompendiumEntry) : string :=
  to_string
    (or_else
       (or_else
          (or_else
             (or_else (or_else (ce_body ce) (ce_body ce)) (ce_description ce))
             (Some EmptyString))
          (ce_body ce))
       (Some EmptyString)).

(** One turn of the loop over the entries; reading a field of a [null]
    or [undefined] element throws, and the [catch] leaves the text as it
    is. *)
Definition appendEntry (text : string) (ce : option CompendiumEntry)
  : string :=
  match ce with
  | Some e =>
      text ++ newline ++ "-- " ++ entryTitle e ++ " --" ++ newline
           ++ entryBody e ++ newline
  | None => text
  end.

Definition compendiumHeader : string :=
  newline ++ newline ++ "COMPENDIUM REFERENCES:" ++ newline.

Definition compendiumText (options : Options) : string :=
  if preview options then EmptyString
  else match compendiumEntries options with
       | Some (e :: es) => fold_left appendEntry (e :: es) compendiumHeader
       | _ => EmptyString
       end.

Definition beatMarker : string := newline ++ newline ++ "BEAT TO EXPAND:".

(** What the template puts from the beat marker to its end. *)
Definition beatSection (beat : string) : string :=
  beatMarker ++ newline ++ beat ++ newline ++ newline
  ++ "Write the next 2-3 paragraphs:<|im_end|>" ++ newline
  ++ "<|im_start|>assistant" ++ newline.

(** What the template puts before the beat marker. *)
Definition promptHead (sceneContext : string) (options : Options) : string :=
  "<|im_start|>system" ++ newline ++ systemPrompt options ++ "<|im_end|>"
  ++ newline ++ "<|im_start|>user" ++ newline
  ++ contextText sceneContext ++ proseTemplateText options.

Definition prompt (beat sceneContext : string) (options : Options) : string :=
  promptHead sceneContext options ++ beatSection beat.

(** The value [buildPrompt] returns. *)
Definition assembled (beat sceneContext : string) (options : Options)
  : string :=
  let p := prompt beat sceneContext options in
  let c := compendiumText options in
  if Js.nonempty c then
    match Js.indexOf beatMarker p with
    | Some insertAt =>
        let before := Js.take insertAt p in
        let after := Js.drop insertAt p in
        before ++ c ++ newline ++ after
    | None => p
    end
  else p.

Definition debugLine (options : Options) : string :=
  "[buildPrompt] received prosePrompt: "
  ++ to_string (Json.stringify (prosePrompt options)).

(** [buildPrompt(beat, sceneContext, options)]: writes one line to the
    console, then returns the assembled prompt. *)
Definition buildPrompt (beat sceneContext : string) (options : Options)
  (console : Console) : string * Console :=
  let console := (console ++ [debugLine options])%list in
  (assembled beat sceneContext options, console).

(** *** [streamGeneration] *)

(** How the read loop ended: it ran into a frame that said stop and
    returned, or the reader reported [done]. *)
Inductive Ending : Type := Returned | Done.

Section Decoder.

(** [JSON.parse], [None] being a thrown [SyntaxError]. *)
Variable JSON_parse : string -> option Json.value.

(** The body of the [try] for one line that starts with ["data: "]: the
    values handed to [onToken] and whether [return] was reached.  A
    throw ([JSON.parse] on a malformed payload, a property read on
    [null]) lands in the empty [catch].  The callback itself is taken to
    return normally. *)
Definition frame (line : string) : list Json.value * bool :=
  match JSON_parse (Js.drop 6 line) with
  | Some data =>
      match Json.member "content" data, Json.member "stop" data with
      | Some content, Some stop =>
          ((if Json.truthy content
            then match content with Some v => [v] | None => [] end
            else []),
           Json.truthy stop)
      | _, _ => ([], false)
      end
  | None => ([], false)
  end.

(** [for (const line of lines)]: the tokens delivered and whether the
    function returned from inside the loop. *)
Fixpoint forLines (lines : list string) : list Json.value * bool :=
  match lines with
  | [] => ([], false)
  | line :: rest =>
      let '(tokens, stop) :=
        if Js.startsWith "data: " line then frame line else ([], false) in
      if stop then (tokens, true)
      else let '(tokens', stop') := forLines rest in
           ((tokens ++ tokens')%list, stop')
  end.

(** [while (true)]: one turn per chunk the reader yields, each chunk
    given as the text the streaming [TextDecoder] makes of it. *)
Fixpoint readLoop (buffer : string) (chunks : list string)
  : list Json.value * Ending :=
  match chunks with
  | [] => ([], Done)
  | value :: rest =>
      let buffer := buffer ++ value in
      let lines := Js.split_char "010" buffer in
      let buffer := List.last lines EmptyString in
      let lines := List.removelast lines in
      let '(tokens, stop) := forLines lines in
      if stop then (tokens, Returned)
      else let '(tokens', ending) := readLoop buffer rest in
           ((tokens ++ tokens')%list, ending)
  end.

(** The answer of [fetch]. *)
Record Response : Type := {
  ok : bool;
  status : nat;
  body : list string
}.

(** [streamGeneration(prompt, onToken)] once [fetch] has answered: the
    error thrown, or the values [onToken] received, in order, and how
    the loop ended. *)
Definition streamGeneration (response : Response)
  : string + list Json.value * Ending :=
  if ok response then inr (readLoop EmptyString (body response))
  else inl ("Server returned " ++ Js.of_nat (status response)).

End Decoder.

End Generation.

(** ** The browser services [saveAISettings] talks to *)

Module Browser.

(** A JavaScript number that is carried around but never computed with,
    as the decimal [m * 10^e]. *)
Definition number : Type := (Z * Z)%type.

(** The object [saveAISettings] serialises into [localStorage]; the
    stored JSON text is represented by the object it is the text of.  The
    last two members exist in one version of the module only. *)
Record Settings : Type := {
  mode : string;
  provider : string;
  apiKey : string;
  model : string;
  endpoint : string;
  temperature : number;
  maxTokens : number;
  useProviderDefaults : option bool;
  forceNonStreaming : option bool
}.

(** What one [fetch] of the health endpoint comes to: a response with
    [ok] set, a response without, or a rejection (network failure, or the
    abort of the per-request timer) with its message. *)
Inductive Probe : Type :=
| Healthy
| Unhealthy
| Rejected (message : string).

(** The effects other than the writes to [app] and [localStorage], in
    the order they happen. *)
Inductive Effect : Type :=
| Fetch (url : string)
| Wait (ms : nat)
| HideLoadingAfter (ms : nat)
| Alert (message : string)
| ConsoleError (message : string).

Record World : Type := {
  localStorage : gmap string Settings;
  trace : list Effect
}.

Definition setItem (key : string) (value : Settings) (w : World) : World :=
  {| localStorage := <[key := value]> (localStorage w); trace := trace w |}.

Definition emit (e : Effect) (w : World) : World :=
  {| localStorage := localStorage w; trace := (trace w ++ [e])%list |}.

(** The number of requests sent to the health endpoint. *)
Definition probes (w : World) : nat :=
  List.length (List.filter (fun e => match e with Fetch _ => true | _ => false end)
                           (trace w)).

Definition alerts (w : World) : list string :=
  List.flat_map (fun e => match e with Alert m => [m] | _ => [] end) (trace w).

(** The fields of [app] the function reads. *)
Record Config : Type := {
  aiMode : string;
  aiProvider : string;
  aiApiKey : string;
  aiModel : string;
  aiEndpoint : string;
  appTemperature : number;
  appMaxTokens : number;
  appUseProviderDefaults : option bool;
  appForceNonStreaming : option bool;
  providerModels : gmap string (list (string * string))
}.

(** The fields of [app] the function writes. *)
Record View : Type := {
  showModelLoading : bool;
  loadingMessage : string;
  loadingProgress : nat;
  aiStatus : string;
  aiStatusText : string;
  showAISettings : bool
}.

Record App : Type := { config : Config; view : View }.

Definition withView (f : View -> View) (app : App) : App :=
  {| config := config app; view := f (view app) |}.

Definition setLoading (shown : bool) (message : string) (progress : nat)
  (v : View) : View :=
  {| showModelLoading := shown; loadingMessage := message;
     loadingProgress := progress; aiStatus := aiStatus v;
     aiStatusText := aiStatusText v; showAISettings := showAISettings v |}.

Definition setProgress (message : string) (progress : nat) (v : View) : View :=
  setLoading (showModelLoading v) message progress v.

Definition setStatus (status text : string) (v : View) : View :=
  {| showModelLoading := showModelLoading v;
     loadingMessage := loadingMessage v;
     loadingProgress := loadingProgress v; aiStatus := status;
     aiStatusText := text; showAISettings := showAISettings v |}.

Definition setShowModelLoading (shown : bool) (v : View) : View :=
  setLoading shown (loadingMessage v) (loadingProgress v) v.

Definition setShowAISettings (shown : bool) (v : View) : View :=
  {| showModelLoading := showModelLoading v;
     loadingMessage := loadingMessage v;
     loadingProgress := loadingProgress v; aiStatus := aiStatus v;
     aiStatusText := aiStatusText v; showAISettings := shown |}.

(** [a || b] on strings. *)
Definition or_str (a b : string) : string :=
  if Js.nonempty a then a else b.

(** [x || false] on a boolean or [undefined]. *)
Definition or_false (x : option bool) : bool :=
  match x with Some b => b | None => false end.

(** [e.message || e] inside a string concatenation, for the errors the
    two versions throw themselves with [new Error(...)]: one with an
    empty message converts to its name, [Error].  The reason of a
    rejected [fetch] is given by its message and taken to have one that
    is not empty; with an empty message it would convert to its own
    name, which [Rejected] does not carry. *)
Definition messageOf (message : string) : string :=
  or_str message "Error".

Definition storageKey : string := "writingway:aiSettings".

(** The [catch] at the end of both versions, given its three texts. *)
Definition failed (statusText alertPrefix message : string)
  (app : App) (w : World) : App * World :=
  let w := emit (ConsoleError ("AI settings save/test failed: " ++ messageOf message)) w in
  let app := withView (setStatus "error" statusText) app in
  let app := withView (setShowModelLoading false) app in
  (app, emit (Alert (alertPrefix ++ messageOf message)) w).

End Browser.

(** ** [src/modules/ai-settings.js]: one probe *)

(** The check mark that opens the two success alerts of this version lies
    outside the alphabet of the model and is left out of their texts. *)

Module AISettings.
Import Browser.

Section Save.

Variable health : nat -> Probe.

Definition settings (app : App) : Settings :=
  let c := config app in
  {| mode := aiMode c; provider := aiProvider c; apiKey := aiApiKey c;
     model := aiModel c;
     endpoint := or_str (aiEndpoint c)
                   (if String.eqb (aiMode c) "local"
                    then "http://localhost:8080" else EmptyString);
     temperature := appTemperature c; maxTokens := appMaxTokens c;
     useProviderDefaults := None; forceNonStreaming := None |}.

(** The [try] block after the settings are stored: the message of the
    error thrown, if any, with the state reached. *)
Definition testConnection (app : App) (w : World)
  : option string * App * World :=
  let app := withView (setLoading true "Testing connection..." 50) app in
  let c := config app in
  if String.eqb (aiMode c) "local" then
    let endpoint := or_str (aiEndpoint c) "http://localhost:8080" in
    let w := emit (Fetch (endpoint ++ "/health")) w in
    match health 1 with
    | Healthy =>
        let app := withView (setStatus "ready" "AI Ready (Local)") app in
        let app := withView (fun v => setProgress (loadingMessage v) 100 v) app in
        let w := emit (HideLoadingAfter 500) w in
        let w := emit (Alert "Connected to local server successfully!") w in
        (None, withView (setShowAISettings false) app, w)
    | Unhealthy => (Some "Local server not responding", app, w)
    | Rejected message => (Some message, app, w)
    end
  else
    if negb (Js.nonempty (aiApiKey c)) then
      (Some "API key is required", app, w)
    else if negb (Js.nonempty (aiModel c)) then
      (Some "Model name is required", app, w)
    else
      let app :=
        withView (setStatus "ready" ("AI Ready (" ++ aiProvider c ++ ")")) app in
      let app := withView (fun v => setProgress (loadingMessage v) 100 v) app in
      let w := emit (HideLoadingAfter 500) w in
      let w := emit (Alert "API settings saved! Ready to generate.") w in
      (None, withView (setShowAISettings false) app, w).

(** [saveAISettings(app)] *)
Definition saveAISettings (app : App) (w : World) : App * World :=
  let w := setItem storageKey (settings app) w in
  match testConnection app w with
  | (None, app, w) => (app, w)
  | (Some message, app, w) =>
      failed "Connection failed" "Connection failed: " message app w
  end.

End Save.

End AISettings.

(** ** [unnamed/part_000]: the same module with the retry loop *)

Module AISettings000.
Import Browser.

Section Save.

(** The translation function of the user interface. *)
Variable t : string -> string.

(** [Math.floor(50 + (attempt / maxRetries) * 45)], computed by the
    engine in floating point. *)
Variable progressOf : nat -> nat -> nat.

Variable health : nat -> Probe.

Definition maxRetries : nat := 60.
Definition retryDelay : nat := 3000.

Definition settings (app : App) : Settings :=
  let c := config app in
  {| mode := aiMode c; provider := aiProvider c; apiKey := aiApiKey c;
     model := aiModel c;
     endpoint := or_str (aiEndpoint c)
                   (if String.eqb (aiMode c) "local"
                    then "http://localhost:8080" else EmptyString);
     temperature := appTemperature c; maxTokens := appMaxTokens c;
     useProviderDefaults := Some (or_false (appUseProviderDefaults c));
     forceNonStreaming := Some (or_false (appForceNonStreaming c)) |}.

(** [Math.floor((attempt * retryDelay) / 1000)] *)
Definition elapsedOf (delay attempt : nat) : nat := (attempt * delay) / 1000.

(** [while (attempt < maxRetries && !connected)], for a budget [budget]
    and a delay [delay].  [remaining] is [budget - attempt], the number
    of turns the loop condition still allows; the result is the final
    [attempt] and [connected] with the state reached.  A response that is
    not [ok] throws nothing, so the next turn follows at once; a
    rejection waits first unless the budget is spent. *)
Fixpoint probeLoop (budget delay : nat) (endpoint : string)
  (remaining attempt : nat) (app : App) (w : World)
  : nat * bool * App * World :=
  match remaining with
  | 0 => (attempt, false, app, w)
  | S remaining' =>
      let attempt := S attempt in
      let elapsed := elapsedOf delay attempt in
      let app :=
        withView
          (setProgress
             (t "ai.testingConnection" ++ " (" ++ Js.of_nat elapsed
              ++ "s elapsed, attempt " ++ Js.of_nat attempt ++ "/"
              ++ Js.of_nat budget ++ ")")
             (progressOf attempt budget)) app in
      let w := emit (Fetch (endpoint ++ "/health")) w in
      match health attempt with
      | Healthy =>
          let app := withView (setStatus "ready" (t "ai.readyLocal")) app in
          let app := withView (setProgress (t "ai.connected") 100) app in
          let w := emit (HideLoadingAfter 500) w in
          let w :=
            emit (Alert (t "ai.connectedLocalPrefix" ++ Js.of_nat elapsed
                         ++ t "ai.connectedLocalSuffix")) w in
          (attempt, true, app, w)
      | Unhealthy =>
          probeLoop budget delay endpoint remaining' attempt app w
      | Rejected _ =>
          let w := if Nat.ltb attempt budget then emit (Wait delay) w else w in
          probeLoop budget delay endpoint remaining' attempt app w
      end
  end.

(** The local branch, for a budget and a delay. *)
Definition testLocal (budget delay : nat) (app : App) (w : World)
  : option string * App * World :=
  let endpoint := or_str (aiEndpoint (config app)) "http://localhost:8080" in
  let app :=
    withView (fun v => setProgress (t "ai.connectingLocal") (loadingProgress v) v)
             app in
  let '(attempt, connected, app, w) :=
    probeLoop budget delay endpoint budget 0 app w in
  if connected then (None, app, w)
  else
    let elapsed := elapsedOf delay attempt in
    (Some (t "ai.couldNotConnectPrefix" ++ Js.of_nat elapsed
           ++ t "ai.couldNotConnectSuffix"), app, w).

(** [providerModels[provider].find(m => m.id === model)], the entries
    being pairs of an id and a name. *)
Fixpoint findModel (id : string) (models : list (string * string))
  : option string :=
  match models with
  | [] => None
  | (i, name) :: rest => if String.eqb i id then Some name else findModel id rest
  end.

Definition modelDisplayName (c : Config) : string :=
  match providerModels c !! aiProvider c with
  | Some models =>
      match findModel (aiModel c) models with
      | Some name => name
      | None => aiModel c
      end
  | None => aiModel c
  end.

Definition testApi (app : App) (w : World) : option string * App * World :=
  let c := config app in
  if negb (Js.nonempty (aiApiKey c)) then (Some (t "ai.apiKeyRequired"), app, w)
  else if negb (Js.nonempty (aiModel c)) then
    (Some (t "ai.modelRequired"), app, w)
  else
    let app :=
      withView
        (setStatus "ready"
           (t "ai.readyApiPrefix" ++ modelDisplayName c ++ t "ai.readyApiSuffix"))
        app in
    let app := withView (fun v => setProgress (loadingMessage v) 100 v) app in
    let w := emit (HideLoadingAfter 500) w in
    (None, app, emit (Alert (t "ai.apiSavedReady")) w).

Definition testConnection (app : App) (w : World)
  : option string * App * World :=
  let app := withView (setLoading true (t "ai.testingConnection") 50) app in
  let '(thrown, app, w) :=
    if String.eqb (aiMode (config app)) "local"
    then testLocal maxRetries retryDelay app w
    else testApi app w in
  match thrown with
  | None => (None, withView (setShowAISettings false) app, w)
  | Some message => (Some message, app, w)
  end.

(** [saveAISettings(app)] *)
Definition saveAISettings (app : App) (w : World) : App * World :=
  let w := setItem storageKey (settings app) w in
  match testConnection app w with
  | (None, app, w) => (app, w)
  | (Some message, app, w) =>
      failed (t "ai.connectionFailed") (t "ai.connectionFailedPrefix")
             message app w
  end.

End Save.

End AISettings000.

(** ** The notions the specification speaks in *)

Module Spec.
Import Generation.

(** The whitespace-delimited tokens of a text: its maximal runs of
    characters that are not white space, from left to right. *)
Fixpoint tokens (s : string) : list string :=
  match s with
  | EmptyString => []
  | String c s' =>
      if Js.is_ws c then tokens s'
      else match s' with
           | EmptyString => [String c EmptyString]
           | String c' _ =>
               if Js.is_ws c' then String c EmptyString :: tokens s'
               else Js.push_front c (tokens s')
           end
  end.

Definition starts_with_ws (s : string) : bool :=
  match s with
  | String c _ => Js.is_ws c
  | EmptyString => false
  end.

Fixpoint ends_with_ws (s : string) : bool :=
  match s with
  | EmptyString => false
  | String c EmptyString => Js.is_ws c
  | String _ s' => ends_with_ws s'
  end.

(** The final [k] elements of a list, in their order. *)
Definition last_n {A} (k : nat) (l : list A) : list A :=
  List.rev (List.firstn k (List.rev l)).

(** The body of a reference block in the words of the specification:
    the body when that is not empty, otherwise the description when that
    is not empty, otherwise the empty string. *)
Definition bodyOf (ce : CompendiumEntry) : string :=
  match ce_body ce with
  | Some (String c b) => String c b
  | _ => match ce_description ce with
         | Some (String c d) => String c d
         | _ => EmptyString
         end
  end.

(** [body ?? description ?? ""] read as JavaScript reads it, where only
    an absent field falls through. *)
Definition nullishBody (ce : CompendiumEntry) : string :=
  match ce_body ce with
  | Some b => b
  | None => match ce_description ce with
            | Some d => d
            | None => EmptyString
            end
  end.

(** The options with another list of compendium entries. *)
Definition withEntries (entries : option (list (option CompendiumEntry)))
  (o : Options) : Options :=
  {| povCharacter := povCharacter o; tense := tense o; pov := pov o;
     prosePrompt := prosePrompt o; preview := preview o;
     compendiumEntries := entries |}.

(** The template as the prompt carries it. *)
Definition templateBody (o : Options) : string :=
  match prosePrompt o with
  | Some p => Js.trim p
  | None => EmptyString
  end.

(** The caller's texts as the prompt carries them. *)
Definition carried (beat sceneContext : string) (o : Options) : list string :=
  [povName o; povText o; contextWords sceneContext; templateBody o; beat].

(** The texts by which a reference block and the template markers are
    recognised. *)
Definition referenceHeading : string := "COMPENDIUM REFERENCES".
Definition markers : list string :=
  [referenceHeading; templateStart; templateEnd].

(** The non-empty suffixes of a text, longest first. *)
Fixpoint suffixes (s : string) : list string :=
  match s with
  | EmptyString => []
  | String _ s' => s :: suffixes s'
  end.

(** Two texts part ways: neither is a prefix of the other. *)
Definition part_ways (a b : string) : bool :=
  negb (String.prefix a b) && negb (String.prefix b a).

(** No occurrence of [m] can start inside the fixed text [fixed],
    whatever follows it, and none can run into [fixed] from the left:
    every occurrence of [m] in [u ++ fixed ++ y] lies within [u] or
    within [y]. *)
Definition separates (m fixed : string) : bool :=
  forallb (part_ways m) (suffixes fixed)
  && forallb (fun m' => part_ways m' fixed) (suffixes (Js.drop 1 m)).

(** The complete lines of a text: what precedes each of its line
    feeds. *)
Definition completeLines (text : string) : list string :=
  List.removelast (Js.split_char "010" text).

(** A text with each apostrophe standing for a double quote, to write
    JSON down. *)
Fixpoint dq (s : string) : string :=
  match s with
  | EmptyString => EmptyString
  | String c s' => String (if Ascii.eqb c "'" then Json.dquote else c) (dq s')
  end.

(** [n] copies of a text, one after the other. *)
Fixpoint copies (n : nat) (s : string) : string :=
  match n with
  | 0 => EmptyString
  | S n' => s ++ copies n' s
  end.

(** The reference block with the bodies the specification names. *)
Definition appendEntrySpec (text : string) (ce : option CompendiumEntry)
  : string :=
  match ce with
  | Some e =>
      text ++ newline ++ "-- " ++ entryTitle e ++ " --" ++ newline
           ++ bodyOf e ++ newline
  | None => text
  end.

(** An empty last piece is left by a text that is empty or ends in white
    space. *)
Definition open_end (s : string) : bool :=
  match s with
  | EmptyString => true
  | _ => ends_with_ws s
  end.

(** Every character of a text satisfies [P]. *)
Fixpoint all_chars (P : ascii -> bool) (s : string) : bool :=
  match s with
  | EmptyString => true
  | String c s' => P c && all_chars P s'
  end.

Definition not_ws (c : ascii) : bool := negb (Js.is_ws c).
Definition not_lf (c : ascii) : bool := negb (Ascii.eqb c "010").

(** The text of a sequence of chunks. *)
Definition textOf (chunks : list string) : string :=
  fold_right String.append EmptyString chunks.

(** Lines written one after the other, each closed by a line feed. *)
Fixpoint unlines (lines : list string) : string :=
  match lines with
  | [] => EmptyString
  | l :: rest => l ++ newline ++ unlines rest
  end.

(** What the decoder makes of a whole text: the tokens of its complete
    lines up to the first stop. *)
Definition runText (JSON_parse : string -> option Json.value) (text : string)
  : list Json.value * Ending :=
  let '(tokens, stop) := forLines JSON_parse (completeLines text) in
  (tokens, if stop then Returned else Done).

End Spec.

(** ** Concrete inputs for the examples *)

Module Examples.
Import Generation Browser Spec.

(** A preview call that is handed a template and an entry. *)
Definition previewOptions : Options := {|
  povCharacter := Some "Ann"; tense := Some "present"; pov := None;
  prosePrompt := Some " Keep it terse. ";
  preview := true;
  compendiumEntries :=
    Some [Some {| ce_title := Some "Ann"; ce_id := Some "1";
                  ce_body := Some "A tall woman from the north.";
                  ce_description := None |}]
|}.

(** A generation call with one entry that has a description only. *)
Definition referenceOptions : Options := {|
  povCharacter := Some "Ann"; tense := None; pov := None;
  prosePrompt := Some "Keep it terse.";
  preview := false;
  compendiumEntries :=
    Some [Some {| ce_title := Some "Ann"; ce_id := Some "1";
                  ce_body := None;
                  ce_description := Some "A tall woman from the north." |}]
|}.

(** A context of 500 tokens that ends with a line feed, and one of 501
    tokens behind a space. *)
Definition trailingContext : string := "FIRST" ++ copies 499 " w" ++ newline.
Definition leadingContext : string := " FIRST" ++ copies 500 " w".

(** The frame of the specification, split after [He]. *)
Definition helloChunks : list string :=
  [dq "data: {'content':'He"; dq "llo'}" ++ newline].

(** A stream whose stop frame is itself split across two chunks and is
    followed by more frames. *)
Definition stopChunks : list string :=
  [dq "data: {'content':'Hi'}" ++ newline ++ dq "data: {'st";
   dq "op':true}" ++ newline ++ dq "data: {'content':'late'}" ++ newline;
   dq "data: {'content':'later'}" ++ newline].

(** The malformed frame of the specification, followed by a good one. *)
Definition malformedChunks : list string :=
  ["data: {not json}" ++ newline ++ dq "data: {'content':'x'}" ++ newline].

(** A first configuration of the local mode, on a fresh profile. *)
Definition firstApp : App := {|
  config := {| aiMode := "local"; aiProvider := "anthropic";
               aiApiKey := EmptyString; aiModel := EmptyString;
               aiEndpoint := EmptyString;
               appTemperature := (8, -1)%Z; appMaxTokens := (300, 0)%Z;
               appUseProviderDefaults := None; appForceNonStreaming := None;
               providerModels := ∅ |};
  view := {| showModelLoading := false; loadingMessage := EmptyString;
             loadingProgress := 0; aiStatus := "loading";
             aiStatusText := EmptyString; showAISettings := true |}
|}.

Definition freshWorld : World := {| localStorage := ∅; trace := [] |}.

(** An endpoint nobody listens on, and one that first answers on attempt
    [k]. *)
Definition unreachable (attempt : nat) : Probe := Rejected "Failed to fetch".
Definition healthyAt (k attempt : nat) : Probe :=
  if Nat.eqb attempt k then Healthy else Rejected "Failed to fetch".

(** Stand-ins for the translation table and the progress arithmetic. *)
Definition keyText (key : string) : string := key.
Definition progressSketch (attempt budget : nat) : nat :=
  50 + (attempt * 45) / budget.

End Examples.

(** ** More notions for [buildPrompt] and the decoder *)

Module Notions.
Import Generation Spec.

(** The options with another prose template. *)
Definition withPrompt (template : option string) (o : Options) : Options :=
  {| povCharacter := povCharacter o; tense := tense o; pov := pov o;
     prosePrompt := template; preview := preview o;
     compendiumEntries := compendiumEntries o |}.

(** The block of one entry in the reference material. *)
Definition entryBlock (e : CompendiumEntry) : string :=
  newline ++ "-- " ++ entryTitle e ++ " --" ++ newline ++ entryBody e
  ++ newline.

(** The elements of an array that are neither [null] nor [undefined]. *)
Fixpoint present {A} (l : list (option A)) : list A :=
  match l with
  | [] => []
  | Some x :: rest => x :: present rest
  | None :: rest => present rest
  end.

(** Texts written one after the other. *)
Definition concatAll (l : list string) : string :=
  fold_right String.append EmptyString l.

(** A character of the context words: no white space but the space. *)
Definition word_char (c : ascii) : bool :=
  not_ws c || Ascii.eqb c " ".

(** A parsed payload that is not an object. *)
Definition not_object (data : Json.value) : bool :=
  match data with
  | Json.Obj _ => false
  | _ => true
  end.

End Notions.

(** ** [src/modules/ai-settings.js]: the functions around the connection
    test *)

Module AISettingsStore.
Import Browser.

(** An entry of a provider's answer, as far as the module reads it. *)
Record RawModel : Type := {
  raw_id : option string;
  raw_name : option string
}.

(** An entry of [app.providerModels[provider]]. *)
Record ModelInfo : Type := {
  mi_id : string;
  mi_name : string;
  mi_recommended : bool
}.

(** What the request for a catalog comes to: a rejection, a response
    without [ok], or a response with [ok] whose body is an object with an
    array [data] ([None] when the body is no JSON or has no such array,
    so that reading it throws). *)
Inductive Answer : Type :=
| NoAnswer (message : string)
| Refused
| Body (data : option (list RawModel)).

(** The fields of [app] that [fetchProviderModels] writes; [catalog] is
    [app.providerModels], which the connection test of this file never
    reads. *)
Record Models : Type := {
  fetchingModels : bool;
  modelsFetched : bool;
  catalog : gmap string (list ModelInfo)
}.

Definition setFetching (b : bool) (m : Models) : Models :=
  {| fetchingModels := b; modelsFetched := modelsFetched m;
     catalog := catalog m |}.

Definition setFetched (m : Models) : Models :=
  {| fetchingModels := fetchingModels m; modelsFetched := true;
     catalog := catalog m |}.

Definition setCatalog (provider : string) (l : list ModelInfo) (m : Models)
  : Models :=
  {| fetchingModels := fetchingModels m; modelsFetched := modelsFetched m;
     catalog := <[provider := l]> (catalog m) |}.

(** [a.sort(compare)] for a consistent comparison: the stable sort, here
    by insertion from the right.  An element goes behind those that the
    comparison puts strictly before it. *)
Fixpoint insertSorted {A} (compare : A -> A -> Z) (x : A) (l : list A)
  : list A :=
  match l with
  | [] => [x]
  | y :: rest =>
      if (compare y x <? 0)%Z then y :: insertSorted compare x rest
      else x :: y :: rest
  end.

Definition sort {A} (compare : A -> A -> Z) (l : list A) : list A :=
  fold_right (insertSorted compare) [] l.

(** [s.replace(/-/g, ' ')] and the like: every [a] becomes [b]. *)
Fixpoint replaceAll (a b : ascii) (s : string) : string :=
  match s with
  | EmptyString => EmptyString
  | String c s' => String (if Ascii.eqb c a then b else c) (replaceAll a b s')
  end.

Definition isFree (id : string) : bool := Js.includes ":free" id.

(** The comparison of the OpenRouter branch: free models first. *)
Definition freeFirst (a b : string * option string) : Z :=
  let aFree := isFree (fst a) in
  let bFree := isFree (fst b) in
  if aFree && negb bFree then (-1)%Z
  else if negb aFree && bFree then 1%Z
  else 0%Z.

(** [filter(m => m.id)]: the entries with a truthy id, each with its id
    and its name. *)
Fixpoint withId (l : list RawModel) : list (string * option string) :=
  match l with
  | [] => []
  | m :: rest =>
      match raw_id m with
      | Some (String c id) => (String c id, raw_name m) :: withId rest
      | _ => withId rest
      end
  end.

Definition openrouterInfo (m : string * option string) : ModelInfo :=
  {| mi_id := fst m;
     mi_name := Generation.to_string
                  (Generation.or_else (snd m) (Some (fst m)));
     mi_recommended := isFree (fst m) || Js.includes "gemini-2.0-flash" (fst m) |}.

Section Fetch.

(** [String.prototype.toUpperCase]. *)
Variable toUpperCase : string -> string.

(** The answer to a request, by its URL. *)
Variable answer : string -> Answer.

(** [filter(m => m.id.includes('gpt'))]: reading [includes] of a missing
    id throws ([None]). *)
Fixpoint gptOnly (l : list RawModel) : option (list string) :=
  match l with
  | [] => Some []
  | m :: rest =>
      match raw_id m with
      | Some id =>
          match gptOnly rest with
          | Some ids => Some (if Js.includes "gpt" id then id :: ids else ids)
          | None => None
          end
      | None => None
      end
  end.

Definition openaiInfo (id : string) : ModelInfo :=
  {| mi_id := id;
     mi_name := replaceAll "-" " " (toUpperCase id);
     mi_recommended := String.eqb id "gpt-4o" || String.eqb id "gpt-4o-mini" |}.

(** The [catch]: the error is logged, by its message; for a thrown
    [TypeError] the line logged is cut to that name. *)
Definition failedFetch (message : string) (m : Models) (w : World)
  : Models * World :=
  (m, emit (ConsoleError ("Failed to fetch models: " ++ message)) w).

(** The [try] block of [fetchProviderModels], once the flag is set. *)
Definition fetchCatalog (provider : string) (m : Models) (w : World)
  : Models * World :=
  if String.eqb provider "openrouter" then
    let w := emit (Fetch "https://openrouter.ai/api/v1/models") w in
    match answer "https://openrouter.ai/api/v1/models" with
    | NoAnswer message => failedFetch message m w
    | Refused => (m, w)
    | Body None => failedFetch "TypeError" m w
    | Body (Some data) =>
        (setFetched
           (setCatalog "openrouter"
              (map openrouterInfo (sort freeFirst (withId data))) m), w)
    end
  else if String.eqb provider "openai" then
    let w := emit (Fetch "https://api.openai.com/v1/models") w in
    match answer "https://api.openai.com/v1/models" with
    | NoAnswer message => failedFetch message m w
    | Refused => (m, w)
    | Body None => failedFetch "TypeError" m w
    | Body (Some data) =>
        match gptOnly data with
        | Some ids => (setFetched (setCatalog "openai" (map openaiInfo ids) m), w)
        | None => failedFetch "TypeError" m w
        end
    end
  else if String.eqb provider "anthropic" then (setFetched m, w)
  else if String.eqb provider "google" then (setFetched m, w)
  else (m, w).

(** [fetchProviderModels(app)] *)
Definition fetchProviderModels (c : Config) (m : Models) (w : World)
  : Models * World :=
  if negb (String.eqb (aiMode c) "api") || negb (Js.nonempty (aiApiKey c))
  then (m, w)
  else if fetchingModels m then (m, w)
  else
    let '(m, w) := fetchCatalog (aiProvider c) (setFetching true m) w in
    (setFetching false m, w).

(** [saveGenerationParams(app)] *)
Definition saveGenerationParams (app : App) (w : World) : World :=
  setItem storageKey (AISettings.settings app) w.

(** [x || d] on a number: zero is falsy. *)
Definition or_num (x d : number) : number :=
  if Json.nonzero (fst x) (snd x) then x else d.

(** The fields [loadAISettings] assigns, from the stored object. *)
Definition loaded (s : Settings) (c : Config) : Config :=
  {| aiMode := or_str (mode s) "local";
     aiProvider := or_str (provider s) "anthropic";
     aiApiKey := or_str (apiKey s) EmptyString;
     aiModel := or_str (model s) EmptyString;
     aiEndpoint := or_str (endpoint s) EmptyString;
     appTemperature := or_num (temperature s) (8, -1)%Z;
     appMaxTokens := or_num (maxTokens s) (300, 0)%Z;
     appUseProviderDefaults := appUseProviderDefaults c;
     appForceNonStreaming := appForceNonStreaming c;
     providerModels := providerModels c |}.

(** [loadAISettings(app)] *)
Definition loadAISettings (app : App) (m : Models) (w : World)
  : App * Models * World :=
  match localStorage w !! storageKey with
  | Some s =>
      let app := {| config := loaded s (config app); view := view app |} in
      let c := config app in
      if String.eqb (aiMode c) "api" && Js.nonempty (aiApiKey c) then
        let '(m, w) := fetchProviderModels c m w in (app, m, w)
      else (app, m, w)
  | None => (app, m, w)
  end.

End Fetch.

End AISettingsStore.

(** ** [unnamed/part_000]: the quick save *)

Module AISettings000Store.
Import Browser.

(** [saveGenerationParams(app)] *)
Definition saveGenerationParams (app : App) (w : World) : World :=
  setItem storageKey (AISettings000.settings app) w.

(** A probe that ends in a rejection: the request fails or is aborted
    by its timeout. *)
Definition isRejected (p : Probe) : bool :=
  match p with Rejected _ => true | _ => false end.

(** The delays waited, in order. *)
Definition waits (w : World) : list nat :=
  List.flat_map (fun e => match e with Wait ms => [ms] | _ => [] end) (trace w).

End AISettings000Store.

(** ** The compendium manager of [src/generation.js] *)

Module CompendiumManager.

(** A member that may be missing, [null] or a text. *)
Inductive Nullable : Type :=
| Undefined
| Null
| Text (s : string).

(** A compendium entry as the editor holds it. *)
Record Entry : Type := {
  e_id : string;
  e_category : string;
  e_title : string;
  e_body : string;
  e_imageUrl : Nullable;
  e_alwaysInContext : option bool;
  e_tags : option (list string);
  e_order : option Z
}.

(** The pending actions the guard stores. *)
Inductive Action : Type :=
| Select (id : string)
| Close
| Category (category : string)
| Create (category : option string)
| MoveToCategory (id newCategory : string).

(** What [updateEntry] is asked to change. *)
Inductive Updates : Type :=
| Content (title body : string) (tags : list string) (imageUrl : Nullable)
    (alwaysInContext : bool)
| CategoryOrder (category : string) (order : Z).

(** What the manager leaves outside [app]: lines on the console and the
    timers that clear the save status. *)
Inductive Effect : Type :=
| LogWarn (line : string)
| LogError (line : string)
| ClearSaveStatusAfter (ms : nat).

(** The fields of [app] the manager works on.  A category is a string;
    the list of open ones can come to hold [undefined] ([None]), which
    [createCompendiumEntry] pushes when it is given no category and
    there is none to fall back on. *)
Record App : Type := {
  currentProject : option string;
  showCodexPanel : bool;
  currentCompEntry : option Entry;
  compendiumOriginalEntry : option Entry;
  compendiumDirty : bool;
  pendingCompendiumAction : option Action;
  showCompendiumUnsavedModal : bool;
  openCompCategories : list (option string);
  compendiumLists : gmap string (list Entry);
  compendiumCounts : gmap string nat;
  compendiumCategories : list string;
  newCompTag : option string;
  compendiumSaveStatus : string
}.

Definition setPanel (v : bool) (a : App) : App :=
  {| currentProject := currentProject a; showCodexPanel := v;
     currentCompEntry := currentCompEntry a;
     compendiumOriginalEntry := compendiumOriginalEntry a;
     compendiumDirty := compendiumDirty a;
     pendingCompendiumAction := pendingCompendiumAction a;
     showCompendiumUnsavedModal := showCompendiumUnsavedModal a;
     openCompCategories := openCompCategories a;
     compendiumLists := compendiumLists a;
     compendiumCounts := compendiumCounts a;
     compendiumCategories := compendiumCategories a;
     newCompTag := newCompTag a;
     compendiumSaveStatus := compendiumSaveStatus a |}.

Definition setEntry (v : option Entry) (a : App) : App :=
  {| currentProject := currentProject a; showCodexPanel := showCodexPanel a;
     currentCompEntry := v;
     compendiumOriginalEntry := compendiumOriginalEntry a;
     compendiumDirty := compendiumDirty a;
     pendingCompendiumAction := pendingCompendiumAction a;
     showCompendiumUnsavedModal := showCompendiumUnsavedModal a;
     openCompCategories := openCompCategories a;
     compendiumLists := compendiumLists a;
     compendiumCounts := compendiumCounts a;
     compendiumCategories := compendiumCategories a;
     newCompTag := newCompTag a;
     compendiumSaveStatus := compendiumSaveStatus a |}.

Definition setOriginal (v : option Entry) (a : App) : App :=
  {| currentProject := currentProject a; showCodexPanel := showCodexPanel a;
     currentCompEntry := currentCompEntry a; compendiumOriginalEntry := v;
     compendiumDirty := compendiumDirty a;
     pendingCompendiumAction := pendingCompendiumAction a;
     showCompendiumUnsavedModal := showCompendiumUnsavedModal a;
     openCompCategories := openCompCategories a;
     compendiumLists := compendiumLists a;
     compendiumCounts := compendiumCounts a;
     compendiumCategories := compendiumCategories a;
     newCompTag := newCompTag a;
     compendiumSaveStatus := compendiumSaveStatus a |}.

Definition setDirty (v : bool) (a : App) : App :=
  {| currentProject := currentProject a; showCodexPanel := showCodexPanel a;
     currentCompEntry := currentCompEntry a;
     compendiumOriginalEntry := compendiumOriginalEntry a;
     compendiumDirty := v;
     pendingCompendiumAction := pendingCompendiumAction a;
     showCompendiumUnsavedModal := showCompendiumUnsavedModal a;
     openCompCategories := openCompCategories a;
     compendiumLists := compendiumLists a;
     compendiumCounts := compendiumCounts a;
     compendiumCategories := compendiumCategories a;
     newCompTag := newCompTag a;
     compendiumSaveStatus := compendiumSaveStatus a |}.

Definition setPending (v : option Action) (a : App) : App :=
  {| currentProject := currentProject a; showCodexPanel := showCodexPanel a;
     currentCompEntry := currentCompEntry a;
     compendiumOriginalEntry := compendiumOriginalEntry a;
     compendiumDirty := compendiumDirty a; pendingCompendiumAction := v;
     showCompendiumUnsavedModal := showCompendiumUnsavedModal a;
     openCompCategories := openCompCategories a;
     compendiumLists := compendiumLists a;
     compendiumCounts := compendiumCounts a;
     compendiumCategories := compendiumCategories a;
     newCompTag := newCompTag a;
     compendiumSaveStatus := compendiumSaveStatus a |}.

Definition setModal (v : bool) (a : App) : App :=
  {| currentProject := currentProject a; showCodexPanel := showCodexPanel a;
     currentCompEntry := currentCompEntry a;
     compendiumOriginalEntry := compendiumOriginalEntry a;
     compendiumDirty := compendiumDirty a;
     pendingCompendiumAction := pendingCompendiumAction a;
     showCompendiumUnsavedModal := v;
     openCompCategories := openCompCategories a;
     compendiumLists := compendiumLists a;
     compendiumCounts := compendiumCounts a;
     compendiumCategories := compendiumCategories a;
     newCompTag := newCompTag a;
     compendiumSaveStatus := compendiumSaveStatus a |}.

Definition setOpen (v : list (option string)) (a : App) : App :=
  {| currentProject := currentProject a; showCodexPanel := showCodexPanel a;
     currentCompEntry := currentCompEntry a;
     compendiumOriginalEntry := compendiumOriginalEntry a;
     compendiumDirty := compendiumDirty a;
     pendingCompendiumAction := pendingCompendiumAction a;
     showCompendiumUnsavedModal := showCompendiumUnsavedModal a;
     openCompCategories := v; compendiumLists := compendiumLists a;
     compendiumCounts := compendiumCounts a;
     compendiumCategories := compendiumCategories a;
     newCompTag := newCompTag a;
     compendiumSaveStatus := compendiumSaveStatus a |}.

Definition setLists (v : gmap string (list Entry)) (a : App) : App :=
  {| currentProject := currentProject a; showCodexPanel := showCodexPanel a;
     currentCompEntry := currentCompEntry a;
     compendiumOriginalEntry := compendiumOriginalEntry a;
     compendiumDirty := compendiumDirty a;
     pendingCompendiumAction := pendingCompendiumAction a;
     showCompendiumUnsavedModal := showCompendiumUnsavedModal a;
     openCompCategories := openCompCategories a; compendiumLists := v;
     compendiumCounts := compendiumCounts a;
     compendiumCategories := compendiumCategories a;
     newCompTag := newCompTag a;
     compendiumSaveStatus := compendiumSaveStatus a |}.

Definition setCounts (v : gmap string nat) (a : App) : App :=
  {| currentProject := currentProject a; showCodexPanel := showCodexPanel a;
     currentCompEntry := currentCompEntry a;
     compendiumOriginalEntry := compendiumOriginalEntry a;
     compendiumDirty := compendiumDirty a;
     pendingCompendiumAction := pendingCompendiumAction a;
     showCompendiumUnsavedModal := showCompendiumUnsavedModal a;
     openCompCategories := openCompCategories a;
     compendiumLists := compendiumLists a; compendiumCounts := v;
     compendiumCategories := compendiumCategories a;
     newCompTag := newCompTag a;
     compendiumSaveStatus := compendiumSaveStatus a |}.

Definition setNewTag (v : option string) (a : App) : App :=
  {| currentProject := currentProject a; showCodexPanel := showCodexPanel a;
     currentCompEntry := currentCompEntry a;
     compendiumOriginalEntry := compendiumOriginalEntry a;
     compendiumDirty := compendiumDirty a;
     pendingCompendiumAction := pendingCompendiumAction a;
     showCompendiumUnsavedModal := showCompendiumUnsavedModal a;
     openCompCategories := openCompCategories a;
     compendiumLists := compendiumLists a;
     compendiumCounts := compendiumCounts a;
     compendiumCategories := compendiumCategories a; newCompTag := v;
     compendiumSaveStatus := compendiumSaveStatus a |}.

Definition setSaveStatus (v : string) (a : App) : App :=
  {| currentProject := currentProject a; showCodexPanel := showCodexPanel a;
     currentCompEntry := currentCompEntry a;
     compendiumOriginalEntry := compendiumOriginalEntry a;
     compendiumDirty := compendiumDirty a;
     pendingCompendiumAction := pendingCompendiumAction a;
     showCompendiumUnsavedModal := showCompendiumUnsavedModal a;
     openCompCategories := openCompCategories a;
     compendiumLists := compendiumLists a;
     compendiumCounts := compendiumCounts a;
     compendiumCategories := compendiumCategories a;
     newCompTag := newCompTag a; compendiumSaveStatus := v |}.

Definition setTags (v : option (list string)) (e : Entry) : Entry :=
  {| e_id := e_id e; e_category := e_category e; e_title := e_title e;
     e_body := e_body e; e_imageUrl := e_imageUrl e;
     e_alwaysInContext := e_alwaysInContext e; e_tags := v;
     e_order := e_order e |}.

Definition setImageUrl (v : Nullable) (e : Entry) : Entry :=
  {| e_id := e_id e; e_category := e_category e; e_title := e_title e;
     e_body := e_body e; e_imageUrl := v;
     e_alwaysInContext := e_alwaysInContext e; e_tags := e_tags e;
     e_order := e_order e |}.

(** [a !== b] on members of this kind. *)
Definition differs (a b : Nullable) : bool :=
  match a, b with
  | Undefined, Undefined => false
  | Null, Null => false
  | Text s, Text s' => negb (String.eqb s s')
  | _, _ => true
  end.

(** [Boolean(x)] *)
Definition toBoolean (x : option bool) : bool :=
  match x with Some b => b | None => false end.

(** [x || []] *)
Definition orEmpty {A} (x : option (list A)) : list A :=
  match x with Some l => l | None => [] end.

(** [x || ''] on a string or [undefined] *)
Definition orText (x : option string) : string :=
  match x with Some s => s | None => EmptyString end.

(** [x || null] *)
Definition orNull (x : Nullable) : Nullable :=
  match x with
  | Text (String c s) => Text (String c s)
  | _ => Null
  end.

(** The loop over the tags, once the lengths are known to agree:
    [true] as soon as two tags at the same index differ. *)
Fixpoint tagsDiffer (curr orig : list string) : bool :=
  match curr, orig with
  | c :: curr', o :: orig' =>
      if negb (String.eqb c o) then true else tagsDiffer curr' orig'
  | _, _ => false
  end.

(** [isCompendiumDirty(app)] *)
Definition isCompendiumDirty (a : App) : bool :=
  match currentCompEntry a, compendiumOriginalEntry a with
  | Some curr, Some orig =>
      if negb (String.eqb (e_title curr) (e_title orig)) then true
      else if negb (String.eqb (e_body curr) (e_body orig)) then true
      else if differs (e_imageUrl curr) (e_imageUrl orig) then true
      else if negb (Bool.eqb (toBoolean (e_alwaysInContext curr))
                             (toBoolean (e_alwaysInContext orig))) then true
      else
        let currTags := orEmpty (e_tags curr) in
        let origTags := orEmpty (e_tags orig) in
        if negb (Nat.eqb (List.length currTags) (List.length origTags))
        then true
        else tagsDiffer currTags origTags
  | _, _ => false
  end.

(** [updateCompendiumDirtyFlag(app)] *)
Definition updateCompendiumDirtyFlag (a : App) : App :=
  setDirty (isCompendiumDirty a) a.

(** [JSON.parse(JSON.stringify(entry))]: a copy with the same members
    (missing ones stay missing); a value has no identity to lose. *)
Definition jsonCopy (e : Entry) : Entry := e.

(** [storeCompendiumOriginal(app)] *)
Definition storeCompendiumOriginal (a : App) : App :=
  let a :=
    match currentCompEntry a with
    | Some e => setOriginal (Some (jsonCopy e)) a
    | None => setOriginal None a
    end in
  setDirty false a.

(** [cancelCompendiumAction(app)] *)
Definition cancelCompendiumAction (a : App) : App :=
  setModal false (setPending None a).

(** [_doCloseCompendium(app)] *)
Definition doCloseCompendium (a : App) : App :=
  setDirty false (setOriginal None (setEntry None (setPanel false a))).

(** [tags.includes(tag)] *)
Definition includesTag (tag : string) (tags : list string) : bool :=
  List.existsb (String.eqb tag) tags.

(** [addCompTag(app)] *)
Definition addCompTag (a : App) : App :=
  match currentCompEntry a with
  | None => a
  | Some e =>
      let tag := Js.trim (orText (newCompTag a)) in
      if negb (Js.nonempty tag) then a
      else
        let tags := orEmpty (e_tags e) in
        let a := setEntry (Some (setTags (Some tags) e)) a in
        let a :=
          if negb (includesTag tag tags) then
            updateCompendiumDirtyFlag
              (setEntry (Some (setTags (Some (tags ++ [tag])%list) e)) a)
          else a in
        setNewTag (Some EmptyString) a
  end.

(** [a.splice(index, 1)] for an integer [index]: a negative index counts
    from the end, an index beyond the end removes nothing. *)
Definition spliceOne {A} (index : Z) (l : list A) : list A :=
  let len := Z.of_nat (List.length l) in
  let start :=
    if (index <? 0)%Z then Z.max (len + index) 0 else Z.min index len in
  let i := Z.to_nat start in
  (List.firstn i l ++ List.skipn (S i) l)%list.

(** [removeCompTag(app, index)] *)
Definition removeCompTag (index : Z) (a : App) : App :=
  match currentCompEntry a with
  | None => a
  | Some e =>
      match e_tags e with
      | None => a
      | Some tags =>
          updateCompendiumDirtyFlag
            (setEntry (Some (setTags (Some (spliceOne index tags)) e)) a)
      end
  end.

(** [confirmRemoveCompImage(app)], given the answer to [confirm]. *)
Definition confirmRemoveCompImage (confirmed : bool) (a : App) : App :=
  match currentCompEntry a with
  | None => a
  | Some e =>
      match e_imageUrl e with
      | Text (String _ _) =>
          if confirmed then
            updateCompendiumDirtyFlag (setEntry (Some (setImageUrl Null e)) a)
          else a
      | _ => a
      end
  end.

(** [it.order || 0]; an order is an integer that a double holds. *)
Definition orderOf (e : Entry) : Z :=
  match e_order e with Some n => n | None => 0%Z end.

(** [x + 1] on a double that holds the integer [x].  The sum is exact
    as long as it stays within 2^53 in size.  Beyond that the doubles
    are at least 2 apart and the sum is rounded to the nearest one: up
    to 2^54 in size it lies half way between [x] and [x + 2] and goes to
    the one of the two with the even significand, from there on it goes
    back to [x]. *)
Definition plusOne (x : Z) : Z :=
  if (- 2 ^ 53 <=? x)%Z && (x <? 2 ^ 53)%Z then (x + 1)%Z
  else if (Z.abs x <? 2 ^ 54)%Z && Z.odd (Z.abs x / 2) then (x + 2)%Z
  else x.

(** [maxOrder + 1] as [_doMoveCompendiumEntryToCategory] computes it:
    one more than [Math.max] of the orders, or than [-1] for an empty
    category. *)
Definition nextOrder (items : list Entry) : Z :=
  match items with
  | [] => plusOne (-1)
  | it :: rest => plusOne (fold_left Z.max (map orderOf rest) (orderOf it))
  end.

(** [o[key] = v] on a plain object, as far as its own properties go:
    the key [__proto__] names the accessor of the prototype, and the
    assignment creates no own property. *)
Definition assign {V} (key : string) (v : V) (o : gmap string V)
  : gmap string V :=
  if String.eqb key "__proto__" then o else <[key := v]> o.

Section Store.

(** [window.Compendium], a module outside these sources, over a state
    [Db] of its own.  [None] is a rejected promise, which leaves the
    store as it was. *)
Variable Db : Type.
Variable listByCategory : Db -> string -> string -> option (list Entry).
Variable getEntry : Db -> string -> option (option Entry).
Variable createEntry : Db -> string -> option string -> option (Entry * Db).
Variable updateEntry : Db -> string -> Updates -> option Db.

(** The manager's state: the fields of [app], the store, and the
    effects so far.  Each asynchronous step is taken to run to its end
    before the next one starts. *)
Record State : Type := {
  app : App;
  db : Db;
  trace : list Effect
}.

Definition onApp (f : App -> App) (s : State) : State :=
  {| app := f (app s); db := db s; trace := trace s |}.

Definition setDb (d : Db) (s : State) : State :=
  {| app := app s; db := d; trace := trace s |}.

Definition emit (e : Effect) (s : State) : State :=
  {| app := app s; db := db s; trace := (trace s ++ [e])%list |}.

(** The loop of [loadCompendiumCounts]: [None] when a listing is
    rejected. *)
Fixpoint countAll (d : Db) (project : string) (categories : list string)
  (counts : gmap string nat) : option (gmap string nat) :=
  match categories with
  | [] => Some counts
  | c :: rest =>
      match listByCategory d project c with
      | Some list => countAll d project rest (assign c (List.length list) counts)
      | None => None
      end
  end.

(** [loadCompendiumCounts(app)]; without a project the read of its id
    throws in the first turn of the loop. *)
Definition loadCompendiumCounts (s : State) : State :=
  let counted :=
    match compendiumCategories (app s) with
    | [] => Some ∅
    | categories =>
        match currentProject (app s) with
        | Some project => countAll (db s) project categories ∅
        | None => None
        end
    end in
  match counted with
  | Some counts => onApp (setCounts counts) s
  | None =>
      onApp (setCounts ∅) (emit (LogWarn "Failed to load compendium counts:") s)
  end.

(** [refreshCategoryList(app, category)] *)
Definition refreshCategoryList (category : option string) (s : State)
  : State :=
  match currentProject (app s), category with
  | Some project, Some category =>
      if negb (Js.nonempty category) then s
      else
        match listByCategory (db s) project category with
        | Some list =>
            onApp (fun a => setLists (assign category list (compendiumLists a)) a) s
        | None =>
            onApp (fun a => setLists (assign category [] (compendiumLists a)) a)
                  (emit (LogError "Failed to refresh compendium category:") s)
        end
  | _, _ => s
  end.

(** [guardCompendiumAction(app, action, proceed)] *)
Definition guardCompendiumAction (action : Action) (proceed : State -> State)
  (s : State) : State :=
  if compendiumDirty (app s)
  then onApp (fun a => setModal true (setPending (Some action) a)) s
  else proceed s.

(** [closeCompendium(app)] *)
Definition closeCompendium (s : State) : State :=
  guardCompendiumAction Close (onApp doCloseCompendium) s.

(** [openCompendium(app)] *)
Definition openCompendium (s : State) : State :=
  if showCodexPanel (app s) then closeCompendium s
  else
    let s := loadCompendiumCounts (onApp (setPanel true) s) in
    fold_left (fun s cat => refreshCategoryList cat s)
              (openCompCategories (app s)) s.

(** [_doSelectCompendiumEntry(app, id)] *)
Definition doSelectCompendiumEntry (id : string) (s : State) : State :=
  match getEntry (db s) id with
  | Some e => onApp (fun a => storeCompendiumOriginal (setEntry e a)) s
  | None => emit (LogError "Failed to load compendium entry:") s
  end.

(** [app.currentCompEntry && app.currentCompEntry.id === id] *)
Definition selected (id : string) (a : App) : bool :=
  match currentCompEntry a with
  | Some e => String.eqb (e_id e) id
  | None => false
  end.

(** [selectCompendiumEntry(app, id)] *)
Definition selectCompendiumEntry (id : string) (s : State) : State :=
  if selected id (app s) then s
  else guardCompendiumAction (Select id) (doSelectCompendiumEntry id) s.

(** [a === b] on categories, [a.includes(x)], and
    [a.splice(a.indexOf(x), 1)] when [x] is in [a]: the first occurrence
    goes. *)
Definition sameCategory (a b : option string) : bool :=
  match a, b with
  | Some x, Some y => String.eqb x y
  | None, None => true
  | _, _ => false
  end.

Definition includesCategory (x : option string) (l : list (option string))
  : bool :=
  List.existsb (sameCategory x) l.

Fixpoint removeFirst (x : option string) (l : list (option string))
  : list (option string) :=
  match l with
  | [] => []
  | y :: rest => if sameCategory y x then rest else y :: removeFirst x rest
  end.

(** [app.currentCompEntry && app.currentCompEntry.category === category] *)
Definition inCategory (category : string) (a : App) : bool :=
  match currentCompEntry a with
  | Some e => String.eqb (e_category e) category
  | None => false
  end.

(** What the three assignments that drop the selection do. *)
Definition clearSelection (a : App) : App :=
  setDirty false (setOriginal None (setEntry None a)).

(** [_doLoadCompendiumCategory(app, category)] *)
Definition doLoadCompendiumCategory (category : string) (s : State) : State :=
  if includesCategory (Some category) (openCompCategories (app s)) then
    let s :=
      onApp (fun a =>
               let a :=
                 setOpen (removeFirst (Some category) (openCompCategories a)) a in
               let a := setLists (delete category (compendiumLists a)) a in
               if inCategory category a then clearSelection a else a) s in
    loadCompendiumCounts s
  else s.

(** [loadCompendiumCategory(app, category)] *)
Definition loadCompendiumCategory (category : string) (s : State) : State :=
  match currentProject (app s) with
  | None => s
  | Some _ =>
      if includesCategory (Some category) (openCompCategories (app s)) then
        if inCategory category (app s)
        then guardCompendiumAction (Category category)
               (doLoadCompendiumCategory category) s
        else doLoadCompendiumCategory category s
      else
        loadCompendiumCounts
          (refreshCategoryList (Some category)
             (onApp (fun a =>
                       setOpen (openCompCategories a ++ [Some category])%list a)
                    s))
  end.

(** [_doCreateCompendiumEntry(app, category)]; without a project the
    read of its id throws. *)
Definition doCreateCompendiumEntry (category : option string) (s : State)
  : State :=
  let failed := emit (LogError "Failed to create compendium entry:") s in
  match currentProject (app s) with
  | None => failed
  | Some project =>
      match createEntry (db s) project category with
      | None => failed
      | Some (entry, d) =>
          let s := setDb d s in
          let s :=
            if includesCategory category (openCompCategories (app s)) then s
            else onApp (fun a =>
                          setOpen (openCompCategories a ++ [category])%list a) s in
          let s := refreshCategoryList category s in
          let s := loadCompendiumCounts s in
          doSelectCompendiumEntry (e_id entry) s
      end
  end.

(** [createCompendiumEntry(app, category)]; [None] is a missing
    argument. *)
Definition createCompendiumEntry (category : option string) (s : State)
  : State :=
  match currentProject (app s) with
  | None => s
  | Some _ =>
      let cat :=
        Generation.or_else category
          (List.hd_error (compendiumCategories (app s))) in
      guardCompendiumAction (Create cat) (doCreateCompendiumEntry cat) s
  end.

(** [_doMoveCompendiumEntryToCategory(app, id, newCategory)] *)
Definition doMoveCompendiumEntryToCategory (id newCategory : string)
  (s : State) : State :=
  let failed :=
    emit (LogError "Failed to move compendium entry to category:") s in
  match getEntry (db s) id with
  | None => failed
  | Some entry =>
      match currentProject (app s) with
      | None => failed
      | Some project =>
          match listByCategory (db s) project newCategory with
          | None => failed
          | Some items =>
              match updateEntry (db s) id
                      (CategoryOrder newCategory (nextOrder items)) with
              | None => failed
              | Some d =>
                  let s := setDb d s in
                  let s :=
                    match entry with
                    | Some e =>
                        if Js.nonempty (e_category e)
                           && includesCategory (Some (e_category e))
                                (openCompCategories (app s))
                        then refreshCategoryList (Some (e_category e)) s
                        else s
                    | None => s
                    end in
                  let s :=
                    if includesCategory (Some newCategory)
                         (openCompCategories (app s))
                    then refreshCategoryList (Some newCategory) s else s in
                  let s := loadCompendiumCounts s in
                  if selected id (app s) then onApp clearSelection s else s
              end
          end
      end
  end.

(** [moveCompendiumEntryToCategory(app, id, newCategory)] *)
Definition moveCompendiumEntryToCategory (id newCategory : string)
  (s : State) : State :=
  if negb (Js.nonempty id) || negb (Js.nonempty newCategory) then s
  else if selected id (app s) && compendiumDirty (app s) then
    guardCompendiumAction (MoveToCategory id newCategory)
      (doMoveCompendiumEntryToCategory id newCategory) s
  else doMoveCompendiumEntryToCategory id newCategory s.

(** [saveCompendiumEntry(app)] *)
Definition saveCompendiumEntry (s : State) : State :=
  match currentCompEntry (app s) with
  | None => s
  | Some e =>
      if negb (Js.nonempty (e_id e)) then s
      else
        let s := onApp (setSaveStatus "Saving...") s in
        let updates :=
          Content (Browser.or_str (e_title e) EmptyString)
                  (Browser.or_str (e_body e) EmptyString)
                  (orEmpty (e_tags e))
                  (orNull (e_imageUrl e))
                  (Browser.or_false (e_alwaysInContext e)) in
        match updateEntry (db s) (e_id e) updates with
        | Some d =>
            let s := setDb d s in
            let s := refreshCategoryList (Some (e_category e)) s in
            let s := loadCompendiumCounts s in
            let s := onApp storeCompendiumOriginal s in
            emit (ClearSaveStatusAfter 2000) (onApp (setSaveStatus "Saved") s)
        | None =>
            let s := emit (LogError "Failed to save compendium entry:") s in
            emit (ClearSaveStatusAfter 3000) (onApp (setSaveStatus "Error") s)
        end
  end.

(** [executePendingCompendiumAction(app)] *)
Definition executePendingCompendiumAction (s : State) : State :=
  let action := pendingCompendiumAction (app s) in
  let s := onApp (fun a => setModal false (setPending None a)) s in
  match action with
  | None => s
  | Some (Select id) => doSelectCompendiumEntry id s
  | Some Close => onApp doCloseCompendium s
  | Some (Category category) => doLoadCompendiumCategory category s
  | Some (Create category) => doCreateCompendiumEntry category s
  | Some (MoveToCategory id newCategory) =>
      doMoveCompendiumEntryToCategory id newCategory s
  end.

(** [saveAndProceedCompendium(app)] *)
Definition saveAndProceedCompendium (s : State) : State :=
  executePendingCompendiumAction (saveCompendiumEntry s).

(** [discardAndProceedCompendium(app)] *)
Definition discardAndProceedCompendium (s : State) : State :=
  executePendingCompendiumAction
    (onApp (fun a => setOriginal None (setDirty false a)) s).

End Store.

Arguments app {Db}.
Arguments db {Db}.
Arguments trace {Db}.
Arguments onApp {Db}.
Arguments setDb {Db}.
Arguments emit {Db}.
Arguments countAll {Db}.
Arguments loadCompendiumCounts {Db}.
Arguments refreshCategoryList {Db}.
Arguments guardCompendiumAction {Db}.
Arguments closeCompendium {Db}.
Arguments openCompendium {Db}.
Arguments doSelectCompendiumEntry {Db}.
Arguments selectCompendiumEntry {Db}.
Arguments doLoadCompendiumCategory {Db}.
Arguments loadCompendiumCategory {Db}.
Arguments doCreateCompendiumEntry {Db}.
Arguments createCompendiumEntry {Db}.
Arguments doMoveCompendiumEntryToCategory {Db}.
Arguments moveCompendiumEntryToCategory {Db}.
Arguments saveCompendiumEntry {Db}.
Arguments executePendingCompendiumAction {Db}.
Arguments saveAndProceedCompendium {Db}.
Arguments discardAndProceedCompendium {Db}.

End CompendiumManager.

(** ** The text-to-speech module of [src/modules/ai-settings.js] *)

Module TTS.

(** What [getDefaultVoice] reads of a [SpeechSynthesisVoice]. *)
Record Voice : Type := {
  lang : string;
  name : string
}.

Definition isEnglish (v : Voice) : bool := Js.startsWith "en" (lang v).

Definition isNatural (v : Voice) : bool :=
  Js.includes "Natural" (name v)
  || Js.includes "Neural" (name v)
  || Js.includes "Premium" (name v).

(** [getDefaultVoice()], given the voices of the synthesiser; [None] is
    [null]. *)
Definition getDefaultVoice (voices : list Voice) : option Voice :=
  match voices with
  | [] => None
  | _ :: _ =>
      let englishVoices := List.filter isEnglish voices in
      let englishVoices :=
        match englishVoices with
        | [] => voices
        | _ :: _ => englishVoices
        end in
      match List.find isNatural englishVoices with
      | Some naturalVoice => Some naturalVoice
      | None => List.hd_error englishVoices
      end
  end.

End TTS.

(** ** Notions for the compendium manager *)

Module CompendiumNotions.
Import CompendiumManager.

(** What of an entry the editor can change, as the comparison reads it:
    missing tags are no tags, a missing flag is [false]. *)
Definition editable (e : Entry)
  : string * string * Nullable * bool * list string :=
  (e_title e, e_body e, e_imageUrl e, toBoolean (e_alwaysInContext e),
   orEmpty (e_tags e)).

(** The entry being edited, its snapshot and the flag. *)
Definition edits (a : App) : option Entry * option Entry * bool :=
  (currentCompEntry a, compendiumOriginalEntry a, compendiumDirty a).

(** The unsaved-changes dialog is over: no mark, no pending action, no
    modal. *)
Definition settled (a : App) : Prop :=
  compendiumDirty a = false /\ pendingCompendiumAction a = None /\
  showCompendiumUnsavedModal a = false.

(** What [saveCompendiumEntry] sends for an entry. *)
Definition contentOf (e : Entry) : Updates :=
  Content (e_title e) (e_body e) (orEmpty (e_tags e)) (orNull (e_imageUrl e))
          (toBoolean (e_alwaysInContext e)).

(** The tags of the entry being edited. *)
Definition tagsOf (a : App) : list string :=
  match currentCompEntry a with
  | Some e => orEmpty (e_tags e)
  | None => []
  end.

(** The candidates of [getDefaultVoice]: the English voices if there is
    one, all voices otherwise. *)
Definition candidates (voices : list TTS.Voice) : list TTS.Voice :=
  if List.existsb TTS.isEnglish voices
  then List.filter TTS.isEnglish voices else voices.

End CompendiumNotions.

(** ** More example inputs *)

Module MoreExamples.
Import Generation Browser Spec Examples AISettingsStore.

(** A stream with a comment line, one with a [null] payload, and one
    whose last frame lacks its line feed. *)
Definition commentedChunks : list string :=
  [": ping" ++ newline ++ dq "data: {'content':'x'}" ++ newline].

Definition nullChunks : list string :=
  ["data: null" ++ newline ++ dq "data: {'content':'x'}" ++ newline].

Definition cutChunks : list string :=
  [dq "data: {'content':'a'}" ++ newline ++ dq "data: {'content':'b'}"].

(** A configuration of the api mode, and the same with the temperature
    at zero. *)
Definition apiApp : App := {|
  config := {| aiMode := "api"; aiProvider := "openrouter";
               aiApiKey := "sk-1"; aiModel := "b:free";
               aiEndpoint := EmptyString;
               appTemperature := (7, -1)%Z; appMaxTokens := (256, 0)%Z;
               appUseProviderDefaults := None; appForceNonStreaming := None;
               providerModels := ∅ |};
  view := view firstApp
|}.

Definition coldApp : App := {|
  config := {| aiMode := "api"; aiProvider := "openai";
               aiApiKey := "sk-1"; aiModel := "gpt-4o";
               aiEndpoint := EmptyString;
               appTemperature := (0, 0)%Z; appMaxTokens := (256, 0)%Z;
               appUseProviderDefaults := None; appForceNonStreaming := None;
               providerModels := ∅ |};
  view := view firstApp
|}.

(** A configuration with a temperature and no token limit. *)
Definition unboundedApp : App := {|
  config := {| aiMode := "api"; aiProvider := "openai";
               aiApiKey := "sk-1"; aiModel := "gpt-4o";
               aiEndpoint := EmptyString;
               appTemperature := (7, -1)%Z; appMaxTokens := (0, 0)%Z;
               appUseProviderDefaults := None; appForceNonStreaming := None;
               providerModels := ∅ |};
  view := view firstApp
|}.

Definition noModels : Models :=
  {| fetchingModels := false; modelsFetched := false; catalog := ∅ |}.

(** A provider's list with a paid model, an entry without id and two
    free models, and a provider that answers with it. *)
Definition listed : list RawModel :=
  [ {| raw_id := Some "a/paid"; raw_name := Some "Paid" |};
    {| raw_id := None; raw_name := Some "Nameless" |};
    {| raw_id := Some "b:free"; raw_name := None |};
    {| raw_id := Some "gpt-4o"; raw_name := Some "C" |} ].

Definition answering (data : list RawModel) (url : string) : Answer :=
  Body (Some data).

End MoreExamples.

Module CompendiumExamples.
Import CompendiumManager.

(** An entry with one tag, and the editor holding it with its snapshot
    and a tag typed into the field. *)
Definition ann : Entry := {|
  e_id := "e1"; e_category := "characters"; e_title := "Ann";
  e_body := "A tall woman from the north."; e_imageUrl := Undefined;
  e_alwaysInContext := None; e_tags := Some ["hero"]; e_order := Some 2%Z
|}.

Definition editing : App := {|
  currentProject := Some "p1"; showCodexPanel := true;
  currentCompEntry := Some ann; compendiumOriginalEntry := Some ann;
  compendiumDirty := false; pendingCompendiumAction := None;
  showCompendiumUnsavedModal := false;
  openCompCategories := [Some "characters"];
  compendiumLists := ∅; compendiumCounts := ∅;
  compendiumCategories := ["characters"; "places"];
  newCompTag := Some " north "; compendiumSaveStatus := EmptyString
|}.

(** The same editor after a change of the title, with and without a
    pending close. *)
Definition retitled : Entry := {|
  e_id := "e1"; e_category := "characters"; e_title := "Anna";
  e_body := "A tall woman from the north."; e_imageUrl := Undefined;
  e_alwaysInContext := None; e_tags := Some ["hero"]; e_order := Some 2%Z
|}.

Definition edited : App :=
  setDirty true (setEntry (Some retitled) editing).

Definition closing : App :=
  setModal true (setPending (Some Close) edited).

(** A store that is out of reach: every call is rejected. *)
Definition offlineList (d : unit) (project category : string)
  : option (list Entry) := None.
Definition offlineGet (d : unit) (id : string) : option (option Entry) := None.
Definition offlineCreate (d : unit) (project : string)
  (category : option string) : option (Entry * unit) := None.
Definition offlineUpdate (d : unit) (id : string) (u : Updates)
  : option unit := None.

Definition offline (a : App) : State unit :=
  {| app := a; db := tt; trace := [] |}.

End CompendiumExamples.

(* ===================================================================== *)
(** * Part II. Properties *)
(* ===================================================================== *)

(** ** Strings *)

Section StringFacts.

Implicit Types (s t u m : string) (c : ascii) (n : nat).

Lemma append_nil_r s : s ++ EmptyString = s.
Proof. induction s as [|c s IH]; simpl; [reflexivity | now rewrite IH]. Qed.

Lemma append_assoc s t u : (s ++ t) ++ u = s ++ (t ++ u).
Proof. induction s as [|c s IH]; simpl; [reflexivity | now rewrite IH]. Qed.

Lemma length_append s t :
  String.length (s ++ t) = String.length s + String.length t.
Proof. induction s as [|c s IH]; simpl; [reflexivity | now rewrite IH]. Qed.

Lemma take_drop n s : Js.take n s ++ Js.drop n s = s.
Proof.
  revert s; induction n as [|n IH]; intros [|c s]; simpl; try reflexivity.
  now rewrite IH.
Qed.

Lemma drop_append_le n s t :
  n <= String.length s -> Js.drop n (s ++ t) = Js.drop n s ++ t.
Proof.
  revert s; induction n as [|n IH]; intros [|c s] Hn; simpl in *;
    try reflexivity; try lia.
  apply IH; lia.
Qed.

Lemma take_length_append s t : Js.take (String.length s) (s ++ t) = s.
Proof. induction s as [|c s IH]; simpl; [now destruct t | now rewrite IH]. Qed.

Lemma drop_length_append s t : Js.drop (String.length s) (s ++ t) = t.
Proof. induction s as [|c s IH]; simpl; [now destruct t | exact IH]. Qed.

Lemma prefix_refl_append m t : String.prefix m (m ++ t) = true.
Proof.
  induction m as [|c m IH]; simpl; [now destruct t |].
  destruct (ascii_dec c c) as [_|Hne]; [exact IH | now destruct Hne].
Qed.

Lemma indexOf_prefix m s : String.prefix m s = true -> Js.indexOf m s = Some 0.
Proof. intros H. destruct s; cbn [Js.indexOf]; now rewrite H. Qed.

(** The first occurrence of a needle lies at or before any place where
    it is known to occur. *)
Lemma indexOf_append m s t :
  exists i, Js.indexOf m (s ++ m ++ t) = Some i /\ i <= String.length s.
Proof.
  induction s as [|c s (i & Hi & Hle)].
  - exists 0. simpl. split; [|lia].
    apply indexOf_prefix, prefix_refl_append.
  - change (String c s ++ m ++ t) with (String c (s ++ m ++ t)).
    cbn [Js.indexOf String.length].
    destruct (String.prefix m (String c (s ++ m ++ t))).
    + exists 0; split; [reflexivity | lia].
    + exists (S i). rewrite Hi. split; [reflexivity | lia].
Qed.

End StringFacts.

(** ** [buildPrompt] *)

Section PromptFacts.
Import Generation Spec.

Implicit Types (beat sceneContext : string) (o : Options) (console : Console).

Lemma entryBody_bodyOf ce : entryBody ce = bodyOf ce.
Proof.
  unfold entryBody, bodyOf.
  destruct (ce_body ce) as [[|c b]|], (ce_description ce) as [[|c' d]|];
    reflexivity.
Qed.

Lemma appendEntry_spec text ce : appendEntry text ce = appendEntrySpec text ce.
Proof. destruct ce as [e|]; simpl; [now rewrite entryBody_bodyOf | reflexivity]. Qed.

Lemma fold_appendEntry_spec es text :
  fold_left appendEntry es text = fold_left appendEntrySpec es text.
Proof.
  revert text; induction es as [|e es IH]; intros text; simpl;
    [reflexivity | now rewrite appendEntry_spec, IH].
Qed.

(** C8. The body text of a reference block is the entry's body when that
    is not empty, otherwise its description when that is not empty,
    otherwise the empty string: the implemented chain of fallbacks equals
    that one on every entry, and the block [buildPrompt] renders outside
    preview mode for a non-empty list of entries is the one made of those
    bodies. *)
Theorem entry_body_fallback ce :
  entryBody ce = bodyOf ce
  /\ (forall text, appendEntry text (Some ce) = appendEntrySpec text (Some ce))
  /\ (forall o,
        compendiumText o
        = if preview o then EmptyString
          else match compendiumEntries o with
               | Some (e :: es) =>
                   fold_left appendEntrySpec (e :: es) compendiumHeader
               | _ => EmptyString
               end).
Proof.
  split; [apply entryBody_bodyOf |]. split; [intros; apply appendEntry_spec |].
  intros o. unfold compendiumText. destruct (preview o); [reflexivity |].
  destruct (compendiumEntries o) as [[|e es]|]; try reflexivity.
  apply fold_appendEntry_spec.
Qed.

(** Read with JavaScript's [??], the chain agrees with the implemented
    one whenever no field is present and empty. *)
Lemma entryBody_nullish ce :
  ce_body ce <> Some EmptyString -> ce_description ce <> Some EmptyString ->
  entryBody ce = nullishBody ce.
Proof.
  unfold entryBody, nullishBody.
  destruct (ce_body ce) as [[|c b]|], (ce_description ce) as [[|c' d]|];
    intros H1 H2; try reflexivity; congruence.
Qed.

(** An entry whose body is present and empty: the implemented chain
    falls through to the description, [??] would not. *)
Example entryBody_empty_body :
  let ce := {| ce_title := None; ce_id := None; ce_body := Some EmptyString;
               ce_description := Some "d" |} in
  entryBody ce = "d" /\ nullishBody ce = EmptyString.
Proof. split; reflexivity. Qed.

Lemma fold_appendEntry_grows es text :
  exists rest, fold_left appendEntry es text = text ++ rest.
Proof.
  revert text; induction es as [|e es IH]; intros text; simpl.
  - exists EmptyString. now rewrite append_nil_r.
  - destruct (IH (appendEntry text e)) as [rest Hrest]. rewrite Hrest.
    destruct e as [e|]; simpl.
    + eexists. rewrite !append_assoc. reflexivity.
    + now exists rest.
Qed.

Lemma compendiumText_header o e es :
  preview o = false -> compendiumEntries o = Some (e :: es) ->
  exists rest, compendiumText o = compendiumHeader ++ rest.
Proof.
  intros Hp He. unfold compendiumText. rewrite Hp, He.
  apply fold_appendEntry_grows.
Qed.

Lemma prompt_marker beat sceneContext o :
  exists tail,
    beatSection beat = beatMarker ++ tail
    /\ prompt beat sceneContext o
       = promptHead sceneContext o ++ beatMarker ++ tail.
Proof.
  eexists. split; [unfold beatSection; reflexivity |].
  unfold prompt, beatSection. reflexivity.
Qed.

(** C7. Outside preview mode and with a non-empty list of entries, the
    rendered reference block, which opens with the COMPENDIUM REFERENCES
    header, stands in the assembled prompt before the beat instruction
    (the section the template opens with the BEAT TO EXPAND line): the
    prompt is some text, the block, a line feed, possibly more text, and
    then the beat section to the end. *)
Theorem references_precede_beat beat sceneContext o console e es :
  preview o = false ->
  compendiumEntries o = Some (e :: es) ->
  exists before between block,
    compendiumText o = compendiumHeader ++ block
    /\ fst (buildPrompt beat sceneContext o console)
       = before ++ compendiumText o ++ newline ++ between ++ beatSection beat.
Proof.
  intros Hp He.
  destruct (compendiumText_header o e es Hp He) as [block Hblock].
  destruct (prompt_marker beat sceneContext o) as (tail & Hsec & Hprompt).
  destruct (indexOf_append beatMarker (promptHead sceneContext o) tail)
    as (i & Hi & Hle).
  exists (Js.take i (prompt beat sceneContext o)),
         (Js.drop i (promptHead sceneContext o)), block.
  split; [exact Hblock |].
  assert (Hne : Js.nonempty (compendiumText o) = true)
    by (rewrite Hblock; reflexivity).
  unfold buildPrompt, assembled; cbn [fst].
  rewrite Hne, Hsec, Hprompt, Hi.
  do 3 f_equal. now apply drop_append_le.
Qed.

End PromptFacts.

(** ** Occurrences of a text across fixed separators *)

Section Occurrences.
Import Spec.

Implicit Types (m u y a b fixed : string).

Lemma prefix_nil_l s : String.prefix EmptyString s = true.
Proof. now destruct s. Qed.

Lemma prefix_cons c1 m c2 s :
  String.prefix (String c1 m) (String c2 s)
  = if Ascii.eqb c1 c2 then String.prefix m s else false.
Proof.
  simpl. destruct (ascii_dec c1 c2) as [->|Hne].
  - now rewrite Ascii.eqb_refl.
  - apply Ascii.eqb_neq in Hne. now rewrite Hne.
Qed.

Lemma includes_prefix m s : String.prefix m s = true -> Js.includes m s = true.
Proof. intros H. destruct s; cbn [Js.includes]; now rewrite H. Qed.

Lemma includes_cons m c s :
  Js.includes m (String c s)
  = String.prefix m (String c s) || Js.includes m s.
Proof. reflexivity. Qed.

(** A prefix of a concatenation ends inside the first part or reaches
    into the second. *)
Lemma prefix_append_cases m u r :
  String.prefix m (u ++ r) = true ->
  String.prefix m u = true
  \/ exists m', m = u ++ m' /\ String.prefix m' r = true.
Proof.
  revert m; induction u as [|c u IH]; intros m H.
  - right. now exists m.
  - destruct m as [|d m]; [left; reflexivity |].
    change (String c u ++ r) with (String c (u ++ r)) in H.
    rewrite prefix_cons in *. destruct (Ascii.eqb d c) eqn:E; [|discriminate].
    apply Ascii.eqb_eq in E; subst d.
    destruct (IH m H) as [Hl | (m' & -> & Hr)]; [now left | right].
    now exists m'.
Qed.

Lemma part_ways_prefix a b y :
  part_ways a b = true -> String.prefix a (b ++ y) = false.
Proof.
  unfold part_ways. revert a; induction b as [|c b IH]; intros a H.
  - rewrite prefix_nil_l in H. now rewrite andb_false_r in H.
  - destruct a as [|d a]; [now rewrite prefix_nil_l in H |].
    change (String c b ++ y) with (String c (b ++ y)).
    rewrite !prefix_cons in *. rewrite (Ascii.eqb_sym c d) in H.
    destruct (Ascii.eqb d c); [now apply IH | reflexivity].
Qed.

Lemma in_suffixes u m' :
  m' <> EmptyString -> In m' (suffixes (u ++ m')).
Proof.
  intros Hne. induction u as [|c u IH]; simpl.
  - destruct m'; [congruence | now left].
  - now right.
Qed.

(** Nothing that occurs in [fixed ++ y] starts inside [fixed]. *)
Lemma includes_skip m fixed y :
  forallb (part_ways m) (suffixes fixed) = true ->
  Js.includes m (fixed ++ y) = true -> Js.includes m y = true.
Proof.
  induction fixed as [|c fixed IH]; intros Hg H; [exact H |].
  cbn [suffixes forallb] in Hg. apply andb_prop in Hg as [Hc Hg].
  change (String c fixed ++ y) with (String c (fixed ++ y)) in H.
  rewrite includes_cons in H.
  change (String c (fixed ++ y)) with (String c fixed ++ y) in H.
  rewrite (part_ways_prefix _ _ y Hc) in H. now apply IH.
Qed.

(** An occurrence in [u ++ fixed ++ y] lies within [u] or within [y]. *)
Lemma includes_separated m fixed u y :
  separates m fixed = true ->
  Js.includes m (u ++ fixed ++ y) = true ->
  Js.includes m u = true \/ Js.includes m y = true.
Proof.
  unfold separates. intros Hs. apply andb_prop in Hs as [Hl Hr].
  induction u as [|c u IH]; intros H.
  - right. now apply (includes_skip m fixed y).
  - change (String c u ++ fixed ++ y) with (String c (u ++ fixed ++ y)) in H.
    rewrite includes_cons in H. apply orb_prop in H as [H|H].
    + change (String c (u ++ fixed ++ y)) with (String c u ++ fixed ++ y) in H.
      apply prefix_append_cases in H as [H | (m' & Hm & H)].
      * left. now apply includes_prefix.
      * destruct m' as [|d m'].
        { left. apply includes_prefix. rewrite Hm, append_nil_r.
          rewrite <- (append_nil_r (String c u)) at 2.
          apply prefix_refl_append. }
        assert (Hin : In (String d m') (suffixes (Js.drop 1 m))).
        { rewrite Hm. cbn [String.append Js.drop].
          now apply in_suffixes. }
        rewrite forallb_forall in Hr.
        now rewrite (part_ways_prefix _ _ y (Hr _ Hin)) in H.
    + destruct (IH H) as [Hu | Hy]; [left | now right].
      rewrite includes_cons, Hu. apply orb_true_r.
Qed.

End Occurrences.

(** ** Preview mode *)

Section PreviewFacts.
Import Generation Spec Examples.

Implicit Types (beat sceneContext : string) (o : Options) (console : Console).

Lemma append_nil_l s : EmptyString ++ s = s.
Proof. reflexivity. Qed.

Lemma preview_compendiumText o : preview o = true -> compendiumText o = EmptyString.
Proof. intros H. unfold compendiumText. now rewrite H. Qed.

Lemma preview_assembled beat sceneContext o :
  preview o = true ->
  assembled beat sceneContext o = prompt beat sceneContext o.
Proof.
  intros H. unfold assembled. now rewrite (preview_compendiumText o H).
Qed.

Lemma preview_template o :
  preview o = true ->
  proseTemplateText o
  = if Js.nonempty (templateBody o)
    then newline ++ newline ++ templateBody o else EmptyString.
Proof.
  intros H. unfold proseTemplateText, templateBody.
  destruct (prosePrompt o) as [p|]; [|reflexivity].
  rewrite H. reflexivity.
Qed.

Lemma tenseText_cases o :
  tenseText o = "present tense" \/ tenseText o = "past tense".
Proof.
  unfold tenseText. destruct (tense o) as [s|]; [|now right].
  destruct (string_dec s "present") as [->|Hne]; [now left | right].
  repeat (destruct s as [|[[] [] [] [] [] [] [] []] s]; try reflexivity).
  now destruct Hne.
Qed.

(** One step along the prompt: an occurrence does not start inside a
    fixed piece, and one that is not inside a caller's text lies beyond
    the fixed piece that follows it. *)
Ltac walk H :=
  repeat
    (lazymatch type of H with
     | Js.includes ?m (?x ++ ?y) = true =>
         first
           [ apply (includes_skip m x y) in H; [| reflexivity]
           | lazymatch y with
             | ?l ++ ?z =>
                 apply (includes_separated m l x z) in H; [| reflexivity];
                 destruct H as [H | H]; [congruence |]
             end ]
     end).

Lemma preview_prompt_clean m beat sceneContext o :
  In m markers ->
  preview o = true ->
  Forall (fun u => Js.includes m u = false) (carried beat sceneContext o) ->
  Js.includes m (prompt beat sceneContext o) = false.
Proof.
  intros Hm Hp Hc.
  unfold carried in Hc.
  repeat match goal with
         | H : Forall _ (_ :: _) |- _ =>
             let H1 := fresh "Hu" in
             apply Forall_cons_iff in H as [H1 H]
         end.
  destruct (Js.includes m (prompt beat sceneContext o)) eqn:H; [|reflexivity].
  exfalso.
  unfold prompt, promptHead, systemPrompt, povSentence, beatSection,
    beatMarker, contextText, contextHeader in H.
  rewrite (preview_template o Hp) in H.
  assert (Hnl : forall s, Js.nonempty s = false -> s = EmptyString)
    by (now intros [|]).
  destruct (tenseText_cases o) as [Hte | Hte]; rewrite Hte in H;
    destruct (Js.nonempty sceneContext);
    destruct (Js.nonempty (templateBody o)) eqn:Ht;
    rewrite ?append_assoc, ?append_nil_l in H;
    unfold markers in Hm; cbn [In] in Hm;
    destruct Hm as [<- | [<- | [<- | []]]];
    walk H; vm_compute in H; discriminate.
Qed.

End PreviewFacts.

Section PreviewTheorem.
Import Generation Spec Examples.

(** C6. In preview mode the assembled prompt carries no reference
    material and no template markers: the compendium entries have no
    influence on it at all, the template enters bare, between the context
    block and the beat section, and the COMPENDIUM REFERENCES heading and
    the two template marker lines occur nowhere in the prompt unless one
    of the caller's own texts (point-of-view name and style, context
    words, template, beat) contains them. *)
Theorem preview_omits_references_and_markers
  (beat sceneContext : string) (o : Options) (console : Console) :
  preview o = true ->
  (forall entries,
     fst (buildPrompt beat sceneContext (withEntries entries o) console)
     = fst (buildPrompt beat sceneContext o console))
  /\ fst (buildPrompt beat sceneContext o console)
     = "<|im_start|>system" ++ newline ++ systemPrompt o ++ "<|im_end|>"
       ++ newline ++ "<|im_start|>user" ++ newline
       ++ contextText sceneContext
       ++ (if Js.nonempty (templateBody o)
           then newline ++ newline ++ templateBody o else EmptyString)
       ++ beatSection beat
  /\ (forall m,
        In m markers ->
        Forall (fun u => Js.includes m u = false)
               (carried beat sceneContext o) ->
        Js.includes m (fst (buildPrompt beat sceneContext o console)) = false).
Proof.
  intros Hp. unfold buildPrompt; cbn [fst]. split; [|split].
  - intros entries.
    rewrite !preview_assembled by (try exact Hp; destruct o; exact Hp).
    reflexivity.
  - rewrite (preview_assembled _ _ _ Hp). unfold prompt, promptHead.
    rewrite (preview_template o Hp), !append_assoc. reflexivity.
  - intros m Hm Hc. rewrite (preview_assembled _ _ _ Hp).
    now apply preview_prompt_clean.
Qed.

Lemma preview_omits_references_and_markers_witness :
  preview previewOptions = true
  /\ Js.includes referenceHeading
       (fst (buildPrompt "She opens the door." "The hall was dark."
                         previewOptions [])) = false.
Proof.
  split; [reflexivity |].
  apply (preview_omits_references_and_markers
           "She opens the door." "The hall was dark." previewOptions []
           eq_refl).
  - left; reflexivity.
  - repeat constructor.
Defined.

End PreviewTheorem.

(** ** The context block *)

Section ContextFacts.
Import Generation Spec Examples.

Implicit Types (s : string) (c : ascii).

Lemma tokens_nonempty c s :
  Js.is_ws c = false -> tokens (String c s) <> [].
Proof.
  intros Hc. cbn [tokens]. rewrite Hc.
  destruct s as [|c' s]; [discriminate |].
  destruct (Js.is_ws c'); [discriminate |].
  destruct (tokens (String c' s)); discriminate.
Qed.

Lemma push_front_app c (l l' : list string) :
  l <> [] -> Js.push_front c (l ++ l')%list = (Js.push_front c l ++ l')%list.
Proof. destruct l; [congruence | reflexivity]. Qed.

(** The pieces [split(/\s+/)] yields are the tokens, with an empty piece
    in front when the text starts with white space and an empty piece
    behind when it is empty or ends with white space. *)
Lemma split_ws_from_tokens s in_run :
  Js.split_ws_from in_run s
  = ((if starts_with_ws s && negb in_run then [EmptyString] else [])
     ++ tokens s
     ++ (if open_end s then [EmptyString] else []))%list.
Proof.
  revert in_run; induction s as [|c s IH]; intros in_run; [reflexivity |].
  cbn [Js.split_ws_from tokens starts_with_ws].
  destruct (Js.is_ws c) eqn:Hc.
  - assert (Hoe : open_end (String c s) = open_end s).
    { destruct s as [|c' s]; [simpl; now rewrite Hc | reflexivity]. }
    rewrite Hoe, (IH true), andb_false_r.
    destruct in_run; reflexivity.
  - rewrite (IH false), andb_true_r. cbn [andb app].
    destruct s as [|c' s]; [simpl; now rewrite Hc |].
    assert (Hoe : open_end (String c (String c' s)) = open_end (String c' s))
      by reflexivity.
    rewrite Hoe. cbn [starts_with_ws].
    destruct (Js.is_ws c') eqn:Hc'; [reflexivity |].
    cbn [app]. apply push_front_app. now apply tokens_nonempty.
Qed.

Lemma split_ws_tokens s :
  s <> EmptyString -> starts_with_ws s = false -> ends_with_ws s = false ->
  words s = tokens s.
Proof.
  intros Hne Hs He. unfold words, Js.split_ws.
  rewrite split_ws_from_tokens, Hs.
  assert (Ho : open_end s = false) by (destruct s; [congruence | exact He]).
  rewrite Ho. cbn [andb app]. apply app_nil_r.
Qed.

Lemma last_n_skipn {A} k (l : list A) :
  last_n k l = List.skipn (List.length l - k) l.
Proof. unfold last_n. now rewrite firstn_rev, rev_involutive. Qed.

End ContextFacts.

Section ContextBlock.
Import Generation Spec Examples.

Implicit Types (s t m : string) (c : ascii) (n : nat).

Lemma all_chars_append P s t :
  all_chars P (s ++ t) = all_chars P s && all_chars P t.
Proof.
  induction s as [|c s IH]; [reflexivity |].
  change (String c s ++ t) with (String c (s ++ t)).
  cbn [all_chars]. now rewrite IH, andb_assoc.
Qed.

Lemma all_chars_weaken (P Q : ascii -> bool) s :
  (forall c, P c = true -> Q c = true) ->
  all_chars P s = true -> all_chars Q s = true.
Proof.
  intros HPQ. induction s as [|c s IH]; [reflexivity |].
  cbn [all_chars]. intros H. apply andb_prop in H as [Hc Hs].
  now rewrite (HPQ c Hc), IH.
Qed.

Lemma not_ws_not_lf c : not_ws c = true -> not_lf c = true.
Proof.
  unfold not_ws, not_lf. destruct (Ascii.eqb c "010") eqn:E; [|reflexivity].
  apply Ascii.eqb_eq in E; subst c. discriminate.
Qed.

Lemma split_ws_from_pieces s in_run :
  Forall (fun p => all_chars not_ws p = true) (Js.split_ws_from in_run s).
Proof.
  revert in_run; induction s as [|c s IH]; intros in_run;
    cbn [Js.split_ws_from]; [repeat constructor |].
  destruct (Js.is_ws c) eqn:Hc.
  - destruct in_run; [apply IH | constructor; [reflexivity | apply IH]].
  - specialize (IH false). unfold Js.push_front.
    destruct (Js.split_ws_from false s) as [|p ps].
    + repeat constructor. cbn [all_chars]. unfold not_ws. now rewrite Hc.
    + apply Forall_cons_iff in IH as [Hp Hps].
      constructor; [|exact Hps]. cbn [all_chars]. unfold not_ws at 1.
      now rewrite Hc, Hp.
Qed.

Lemma join_space_no_lf (l : list string) :
  Forall (fun p => all_chars not_ws p = true) l ->
  all_chars not_lf (Js.join " " l) = true.
Proof.
  unfold Js.join. induction l as [|p l IH]; intros H; [reflexivity |].
  apply Forall_cons_iff in H as [Hp Hl].
  pose proof (all_chars_weaken _ _ p not_ws_not_lf Hp) as Hp'.
  cbn [String.concat]. destruct l as [|p' l]; [exact Hp' |].
  rewrite !all_chars_append, Hp', (IH Hl). reflexivity.
Qed.

Lemma contextWords_no_lf sceneContext :
  all_chars not_lf (contextWords sceneContext) = true.
Proof.
  unfold contextWords, Js.slice_last. apply join_space_no_lf.
  apply Forall_drop, split_ws_from_pieces.
Qed.

Lemma take_append_le n s t :
  n <= String.length s -> Js.take n (s ++ t) = Js.take n s.
Proof.
  revert s; induction n as [|n IH]; intros [|c s] Hn; simpl in *;
    try reflexivity; try lia.
  f_equal. apply IH. lia.
Qed.

Lemma take_append_ge n s t :
  Js.take (String.length s + n) (s ++ t) = s ++ Js.take n t.
Proof. induction s as [|c s IH]; simpl; [reflexivity | now rewrite IH]. Qed.

Lemma drop_append_ge n s t :
  Js.drop (String.length s + n) (s ++ t) = Js.drop n t.
Proof. induction s as [|c s IH]; simpl; [reflexivity | exact IH]. Qed.

Lemma drop_in_suffixes n s :
  n < String.length s -> In (Js.drop n s) (suffixes s).
Proof.
  revert s; induction n as [|n IH]; intros [|c s] Hn; simpl in *; try lia.
  - now left.
  - right. apply IH. lia.
Qed.

Lemma indexOf_spec m s i :
  Js.indexOf m s = Some i ->
  String.prefix m (Js.drop i s) = true /\ i <= String.length s.
Proof.
  revert i; induction s as [|c s IH]; intros i; cbn [Js.indexOf].
  - destruct (String.prefix m EmptyString) eqn:E; [|discriminate].
    intros [= <-]. split; [exact E | simpl; lia].
  - destruct (String.prefix m (String c s)) eqn:E.
    + intros [= <-]. split; [exact E | simpl; lia].
    + destruct (Js.indexOf m s) as [j|]; [|discriminate].
      intros [= <-]. destruct (IH j eq_refl) as [Hp Hl].
      split; [exact Hp | simpl; lia].
Qed.

(** Splicing a text in at the first occurrence of [m] leaves a block
    whole when no occurrence of [m] can start strictly inside it. *)
Lemma splice_keeps_block m x block y ins i :
  Js.indexOf m (x ++ block ++ y) = Some i ->
  (forall s', In s' (suffixes (Js.drop 1 block)) ->
              String.prefix m (s' ++ y) = false) ->
  exists pre post,
    Js.take i (x ++ block ++ y) ++ ins ++ Js.drop i (x ++ block ++ y)
    = pre ++ block ++ post.
Proof.
  intros Hi Hin. apply indexOf_spec in Hi as [Hp Hl].
  destruct (Nat.le_gt_cases i (String.length x)) as [Hle | Hgt].
  - exists (Js.take i x ++ ins ++ Js.drop i x), y.
    rewrite take_append_le, drop_append_le by exact Hle.
    now rewrite !append_assoc.
  - destruct (Nat.le_gt_cases (String.length x + String.length block) i)
      as [Hge | Hlt].
    + set (k := i - (String.length x + String.length block)).
      exists x, (Js.take k y ++ ins ++ Js.drop k y).
      replace i with (String.length (x ++ block) + k)
        by (rewrite length_append; lia).
      rewrite <- !(append_assoc x block).
      rewrite take_append_ge, drop_append_ge.
      now rewrite !append_assoc.
    + exfalso.
      replace i with (String.length x + (i - String.length x)) in Hp by lia.
      rewrite drop_append_ge in Hp.
      rewrite drop_append_le in Hp by lia.
      rewrite Hin in Hp; [discriminate |].
      destruct (i - String.length x) as [|k] eqn:Ek; [lia |].
      destruct block as [|c block]; [simpl in Hlt; lia |].
      cbn [Js.drop]. apply drop_in_suffixes. simpl in Hlt. lia.
Qed.

Lemma suffix_head P s s' :
  all_chars P s = true -> In s' (suffixes s) ->
  exists c r, s' = String c r /\ P c = true.
Proof.
  induction s as [|c s IH]; cbn [suffixes all_chars In]; [tauto |].
  intros H [<- | Hin]; apply andb_prop in H as [Hc Hs]; [now eauto |].
  now apply IH.
Qed.

Lemma after_context o beat :
  exists y, proseTemplateText o ++ beatSection beat = newline ++ newline ++ y.
Proof.
  unfold proseTemplateText, beatSection, beatMarker.
  destruct (prosePrompt o) as [p|];
    [destruct (Js.nonempty (Js.trim p)); [destruct (preview o) |] |];
    rewrite ?append_assoc; eexists; reflexivity.
Qed.

(** The beat marker cannot start strictly inside the context block. *)
Lemma context_unbroken w y s' :
  all_chars not_lf w = true ->
  In s' (suffixes (Js.drop 1 (contextHeader ++ w))) ->
  String.prefix beatMarker (s' ++ newline ++ newline ++ y) = false.
Proof.
  intros Hw Hin.
  cbn [contextHeader newline String.append Js.drop suffixes In] in Hin.
  repeat (destruct Hin as [<- | Hin]; [reflexivity |]).
  destruct Hin as [<- | Hin].
  - destruct w as [|c w]; [reflexivity |].
    cbn [all_chars] in Hw. apply andb_prop in Hw as [Hc _].
    unfold not_lf in Hc.
    change (String.prefix (String "010" "BEAT TO EXPAND:")
              (String c (w ++ newline ++ newline ++ y)) = false).
    rewrite prefix_cons, Ascii.eqb_sym.
    now destruct (Ascii.eqb c "010").
  - destruct (suffix_head _ _ _ Hw Hin) as (c & r & -> & Hc).
    unfold not_lf in Hc.
    change (String.prefix (String "010" (String "010" "BEAT TO EXPAND:"))
              (String c (r ++ newline ++ newline ++ y)) = false).
    rewrite prefix_cons, Ascii.eqb_sym.
    now destruct (Ascii.eqb c "010").
Qed.

(** The assembled prompt carries the context block in one piece. *)
Lemma assembled_carries_context beat sceneContext o :
  exists pre post,
    assembled beat sceneContext o = pre ++ contextText sceneContext ++ post.
Proof.
  destruct (after_context o beat) as [y Hy].
  assert (Hprompt : prompt beat sceneContext o
            = ("<|im_start|>system" ++ newline ++ systemPrompt o
               ++ "<|im_end|>" ++ newline ++ "<|im_start|>user" ++ newline)
              ++ contextText sceneContext ++ newline ++ newline ++ y).
  { unfold prompt, promptHead. rewrite <- Hy, !append_assoc. reflexivity. }
  unfold assembled.
  destruct (Js.nonempty (compendiumText o)); [|rewrite Hprompt; eauto].
  destruct (Js.indexOf beatMarker (prompt beat sceneContext o)) as [i|] eqn:Hi;
    [|rewrite Hprompt; eauto].
  rewrite Hprompt in *.
  rewrite <- (append_assoc (compendiumText o) newline).
  eapply splice_keeps_block; [exact Hi |].
  intros s' Hin. unfold contextText in *.
  destruct (Js.nonempty sceneContext); [|destruct Hin].
  eapply context_unbroken; [apply contextWords_no_lf | exact Hin].
Qed.

End ContextBlock.

Section SpliceFacts.
Import Generation Spec Examples.

Implicit Types (m s t : string).

(** When [m] has no border (no proper suffix of it is a prefix of it)
    and does not occur in [s], its first occurrence in [s ++ m ++ t] is
    the one written there. *)
Lemma indexOf_first m s t :
  forallb (fun m' => part_ways m' m) (suffixes (Js.drop 1 m)) = true ->
  Js.includes m s = false ->
  Js.indexOf m (s ++ m ++ t) = Some (String.length s).
Proof.
  intros Hb. rewrite forallb_forall in Hb.
  induction s as [|c s IH]; intros Hs.
  - change (Js.indexOf m (m ++ t) = Some 0).
    apply indexOf_prefix, prefix_refl_append.
  - rewrite includes_cons in Hs. apply orb_false_elim in Hs as [Hp Hs].
    change (String c s ++ m ++ t) with (String c (s ++ m ++ t)).
    cbn [Js.indexOf String.length].
    change (String c (s ++ m ++ t)) with (String c s ++ m ++ t).
    destruct (String.prefix m (String c s ++ m ++ t)) eqn:E.
    + exfalso. apply prefix_append_cases in E as [E | (m' & Hm & E)];
        [congruence |].
      destruct m' as [|d m'].
      * rewrite append_nil_r in Hm. subst m.
        rewrite <- (append_nil_r (String c s)) in Hp at 2.
        now rewrite prefix_refl_append in Hp.
      * assert (Hin : In (String d m') (suffixes (Js.drop 1 m))).
        { rewrite Hm. cbn [String.append Js.drop]. now apply in_suffixes. }
        now rewrite (part_ways_prefix _ _ t (Hb _ Hin)) in E.
    + now rewrite (IH Hs).
Qed.

(** When nothing the caller supplied brings a beat marker of its own
    into the part of the prompt that precedes the beat section, the
    reference block stands immediately before that section. *)
Lemma references_immediately_before_beat beat sceneContext o e es :
  preview o = false ->
  compendiumEntries o = Some (e :: es) ->
  Js.includes beatMarker (promptHead sceneContext o) = false ->
  assembled beat sceneContext o
  = promptHead sceneContext o ++ compendiumText o ++ newline
    ++ beatSection beat.
Proof.
  intros Hp He Hclean.
  destruct (compendiumText_header o e es Hp He) as [block Hblock].
  destruct (prompt_marker beat sceneContext o) as (tail & Hsec & Hprompt).
  assert (Hne : Js.nonempty (compendiumText o) = true)
    by (rewrite Hblock; reflexivity).
  unfold assembled. rewrite Hne, Hsec, Hprompt.
  rewrite (indexOf_first beatMarker _ tail eq_refl Hclean).
  now rewrite take_length_append, drop_length_append.
Qed.

End SpliceFacts.

Section ContextTheorem.
Import Generation Spec Examples.

(** Where the code keeps the final tokens: for a scene context that is not
    empty, does not end with white space and either does not start with
    white space or has at least 500 tokens, the context block of the
    assembled prompt is the fixed header followed by exactly the final
    [min n 500] whitespace-delimited tokens of the context, [n] being
    their number, in their order and joined by single spaces; the block
    stands in the prompt in one piece; a context of exactly 500 tokens is
    kept whole and one of 10,000 tokens contributes its last 500 only. *)
Lemma context_keeps_final_tokens
  (beat sceneContext : string) (o : Options) (console : Console) :
  Js.nonempty sceneContext = true ->
  ends_with_ws sceneContext = false ->
  starts_with_ws sceneContext = false
  \/ 500 <= List.length (tokens sceneContext) ->
  let n := List.length (tokens sceneContext) in
  contextText sceneContext
  = contextHeader ++ Js.join " " (last_n (Nat.min n 500) (tokens sceneContext))
  /\ (exists pre post,
        fst (buildPrompt beat sceneContext o console)
        = pre ++ contextText sceneContext ++ post)
  /\ (n = 500 ->
      contextText sceneContext
      = contextHeader ++ Js.join " " (tokens sceneContext))
  /\ (n = 10000 ->
      contextText sceneContext
      = contextHeader ++ Js.join " " (List.skipn 9500 (tokens sceneContext))).
Proof.
  intros Hne He Hs n.
  assert (Ho : open_end sceneContext = false)
    by (destruct sceneContext; [discriminate | exact He]).
  assert (Hw : Js.slice_last 500 (words sceneContext)
               = List.skipn (n - 500) (tokens sceneContext)).
  { unfold words, Js.split_ws, Js.slice_last.
    rewrite split_ws_from_tokens, Ho, app_nil_r. cbn [negb].
    rewrite andb_true_r. fold n.
    destruct (starts_with_ws sceneContext); [| reflexivity].
    destruct Hs as [Hs | Hs]; [discriminate |]. fold n in Hs.
    cbn [app List.length].
    replace (S (List.length (tokens sceneContext)) - 500) with (S (n - 500))
      by (subst n; lia).
    reflexivity. }
  assert (Hc : contextText sceneContext
               = contextHeader
                 ++ Js.join " " (List.skipn (n - 500) (tokens sceneContext))).
  { unfold contextText, contextWords. now rewrite Hne, Hw. }
  split; [|split; [|split]].
  - rewrite Hc, last_n_skipn. do 3 f_equal. subst n. lia.
  - apply assembled_carries_context.
  - intros Hn. rewrite Hc, Hn. reflexivity.
  - intros Hn. rewrite Hc, Hn. reflexivity.
Qed.

(** So a context of 501 tokens behind a space loses its first token and
    nothing else. *)
Example leading_space_with_501_tokens :
  contextText leadingContext
  = contextHeader ++ Js.join " " (List.skipn 1 (tokens leadingContext)).
Proof.
  assert (Hn : List.length (tokens leadingContext) = 501)
    by (vm_compute; reflexivity).
  destruct (context_keeps_final_tokens "She opens the door." leadingContext
              no_options [] eq_refl eq_refl) as [H _].
  { right. rewrite Hn. lia. }
  rewrite H, last_n_skipn, Hn. reflexivity.
Qed.

(** C2.  The code misses what the claim says on a context that ends
    with white space.  The context of exactly 500 tokens that ends with
    a line feed is not kept whole: [split] leaves an empty piece behind
    the line feed, [slice(-500)] counts it, and the context block is the
    last 499 tokens followed by a space.  The block is not made of the
    final [min 500 500] tokens, and the first token is absent from the
    assembled prompt. *)
Theorem context_of_500_tokens_not_kept_whole :
  Js.nonempty trailingContext = true
  /\ List.length (tokens trailingContext) = 500
  /\ List.hd_error (tokens trailingContext) = Some "FIRST"
  /\ contextText trailingContext
     = contextHeader
       ++ Js.join " " (List.skipn 1 (tokens trailingContext)) ++ " "
  /\ contextText trailingContext
     <> contextHeader
        ++ Js.join " " (last_n (Nat.min 500 500) (tokens trailingContext))
  /\ Js.includes "FIRST"
       (fst (buildPrompt "She opens the door." trailingContext no_options []))
     = false.
Proof.
  split; [reflexivity |]. split; [vm_compute; reflexivity |].
  split; [vm_compute; reflexivity |].
  split; [vm_compute; reflexivity |].
  split; [|vm_compute; reflexivity].
  apply String.eqb_neq. vm_compute. reflexivity.
Qed.

(** The same on a small scale: the pieces of ["a b "] are ["a"], ["b"]
    and an empty one, so the block ends with a space. *)
Example context_trailing_space :
  tokens "a b " = ["a"; "b"] /\ contextWords "a b " = "a b ".
Proof. split; reflexivity. Qed.

End ContextTheorem.

(** ** The stream decoder *)

Section DecoderFacts.
Import Generation Spec Examples.

Variable JSON_parse : string -> option Json.value.

Local Abbreviation LF := "010"%char.
Local Abbreviation forLines := (forLines JSON_parse).
Local Abbreviation readLoop := (readLoop JSON_parse).
Local Abbreviation runText := (runText JSON_parse).

Lemma split_char_nonempty sep s : Js.split_char sep s <> [].
Proof.
  destruct s as [|c s]; cbn [Js.split_char]; [discriminate |].
  destruct (Ascii.eqb c sep); [discriminate |].
  unfold Js.push_front. destruct (Js.split_char sep s); discriminate.
Qed.

(** Splitting a text that goes on: the last piece of the first part is
    continued by what follows. *)
Lemma split_char_append sep s r :
  Js.split_char sep (s ++ r)
  = (List.removelast (Js.split_char sep s)
     ++ Js.split_char sep (List.last (Js.split_char sep s) EmptyString ++ r))%list.
Proof.
  induction s as [|c s IH]; [reflexivity |].
  change (String c s ++ r) with (String c (s ++ r)).
  cbn [Js.split_char]. rewrite IH.
  pose proof (split_char_nonempty sep s) as Hne.
  destruct (Js.split_char sep s) as [|p ps] eqn:E; [congruence |].
  destruct (Ascii.eqb c sep) eqn:Hc.
  - destruct ps; reflexivity.
  - cbn [Js.push_front]. destruct ps as [|p' ps].
    + cbn [List.removelast List.last app].
      change (String c p ++ r) with (String c (p ++ r)).
      cbn [Js.split_char]. now rewrite Hc.
    + reflexivity.
Qed.

Lemma split_char_last_whole sep s :
  Js.split_char sep (List.last (Js.split_char sep s) EmptyString)
  = [List.last (Js.split_char sep s) EmptyString].
Proof.
  pose proof (split_char_append sep s EmptyString) as H.
  rewrite !append_nil_r in H.
  rewrite (app_removelast_last EmptyString (split_char_nonempty sep s)) in H at 1.
  now apply app_inv_head in H.
Qed.

Lemma forLines_app l1 l2 :
  forLines (l1 ++ l2)
  = let '(t1, s1) := forLines l1 in
    if s1 then (t1, true)
    else let '(t2, s2) := forLines l2 in ((t1 ++ t2)%list, s2).
Proof.
  induction l1 as [|l l1 IH]; cbn [app Generation.forLines].
  - now destruct (forLines l2).
  - destruct (if Js.startsWith "data: " l then frame JSON_parse l else ([], false))
      as [t s].
    destruct s; [reflexivity |]. rewrite IH.
    destruct (forLines l1) as [t1 [|]]; [reflexivity |].
    destruct (forLines l2) as [t2 s2]. now rewrite app_assoc.
Qed.

(** Frames split across chunks are put together again: the decoder's
    result depends on the text of the chunks only. *)
Lemma readLoop_text buffer chunks :
  Js.split_char LF buffer = [buffer] ->
  readLoop buffer chunks = runText (buffer ++ textOf chunks).
Proof.
  revert buffer; induction chunks as [|value rest IH]; intros buffer Hb.
  - cbn [Generation.readLoop textOf fold_right]. rewrite append_nil_r.
    unfold Spec.runText, completeLines. now rewrite Hb.
  - cbn [Generation.readLoop textOf fold_right]. fold (textOf rest).
    rewrite <- append_assoc.
    unfold Spec.runText at 1, completeLines.
    rewrite (split_char_append LF (buffer ++ value) (textOf rest)).
    rewrite removelast_app by apply split_char_nonempty.
    rewrite forLines_app.
    destruct (forLines (List.removelast (Js.split_char LF (buffer ++ value))))
      as [t1 [|]]; [reflexivity |].
    rewrite (IH _ (split_char_last_whole LF (buffer ++ value))).
    unfold Spec.runText, completeLines.
    now destruct (forLines _) as [t2 s2].
Qed.

Lemma readLoop_runText chunks :
  readLoop EmptyString chunks = runText (textOf chunks).
Proof. now rewrite readLoop_text. Qed.

Lemma textOf_app c1 c2 : textOf (c1 ++ c2) = textOf c1 ++ textOf c2.
Proof.
  induction c1 as [|c c1 IH]; cbn [app textOf fold_right]; [reflexivity |].
  fold (textOf (c1 ++ c2)); fold (textOf c1). now rewrite IH, append_assoc.
Qed.

Lemma split_char_line l r :
  all_chars not_lf l = true ->
  Js.split_char LF (l ++ newline ++ r) = l :: Js.split_char LF r.
Proof.
  induction l as [|c l IH]; intros H; [reflexivity |].
  cbn [all_chars] in H. apply andb_prop in H as [Hc Hl].
  change (String c l ++ newline ++ r) with (String c (l ++ newline ++ r)).
  cbn [Js.split_char]. unfold not_lf in Hc.
  destruct (Ascii.eqb c LF); [discriminate |]. now rewrite (IH Hl).
Qed.

Lemma completeLines_unlines ls r :
  Forall (fun l => all_chars not_lf l = true) ls ->
  completeLines (unlines ls ++ r) = (ls ++ completeLines r)%list.
Proof.
  unfold completeLines. intros H.
  assert (Hs : Js.split_char LF (unlines ls ++ r)
               = (ls ++ Js.split_char LF r)%list).
  { induction H as [|l ls Hl _ IH]; [reflexivity |].
    cbn [unlines app]. rewrite !append_assoc, (split_char_line _ _ Hl).
    now rewrite IH. }
  rewrite Hs. apply removelast_app, split_char_nonempty.
Qed.


Lemma forLines_stop before line payload data stop :
  line = "data: " ++ payload ->
  JSON_parse payload = Some data ->
  Json.member "stop" data = Some stop ->
  Json.truthy stop = true ->
  snd (forLines (before ++ [line])) = true.
Proof.
  intros -> Hparse Hstop Htruthy. rewrite forLines_app.
  destruct (forLines before) as [t1 [|]]; [reflexivity |].
  cbn [Generation.forLines]. unfold Js.startsWith.
  rewrite prefix_refl_append. unfold frame.
  change (Js.drop 6 ("data: " ++ payload)) with payload.
  rewrite Hparse, Hstop, Htruthy.
  destruct (Json.member "content" data) as [content|] eqn:Hc;
    [reflexivity |].
  destruct data; discriminate.
Qed.

(** C3. Once a well-formed frame that carries a stop indicator has been
    decoded, consumption is over: whatever the chunk boundaries, the
    tokens delivered are those of the lines up to and including that
    frame, the loop ends by returning, and neither the bytes that follow
    the frame nor any later chunk change anything. *)
Theorem stop_ends_consumption
  (chunks before : list string) (line payload rest : string)
  (data : Json.value) (stop : option Json.value) :
  textOf chunks = unlines before ++ line ++ newline ++ rest ->
  Forall (fun l => all_chars not_lf l = true) before ->
  all_chars not_lf line = true ->
  line = "data: " ++ payload ->
  JSON_parse payload = Some data ->
  Json.member "stop" data = Some stop ->
  Json.truthy stop = true ->
  readLoop EmptyString chunks = (fst (forLines (before ++ [line])), Returned)
  /\ forall later, readLoop EmptyString (chunks ++ later)
                   = readLoop EmptyString chunks.
Proof.
  intros Htext Hbefore Hline Hframe Hparse Hstop Htruthy.
  assert (Hrun : forall r,
            runText (unlines before ++ line ++ newline ++ r)
            = (fst (forLines (before ++ [line])), Returned)).
  { intros r. unfold Spec.runText.
    replace (unlines before ++ line ++ newline ++ r)
      with (unlines (before ++ [line]) ++ r).
    - rewrite completeLines_unlines, forLines_app.
      + pose proof (forLines_stop before line payload data stop
                      Hframe Hparse Hstop Htruthy) as Hs.
        destruct (forLines (before ++ [line])) as [t s].
        cbn [snd] in Hs. now rewrite Hs.
      + apply Forall_app; split; [exact Hbefore | now constructor].
    - clear. induction before as [|l ls IH]; cbn [app unlines].
      + rewrite !append_assoc. reflexivity.
      + rewrite !append_assoc, IH. reflexivity. }
  split.
  - now rewrite readLoop_runText, Htext.
  - intros later. rewrite !readLoop_runText, textOf_app, Htext.
    rewrite !append_assoc. now rewrite !Hrun.
Qed.

(** C5. A malformed frame, a line that starts with the data prefix and
    whose remainder [JSON.parse] rejects, delivers nothing, raises
    nothing and stops nothing: whatever the chunk boundaries, the decoder
    gives the result it gives on the same stream without that line, and
    [streamGeneration] completes normally on it. *)
Theorem malformed_frame_ignored
  (chunks chunks' before : list string) (line rest : string) :
  textOf chunks = unlines before ++ line ++ newline ++ rest ->
  textOf chunks' = unlines before ++ rest ->
  Forall (fun l => all_chars not_lf l = true) before ->
  all_chars not_lf line = true ->
  Js.startsWith "data: " line = true ->
  JSON_parse (Js.drop 6 line) = None ->
  forLines [line] = ([], false)
  /\ readLoop EmptyString chunks = readLoop EmptyString chunks'
  /\ streamGeneration JSON_parse {| ok := true; status := 200; body := chunks |}
     = inr (readLoop EmptyString chunks').
Proof.
  intros Htext Htext' Hbefore Hline Hstart Hparse.
  assert (Hone : forLines [line] = ([], false)).
  { cbn [Generation.forLines]. rewrite Hstart. unfold frame.
    now rewrite Hparse. }
  assert (Heq : readLoop EmptyString chunks = readLoop EmptyString chunks').
  { rewrite !readLoop_runText, Htext, Htext'. unfold Spec.runText.
    replace (unlines before ++ line ++ newline ++ rest)
      with (unlines before ++ unlines [line] ++ rest).
    - rewrite !completeLines_unlines by (try exact Hbefore; now constructor).
      rewrite (forLines_app before), (forLines_app [line]), Hone.
      rewrite (forLines_app before).
      destruct (forLines before) as [t1 [|]]; [reflexivity |].
      now destruct (forLines (completeLines rest)).
    - cbn [unlines]. now rewrite append_nil_r, !append_assoc. }
  split; [exact Hone |]. split; [exact Heq |].
  unfold streamGeneration. cbn [ok body]. now rewrite Heq.
Qed.

End DecoderFacts.

(** ** The connection test *)

Section WorldFacts.
Import Browser.

Lemma probes_emit e w :
  probes (emit e w)
  = probes w + match e with Fetch _ => 1 | _ => 0 end.
Proof.
  unfold probes, emit; cbn [trace].
  rewrite List.filter_app, List.length_app. now destruct e.
Qed.

Lemma alerts_emit e w :
  alerts (emit e w)
  = (alerts w ++ match e with Alert m => [m] | _ => [] end)%list.
Proof.
  unfold alerts, emit; cbn [trace].
  rewrite List.flat_map_app. destruct e; cbn; now rewrite ?app_nil_r.
Qed.


End WorldFacts.

Section RetryFacts.
Import Browser AISettings000.

Variable t : string -> string.
Variable progressOf : nat -> nat -> nat.
Variable health : nat -> Probe.

Local Abbreviation probeLoop := (probeLoop t progressOf health).
Local Abbreviation testLocal := (testLocal t progressOf health).
Local Abbreviation testConnection := (testConnection t progressOf health).
Local Abbreviation saveAISettings := (saveAISettings t progressOf health).

(** Whatever the endpoint answers, the loop sends at most [remaining]
    requests and leaves [localStorage] alone. *)
Lemma probeLoop_bounded budget delay endpoint remaining attempt app w :
  let '(_, _, _, w') :=
    probeLoop budget delay endpoint remaining attempt app w in
  probes w' <= probes w + remaining /\ localStorage w' = localStorage w.
Proof.
  revert attempt app w; induction remaining as [|r IH]; intros attempt app w;
    cbn [AISettings000.probeLoop]; [split; [lia | reflexivity] |].
  destruct (health (S attempt)).
  - split; [|reflexivity]. rewrite !probes_emit. lia.
  - match goal with
    | |- context [probeLoop _ _ _ r ?a ?app' ?w'] =>
        specialize (IH a app' w');
        destruct (probeLoop budget delay endpoint r a app' w')
          as [[[? ?] ?] w'']
    end.
    rewrite probes_emit in IH. cbn [localStorage emit] in *.
    destruct IH as [IH1 IH2]. split; [lia | exact IH2].
  - match goal with
    | |- context [probeLoop _ _ _ r ?a ?app' ?w'] =>
        specialize (IH a app' w');
        destruct (probeLoop budget delay endpoint r a app' w')
          as [[[? ?] ?] w'']
    end.
    destruct IH as [IH1 IH2].
    destruct (S attempt <? budget); rewrite ?probes_emit in IH1;
      cbn [localStorage emit] in *; (split; [lia | exact IH2]).
Qed.




Lemma probes_setItem k v w : probes (setItem k v w) = probes w.
Proof. reflexivity. Qed.

Lemma alerts_setItem k v w : alerts (setItem k v w) = alerts w.
Proof. reflexivity. Qed.



(** The settings are in the storage after the cycle, whatever comes of
    the test. *)
Lemma saveAISettings_stores (app : App) (w : World) :
  localStorage (snd (saveAISettings app w))
  = <[storageKey := settings app]> (localStorage w).
Proof.
  unfold AISettings000.saveAISettings, AISettings000.testConnection.
  cbn [withView config].
  destruct (String.eqb (aiMode (config app)) "local").
  - unfold AISettings000.testLocal. cbn [withView config].
    match goal with
    | |- context [probeLoop ?b ?d ?e ?r ?a ?app' ?w'] =>
        pose proof (probeLoop_bounded b d e r a app' w') as Hb;
        destruct (probeLoop b d e r a app' w') as [[[attempt connected] app1] w1]
    end.
    destruct Hb as [_ Hb]. destruct connected; cbn [snd]; exact Hb.
  - unfold AISettings000.testApi. cbn [config withView].
    destruct (Js.nonempty (aiApiKey (config app))); [|reflexivity].
    destruct (Js.nonempty (aiModel (config app))); reflexivity.
Qed.

End RetryFacts.

Section SingleProbeFacts.
Import Browser AISettings.

Variable health : nat -> Probe.

(** The version without the loop sends one request and stores the
    settings first all the same. *)
Lemma single_probe app w :
  aiMode (config app) = "local" ->
  probes (snd (saveAISettings health app w)) = probes w + 1
  /\ (health 1 = Healthy ->
      aiStatus (view (fst (saveAISettings health app w))) = "ready")
  /\ (health 1 <> Healthy ->
      aiStatus (view (fst (saveAISettings health app w))) = "error").
Proof.
  intros Hmode. unfold saveAISettings, testConnection.
  cbn [withView config]. rewrite Hmode. cbn [String.eqb Ascii.eqb Bool.eqb].
  destruct (health 1); cbn [fst snd]; unfold failed; cbn [fst snd];
    rewrite !probes_emit, probes_setItem;
    (split; [lia |]); split; intros H; try reflexivity; congruence.
Qed.

Lemma single_probe_stores app w :
  localStorage (snd (saveAISettings health app w))
  = <[storageKey := settings app]> (localStorage w).
Proof.
  unfold saveAISettings, testConnection. cbn [withView config].
  destruct (String.eqb (aiMode (config app)) "local").
  - destruct (health 1); reflexivity.
  - destruct (Js.nonempty (aiApiKey (config app))); [|reflexivity].
    destruct (Js.nonempty (aiModel (config app))); reflexivity.
Qed.

End SingleProbeFacts.

Section StorageTheorem.
Import Browser Examples.

(** C10, as amended.  The resolved configuration is written to the
    settings storage in every test cycle, whatever the outcome of the
    connection test: after a cycle that ends in the error status just as
    after one that ends in the ready status, the storage is the one from
    before the cycle with the cycle's configuration under the settings
    key.  This holds for both versions of the module. *)
Theorem settings_stored_whatever_outcome :
  (forall t progressOf health app w,
     localStorage (snd (AISettings000.saveAISettings t progressOf health app w))
     = <[storageKey := AISettings000.settings app]> (localStorage w))
  /\ (forall health app w,
        localStorage (snd (AISettings.saveAISettings health app w))
        = <[storageKey := AISettings.settings app]> (localStorage w)).
Proof.
  split; [apply saveAISettings_stores | apply single_probe_stores].
Qed.

(** C10 as stated fails: with no server listening, the cycle ends in the
    error status and yet the storage, empty before, now holds the
    settings of the cycle. *)
Lemma settings_stored_despite_error_counterexample :
  let result :=
    AISettings000.saveAISettings keyText progressSketch unreachable
                                 firstApp freshWorld in
  aiStatus (view (fst result)) = "error"
  /\ localStorage freshWorld !! storageKey = None
  /\ localStorage (snd result) !! storageKey
     = Some (AISettings000.settings firstApp)
  /\ localStorage (snd result) <> localStorage freshWorld.
Proof.
  cbv zeta.
  assert (Hstored :
            localStorage (snd (AISettings000.saveAISettings keyText
                                 progressSketch unreachable firstApp freshWorld))
            !! storageKey = Some (AISettings000.settings firstApp)).
  { rewrite saveAISettings_stores. apply lookup_insert_eq. }
  assert (Hnone : localStorage freshWorld !! storageKey = None)
    by apply lookup_empty.
  split; [vm_compute; reflexivity |].
  split; [exact Hnone |].
  split; [exact Hstored |].
  intros Heq. rewrite Heq in Hstored. congruence.
Qed.


(** The example of the specification: a budget of five attempts and an
    endpoint that answers the third time. *)
Example third_of_five :
  let '(thrown, app, w) :=
    AISettings000.testLocal keyText progressSketch (healthyAt 3) 5 3000
                            firstApp freshWorld in
  thrown = None /\ aiStatus (view app) = "ready" /\ probes w = 3.
Proof. vm_compute. repeat split. Qed.

Example none_of_five :
  let '(thrown, app, w) :=
    AISettings000.testLocal keyText progressSketch unreachable 5 3000
                            firstApp freshWorld in
  thrown = Some "ai.couldNotConnectPrefix15ai.couldNotConnectSuffix"
  /\ probes w = 5.
Proof. vm_compute. repeat split. Qed.

(** Answers that are responses without [ok] throw nothing: the next
    probe follows without the delay, which only a rejection brings. *)
Example unhealthy_answers_follow_at_once :
  let '(_, _, w) :=
    AISettings000.testLocal keyText progressSketch (fun _ => Unhealthy) 3 3000
                            firstApp freshWorld in
  trace w = [Fetch "http://localhost:8080/health";
             Fetch "http://localhost:8080/health";
             Fetch "http://localhost:8080/health"].
Proof. vm_compute. reflexivity. Qed.

Example rejections_are_spaced :
  let '(_, _, w) :=
    AISettings000.testLocal keyText progressSketch unreachable 3 3000
                            firstApp freshWorld in
  trace w = [Fetch "http://localhost:8080/health"; Wait 3000;
             Fetch "http://localhost:8080/health"; Wait 3000;
             Fetch "http://localhost:8080/health"].
Proof. vm_compute. reflexivity. Qed.

Example elapsed_at_budget :
  Js.of_nat (AISettings000.elapsedOf AISettings000.retryDelay
                                     AISettings000.maxRetries) = "180".
Proof. vm_compute. reflexivity. Qed.

End StorageTheorem.

Section DecoderExamples.
Import Generation Spec Examples.

(** C4. A frame split across two chunks is put together before it is
    parsed: on the chunks [data: {"content":"He] and [llo"}] followed by
    a line feed, the callback is invoked exactly once, with the text
    Hello, and the call completes normally. *)
Theorem split_frame_reassembled :
  readLoop Json.parse EmptyString helloChunks = ([Json.Str "Hello"], Done)
  /\ streamGeneration Json.parse
       {| ok := true; status := 200; body := helloChunks |}
     = inr ([Json.Str "Hello"], Done)
  /\ readLoop Json.parse EmptyString [textOf helloChunks]
     = readLoop Json.parse EmptyString helloChunks.
Proof. repeat split; vm_compute; reflexivity. Qed.

Lemma stop_ends_consumption_witness :
  textOf stopChunks
  = unlines [dq "data: {'content':'Hi'}"] ++ dq "data: {'stop':true}"
    ++ newline ++ dq "data: {'content':'late'}" ++ newline
    ++ dq "data: {'content':'later'}" ++ newline
  /\ Json.parse (dq "{'stop':true}") = Some (Json.Obj [("stop", Json.Bool true)])
  /\ readLoop Json.parse EmptyString stopChunks = ([Json.Str "Hi"], Returned).
Proof.
  split; [reflexivity |]. split; [reflexivity |].
  refine (proj1 (stop_ends_consumption Json.parse stopChunks
                   [dq "data: {'content':'Hi'}"] (dq "data: {'stop':true}")
                   (dq "{'stop':true}")
                   (dq "data: {'content':'late'}" ++ newline
                    ++ dq "data: {'content':'later'}" ++ newline)
                   (Json.Obj [("stop", Json.Bool true)])
                   (Some (Json.Bool true))
                   eq_refl _ eq_refl eq_refl eq_refl eq_refl eq_refl)).
  repeat constructor.
Defined.

Lemma malformed_frame_ignored_witness :
  Js.startsWith "data: " "data: {not json}" = true
  /\ Json.parse (Js.drop 6 "data: {not json}") = None
  /\ forLines Json.parse ["data: {not json}"] = ([], false)
  /\ readLoop Json.parse EmptyString malformedChunks
     = readLoop Json.parse EmptyString [dq "data: {'content':'x'}" ++ newline].
Proof.
  split; [reflexivity |]. split; [reflexivity |].
  pose proof (malformed_frame_ignored Json.parse malformedChunks
                [dq "data: {'content':'x'}" ++ newline] []
                "data: {not json}" (dq "data: {'content':'x'}" ++ newline)
                eq_refl eq_refl (List.Forall_nil _) eq_refl eq_refl eq_refl) as H.
  exact (conj (proj1 H) (proj1 (proj2 H))).
Defined.

Example malformed_then_good :
  readLoop Json.parse EmptyString malformedChunks = ([Json.Str "x"], Done).
Proof. vm_compute. reflexivity. Qed.

End DecoderExamples.

Section PromptExamples.
Import Generation Spec Examples.

Lemma references_precede_beat_witness :
  preview referenceOptions = false
  /\ exists before between block,
       compendiumText referenceOptions = compendiumHeader ++ block
       /\ fst (buildPrompt "She opens the door." "The hall was dark."
                           referenceOptions [])
          = before ++ compendiumText referenceOptions ++ newline
            ++ between ++ beatSection "She opens the door.".
Proof.
  split; [reflexivity |].
  exact (references_precede_beat "She opens the door." "The hall was dark."
           referenceOptions [] _ _ eq_refl eq_refl).
Defined.

(** The end-to-end scenario of the specification. *)
Example door_scenario :
  Js.includes ("BEAT TO EXPAND:" ++ newline ++ "She opens the door.")
    (fst (buildPrompt "She opens the door." EmptyString no_options [])) = true
  /\ Js.includes referenceHeading
       (fst (buildPrompt "She opens the door." EmptyString no_options []))
     = false.
Proof. split; vm_compute; reflexivity. Qed.

End PromptExamples.

(** ** More on the stream decoder *)

Section DecoderMore.
Import Generation Spec Examples Notions.

Variable JSON_parse : string -> option Json.value.

Local Abbreviation forLines := (forLines JSON_parse).
Local Abbreviation readLoop := (readLoop JSON_parse).

(** X1. The decoder's result depends on the text of the chunks only, not
    on where the chunk boundaries fall. *)
Theorem decoding_ignores_chunk_boundaries (chunks chunks' : list string) :
  textOf chunks = textOf chunks' ->
  readLoop EmptyString chunks = readLoop EmptyString chunks'.
Proof. intros H. now rewrite !readLoop_runText, H. Qed.

(** A line on which the loop body delivers nothing and does not return
    can be taken out of the stream. *)
Lemma silent_line_removed (chunks chunks' before : list string)
  (line rest : string) :
  textOf chunks = unlines before ++ line ++ newline ++ rest ->
  textOf chunks' = unlines before ++ rest ->
  Forall (fun l => all_chars not_lf l = true) before ->
  all_chars not_lf line = true ->
  forLines [line] = ([], false) ->
  readLoop EmptyString chunks = readLoop EmptyString chunks'.
Proof.
  intros Htext Htext' Hbefore Hline Hone.
  rewrite !readLoop_runText, Htext, Htext'. unfold runText.
  replace (unlines before ++ line ++ newline ++ rest)
    with (unlines before ++ unlines [line] ++ rest)
    by (cbn [unlines]; now rewrite append_nil_r, !append_assoc).
  rewrite !completeLines_unlines by (try exact Hbefore; now constructor).
  rewrite (forLines_app JSON_parse before),
    (forLines_app JSON_parse [line]), Hone.
  rewrite (forLines_app JSON_parse before).
  destruct (forLines before) as [t1 [|]]; [reflexivity |].
  now destruct (forLines (completeLines rest)).
Qed.

(** X2. A line that does not start with the data prefix (a blank line, a
    comment, an event name) is ignored: the stream decodes as it does
    without that line. *)
Theorem unprefixed_line_ignored (chunks chunks' before : list string)
  (line rest : string) :
  textOf chunks = unlines before ++ line ++ newline ++ rest ->
  textOf chunks' = unlines before ++ rest ->
  Forall (fun l => all_chars not_lf l = true) before ->
  all_chars not_lf line = true ->
  Js.startsWith "data: " line = false ->
  readLoop EmptyString chunks = readLoop EmptyString chunks'.
Proof.
  intros Htext Htext' Hbefore Hline Hstart.
  apply (silent_line_removed chunks chunks' before line rest); try assumption.
  cbn [Generation.forLines]. now rewrite Hstart.
Qed.

(** X3. A data frame whose payload is valid JSON but not an object
    ([null], a number, a string, a boolean, an array) delivers nothing
    and stops nothing; for [null] the property read throws and the
    [catch] swallows it. *)
Theorem non_object_payload_ignored (chunks chunks' before : list string)
  (line rest : string) (data : Json.value) :
  textOf chunks = unlines before ++ line ++ newline ++ rest ->
  textOf chunks' = unlines before ++ rest ->
  Forall (fun l => all_chars not_lf l = true) before ->
  all_chars not_lf line = true ->
  JSON_parse (Js.drop 6 line) = Some data ->
  not_object data = true ->
  readLoop EmptyString chunks = readLoop EmptyString chunks'.
Proof.
  intros Htext Htext' Hbefore Hline Hparse Hdata.
  apply (silent_line_removed chunks chunks' before line rest); try assumption.
  cbn [Generation.forLines]. unfold frame. rewrite Hparse.
  destruct (Js.startsWith "data: " line); [|reflexivity].
  destruct data; try discriminate; reflexivity.
Qed.

Lemma split_char_whole s :
  all_chars not_lf s = true -> Js.split_char "010" s = [s].
Proof.
  induction s as [|c s IH]; intros H; [reflexivity |].
  cbn [all_chars] in H. apply andb_prop in H as [Hc Hs].
  cbn [Js.split_char]. unfold not_lf in Hc.
  destruct (Ascii.eqb c "010"); [discriminate |]. now rewrite (IH Hs).
Qed.

(** X4. What follows the last line feed when the stream ends is never
    parsed: a final frame that lacks its line feed is dropped, whatever
    it holds. *)
Theorem unterminated_tail_dropped (chunks lines : list string) (tail : string) :
  textOf chunks = unlines lines ++ tail ->
  Forall (fun l => all_chars not_lf l = true) lines ->
  all_chars not_lf tail = true ->
  readLoop EmptyString chunks = readLoop EmptyString [unlines lines].
Proof.
  intros Htext Hlines Htail.
  rewrite !readLoop_runText, Htext. cbn [textOf fold_right].
  rewrite append_nil_r. unfold runText.
  rewrite <- (append_nil_r (unlines lines)) at 2.
  rewrite !completeLines_unlines by exact Hlines.
  unfold completeLines. now rewrite (split_char_whole tail Htail).
Qed.

Lemma frame_tokens_truthy line :
  Forall (fun v => Json.truthy (Some v) = true) (fst (frame JSON_parse line)).
Proof.
  unfold frame. destruct (JSON_parse (Js.drop 6 line)) as [data|]; [|constructor].
  destruct (Json.member "content" data) as [content|]; [|constructor].
  destruct (Json.member "stop" data) as [stop|]; [|constructor].
  cbn [fst]. destruct (Json.truthy content) eqn:E; [|constructor].
  destruct content as [v|]; [|constructor]. now repeat constructor.
Qed.

Lemma forLines_tokens_truthy lines :
  Forall (fun v => Json.truthy (Some v) = true) (fst (forLines lines)).
Proof.
  induction lines as [|l lines IH]; cbn [Generation.forLines]; [constructor |].
  pose proof (frame_tokens_truthy l) as Hf.
  destruct (Js.startsWith "data: " l).
  - destruct (frame JSON_parse l) as [t [|]]; [exact Hf |].
    destruct (forLines lines) as [t' s']. cbn [fst] in *.
    apply Forall_app; now split.
  - destruct (forLines lines) as [t' s']. exact IH.
Qed.

(** X5. The callback never receives a falsy value: every token delivered
    is truthy, so never an empty string, a zero, [false] or [null]. *)
Theorem delivered_tokens_truthy (buffer : string) (chunks : list string) :
  Forall (fun v => Json.truthy (Some v) = true)
         (fst (readLoop buffer chunks)).
Proof.
  revert buffer; induction chunks as [|value rest IH]; intros buffer;
    cbn [Generation.readLoop]; [constructor |].
  match goal with
  | |- context [Generation.forLines _ ?ls] =>
      pose proof (forLines_tokens_truthy ls) as Hl;
      destruct (Generation.forLines JSON_parse ls) as [t [|]]
  end; [exact Hl |].
  match goal with
  | |- context [Generation.readLoop _ ?b rest] =>
      specialize (IH b); destruct (Generation.readLoop JSON_parse b rest) as [t' e]
  end.
  cbn [fst] in *. apply Forall_app; now split.
Qed.

End DecoderMore.

(** ** More on [buildPrompt] *)

Section PromptMore.
Import Generation Spec Examples Notions.

Implicit Types (beat sceneContext s : string) (o : Options) (console : Console).

(** X6. Whatever the options, the assembled prompt ends with the beat
    section: the beat marker, the beat as given, the directive and the
    open assistant turn.  The splice of the reference block never cuts
    into it. *)
Theorem prompt_ends_with_beat_section beat sceneContext o console :
  exists before,
    fst (buildPrompt beat sceneContext o console)
    = before ++ beatSection beat.
Proof.
  unfold buildPrompt, assembled; cbn [fst].
  destruct (prompt_marker beat sceneContext o) as (tail & Hsec & Hprompt).
  destruct (Js.nonempty (compendiumText o));
    [|exists (promptHead sceneContext o); reflexivity].
  destruct (indexOf_append beatMarker (promptHead sceneContext o) tail)
    as (i & Hi & Hle).
  rewrite Hprompt, Hi, Hsec.
  exists (Js.take i (promptHead sceneContext o ++ beatMarker ++ tail)
          ++ compendiumText o ++ newline
          ++ Js.drop i (promptHead sceneContext o)).
  rewrite (drop_append_le i _ _ Hle), !append_assoc. reflexivity.
Qed.

Lemma trimStart_all_ws s : all_chars Js.is_ws s = true -> Js.trimStart s = EmptyString.
Proof.
  induction s as [|c s IH]; [reflexivity |]. cbn [all_chars Js.trimStart].
  intros H. apply andb_prop in H as [Hc Hs]. now rewrite Hc, IH.
Qed.

Lemma compendiumText_withPrompt template o :
  compendiumText (withPrompt template o) = compendiumText o.
Proof. reflexivity. Qed.

(** X7. A template that consists of white space only is treated as
    absent: the prompt is the one assembled without any template. *)
Theorem blank_template_is_absent beat sceneContext o console (template : string) :
  all_chars Js.is_ws template = true ->
  fst (buildPrompt beat sceneContext (withPrompt (Some template) o) console)
  = fst (buildPrompt beat sceneContext (withPrompt None o) console).
Proof.
  intros H. unfold buildPrompt, assembled, prompt, promptHead; cbn [fst].
  rewrite !compendiumText_withPrompt.
  assert (Ht : proseTemplateText (withPrompt (Some template) o)
               = proseTemplateText (withPrompt None o)).
  { unfold proseTemplateText, withPrompt; cbn [prosePrompt preview].
    unfold Js.trim. now rewrite (trimStart_all_ws _ H). }
  rewrite Ht. reflexivity.
Qed.

Lemma blank_template_is_absent_witness :
  all_chars Js.is_ws ("  " ++ newline ++ " ") = true
  /\ fst (buildPrompt "She opens the door." "The hall was dark."
            (withPrompt (Some ("  " ++ newline ++ " ")) referenceOptions) [])
     = fst (buildPrompt "She opens the door." "The hall was dark."
              (withPrompt None referenceOptions) []).
Proof.
  split; [reflexivity |].
  exact (blank_template_is_absent "She opens the door." "The hall was dark."
           referenceOptions [] ("  " ++ newline ++ " ") eq_refl).
Defined.

Lemma trimStart_no_leading s : starts_with_ws (Js.trimStart s) = false.
Proof.
  induction s as [|c s IH]; [reflexivity |]. cbn [Js.trimStart].
  destruct (Js.is_ws c) eqn:Hc; [exact IH | cbn; exact Hc].
Qed.

Lemma trimEnd_no_trailing s : ends_with_ws (Js.trimEnd s) = false.
Proof.
  induction s as [|c s IH]; [reflexivity |]. cbn [Js.trimEnd].
  destruct (Js.trimEnd s) as [|c' r] eqn:E.
  - cbn [Js.nonempty negb]. rewrite andb_true_r.
    destruct (Js.is_ws c) eqn:Hc; [reflexivity | cbn; exact Hc].
  - cbn [Js.nonempty negb]. rewrite andb_false_r. exact IH.
Qed.

Lemma trimEnd_keeps_start s :
  starts_with_ws s = false -> starts_with_ws (Js.trimEnd s) = false.
Proof.
  destruct s as [|c s]; [reflexivity |]. cbn [starts_with_ws Js.trimEnd].
  intros Hc. rewrite Hc. cbn [andb starts_with_ws]. exact Hc.
Qed.

Lemma trim_edges s :
  starts_with_ws (Js.trim s) = false /\ ends_with_ws (Js.trim s) = false.
Proof.
  unfold Js.trim. split;
    [apply trimEnd_keeps_start, trimStart_no_leading | apply trimEnd_no_trailing].
Qed.

Lemma trimStart_empty s :
  Js.trimStart s = EmptyString -> all_chars Js.is_ws s = true.
Proof.
  induction s as [|c s IH]; [reflexivity |]. cbn [Js.trimStart all_chars].
  destruct (Js.is_ws c); [exact IH | discriminate].
Qed.

Lemma trim_blank s :
  Js.nonempty (Js.trim s) = false -> all_chars Js.is_ws s = true.
Proof.
  unfold Js.trim. intros H. apply trimStart_empty.
  pose proof (trimStart_no_leading s) as Hs.
  destruct (Js.trimStart s) as [|c r]; [reflexivity |].
  cbn [starts_with_ws] in Hs. cbn [Js.trimEnd] in H. rewrite Hs in H.
  discriminate H.
Qed.

(** X8. The point-of-view name the prompt carries is never empty and
    never starts or ends with white space; a character name that is
    missing, and one that is blank (empty or white space only), gives the
    default; any other name is carried trimmed. *)
Theorem povName_clean o :
  Js.nonempty (povName o) = true
  /\ starts_with_ws (povName o) = false
  /\ ends_with_ws (povName o) = false
  /\ (povCharacter o = None -> povName o = "the protagonist")
  /\ (forall c, povCharacter o = Some c -> all_chars Js.is_ws c = true ->
                povName o = "the protagonist")
  /\ (forall c, povCharacter o = Some c -> all_chars Js.is_ws c = false ->
                povName o = Js.trim c).
Proof.
  unfold povName. destruct (povCharacter o) as [c|].
  - destruct (Js.nonempty (Js.trim c)) eqn:E.
    + destruct (trim_edges c) as [Hs He].
      split; [exact E |]. split; [exact Hs |]. split; [exact He |].
      split; [discriminate |]. split; [| now intros c' [= <-] _].
      intros c' [= <-] Hws. unfold Js.trim in E.
      now rewrite (trimStart_all_ws _ Hws) in E.
    + split; [reflexivity |]. split; [reflexivity |]. split; [reflexivity |].
      split; [reflexivity |]. split; [reflexivity |].
      intros c' [= <-] Hws. exfalso.
      rewrite (trim_blank c E) in Hws. discriminate.
  - split; [reflexivity |]. split; [reflexivity |]. split; [reflexivity |].
    split; [reflexivity |]. split; discriminate.
Qed.

Lemma length_join_cons x (l : list string) :
  String.length (Js.join " " (x :: l))
  = String.length x
    + match l with [] => 0 | _ => 1 + String.length (Js.join " " l) end.
Proof.
  unfold Js.join. cbn [String.concat]. destruct l as [|y l]; [lia |].
  rewrite !length_append. reflexivity.
Qed.

Lemma split_ws_from_nonempty in_run s : Js.split_ws_from in_run s <> [].
Proof.
  destruct s as [|c s]; cbn [Js.split_ws_from]; [discriminate |].
  destruct (Js.is_ws c); [destruct in_run; [|discriminate] |].
  - revert c. induction s as [|c' s IH]; intros c; cbn [Js.split_ws_from];
      [discriminate |].
    destruct (Js.is_ws c'); [apply (IH c') |].
    unfold Js.push_front. destruct (Js.split_ws_from false s); discriminate.
  - unfold Js.push_front. destruct (Js.split_ws_from false s); discriminate.
Qed.

Lemma length_join_split in_run s :
  String.length (Js.join " " (Js.split_ws_from in_run s)) <= String.length s.
Proof.
  revert in_run; induction s as [|c s IH]; intros in_run;
    cbn [Js.split_ws_from String.length]; [cbn; lia |].
  destruct (Js.is_ws c).
  - destruct in_run; [specialize (IH true); lia |].
    rewrite length_join_cons. specialize (IH true).
    destruct (Js.split_ws_from true s); cbn [String.length] in *; lia.
  - specialize (IH false).
    pose proof (split_ws_from_nonempty false s) as Hne.
    destruct (Js.split_ws_from false s) as [|p ps]; [congruence |].
    cbn [Js.push_front]. rewrite length_join_cons in *.
    cbn [String.length]. lia.
Qed.

Lemma length_join_skipn n (l : list string) :
  String.length (Js.join " " (List.skipn n l))
  <= String.length (Js.join " " l).
Proof.
  revert l; induction n as [|n IH]; intros [|x l]; cbn [List.skipn]; try lia.
  specialize (IH l). rewrite length_join_cons.
  destruct l; [destruct n; cbn in *; lia | lia].
Qed.

Lemma join_space_word_chars (l : list string) :
  Forall (fun p => all_chars not_ws p = true) l ->
  all_chars word_char (Js.join " " l) = true.
Proof.
  assert (Hw : forall c, not_ws c = true -> word_char c = true)
    by (intros c Hc; unfold word_char; now rewrite Hc).
  unfold Js.join. induction l as [|p l IH]; intros H; [reflexivity |].
  apply Forall_cons_iff in H as [Hp Hl].
  pose proof (all_chars_weaken _ _ p Hw Hp) as Hp'.
  cbn [String.concat]. destruct l as [|p' l]; [exact Hp' |].
  rewrite !all_chars_append, Hp', (IH Hl). reflexivity.
Qed.

(** X9. The context words are bounded and normalised: at most 500
    pieces are kept, the text is never longer than the scene context it
    comes from, and its only white space is the single spaces that join
    the pieces. *)
Theorem context_words_bounded sceneContext :
  List.length (Js.slice_last 500 (words sceneContext)) <= 500
  /\ String.length (contextWords sceneContext) <= String.length sceneContext
  /\ all_chars word_char (contextWords sceneContext) = true.
Proof.
  unfold contextWords, Js.slice_last, words, Js.split_ws. repeat split.
  - rewrite List.length_skipn. lia.
  - etransitivity; [apply length_join_skipn | apply length_join_split].
  - apply join_space_word_chars, Forall_drop, split_ws_from_pieces.
Qed.

Lemma fold_appendEntry_blocks es text :
  fold_left appendEntry es text
  = text ++ concatAll (map entryBlock (present es)).
Proof.
  revert text; induction es as [|[e|] es IH]; intros text;
    cbn [fold_left present map concatAll fold_right appendEntry].
  - now rewrite append_nil_r.
  - rewrite IH. fold (concatAll (map entryBlock (present es))).
    unfold entryBlock at 2. now rewrite !append_assoc.
  - apply IH.
Qed.

(** X10. The reference material is the header followed by one block per
    entry, in the order of the list; elements that are [null] or
    [undefined] are skipped, and in preview mode, without a list or with
    an empty one there is no reference material at all, not even the
    header. *)
Theorem reference_block_closed_form o :
  compendiumText o
  = if preview o then EmptyString
    else match compendiumEntries o with
         | Some (e :: es) =>
             compendiumHeader ++ concatAll (map entryBlock (present (e :: es)))
         | _ => EmptyString
         end.
Proof.
  unfold compendiumText. destruct (preview o); [reflexivity |].
  destruct (compendiumEntries o) as [[|e es]|]; try reflexivity.
  apply fold_appendEntry_blocks.
Qed.

End PromptMore.

(** ** More on the connection test *)

Section RetryMore.
Import Browser AISettings000 AISettings000Store Examples.

Variable t : string -> string.
Variable progressOf : nat -> nat -> nat.
Variable health : nat -> Probe.

Local Abbreviation probeLoop := (probeLoop t progressOf health).
Local Abbreviation saveAISettings := (saveAISettings t progressOf health).

Lemma waits_emit e w :
  waits (emit e w)
  = (waits w ++ match e with Wait ms => [ms] | _ => [] end)%list.
Proof.
  unfold waits, emit; cbn [trace].
  rewrite List.flat_map_app. destruct e; cbn; now rewrite ?app_nil_r.
Qed.

Lemma waits_setItem k v w : waits (setItem k v w) = waits w.
Proof. reflexivity. Qed.

Lemma waits_failed a b m app w : waits (snd (failed a b m app w)) = waits w.
Proof. unfold failed; cbn [snd]. now rewrite !waits_emit, !app_nil_r. Qed.

(** The delays of the loop: one per rejected attempt that is not the
    last the budget allows, and none otherwise. *)
Lemma probeLoop_waits budget delay endpoint remaining attempt app w :
  let '(_, _, _, w') :=
    probeLoop budget delay endpoint remaining attempt app w in
  exists k,
    waits w' = (waits w ++ repeat delay k)%list
    /\ k <= Nat.min remaining (budget - 1 - attempt)
    /\ ((forall i, attempt < i <= attempt + remaining ->
                   isRejected (health i) = true) ->
        k = Nat.min remaining (budget - 1 - attempt))
    /\ ((forall i, attempt < i <= attempt + remaining ->
                   isRejected (health i) = false) ->
        k = 0).
Proof.
  revert attempt app w; induction remaining as [|r IH]; intros attempt app w;
    cbn [AISettings000.probeLoop].
  - exists 0. cbn [repeat]. rewrite app_nil_r.
    split; [reflexivity |]. split; [lia |]. split; intros _; lia.
  - destruct (health (S attempt)) eqn:Hh.
    + exists 0. rewrite !waits_emit; cbn [repeat]; rewrite !app_nil_r.
      split; [reflexivity |]. split; [lia |]. split; [|intros _; lia].
      intros Hall. specialize (Hall (S attempt) ltac:(lia)).
      rewrite Hh in Hall. discriminate.
    + match goal with
      | |- context [probeLoop _ _ _ r ?a ?app' ?w'] =>
          specialize (IH a app' w');
          destruct (probeLoop budget delay endpoint r a app' w')
            as [[[? ?] ?] w'']
      end.
      destruct IH as (k & Hw & Hk & Hall & Hnone).
      exists k. rewrite waits_emit, app_nil_r in Hw.
      split; [exact Hw |]. split; [lia |]. split.
      * intros Hrej. specialize (Hrej (S attempt) ltac:(lia)).
        rewrite Hh in Hrej. discriminate.
      * intros Hno. apply Hnone. intros i Hi. apply Hno. lia.
    + match goal with
      | |- context [probeLoop _ _ _ r ?a ?app' ?w'] =>
          specialize (IH a app' w');
          destruct (probeLoop budget delay endpoint r a app' w')
            as [[[? ?] ?] w'']
      end.
      destruct IH as (k & Hw & Hk & Hall & Hnone).
      assert (Hno' : ~ (forall i, attempt < i <= attempt + S r ->
                                  isRejected (health i) = false)).
      { intros Hno. specialize (Hno (S attempt) ltac:(lia)).
        rewrite Hh in Hno. discriminate. }
      destruct (S attempt <? budget) eqn:Hlt.
      * apply Nat.ltb_lt in Hlt. exists (S k).
        rewrite !waits_emit, app_nil_r in Hw. rewrite Hw, <- app_assoc.
        split; [reflexivity |]. split; [lia |]. split; [|tauto].
        intros Hrej.
        rewrite Hall by (intros i Hi; apply Hrej; lia). lia.
      * apply Nat.ltb_ge in Hlt. exists k.
        rewrite waits_emit, app_nil_r in Hw.
        split; [exact Hw |]. split; [lia |]. split; [|tauto].
        intros Hrej.
        rewrite Hall by (intros i Hi; apply Hrej; lia). lia.
Qed.

(** X11. The delays of a local test: every delay is the fixed one, there
    are at most one fewer than the budget, exactly that many when every
    probe is rejected (the last attempt is not followed by a delay), and
    none when no probe is rejected: a response that is not [ok] is
    followed by the next probe at once. *)
Theorem local_test_delays (app : App) (w : World) :
  aiMode (config app) = "local" ->
  exists k,
    waits (snd (saveAISettings app w)) = (waits w ++ repeat retryDelay k)%list
    /\ k <= maxRetries - 1
    /\ ((forall i, 1 <= i <= maxRetries -> isRejected (health i) = true) ->
        k = maxRetries - 1)
    /\ ((forall i, 1 <= i <= maxRetries -> isRejected (health i) = false) ->
        k = 0).
Proof.
  intros Hmode.
  unfold AISettings000.saveAISettings, AISettings000.testConnection.
  cbn [withView config]. rewrite Hmode. cbn [String.eqb Ascii.eqb Bool.eqb].
  unfold AISettings000.testLocal. cbn [withView config].
  match goal with
  | |- context [probeLoop ?b ?d ?e ?r ?a ?app' ?w'] =>
      pose proof (probeLoop_waits b d e r a app' w') as H;
      destruct (probeLoop b d e r a app' w') as [[[attempt connected] app1] w1]
  end.
  destruct H as (k & Hw & Hk & Hall & Hnone).
  rewrite waits_setItem in Hw. exists k.
  split.
  - destruct connected; cbn [snd]; [exact Hw | now rewrite waits_failed].
  - split; [unfold maxRetries in *; lia |]. split.
    + intros Hrej. rewrite Hall; [unfold maxRetries; lia |].
      intros i Hi. apply Hrej. unfold maxRetries in *. lia.
    + intros Hno. apply Hnone. intros i Hi. apply Hno.
      unfold maxRetries in *. lia.
Qed.

(** What the loop does to [app]: it never touches the configuration or
    the flag of the settings dialog, and it sets the ready status exactly
    when it connects. *)
Lemma probeLoop_view budget delay endpoint remaining attempt app w :
  let '(_, connected, app', _) :=
    probeLoop budget delay endpoint remaining attempt app w in
  config app' = config app
  /\ showAISettings (view app') = showAISettings (view app)
  /\ (connected = true ->
      aiStatus (view app') = "ready" /\ loadingProgress (view app') = 100)
  /\ (connected = false -> aiStatus (view app') = aiStatus (view app)).
Proof.
  revert attempt app w; induction remaining as [|r IH]; intros attempt app w;
    cbn [AISettings000.probeLoop].
  - repeat split; discriminate.
  - destruct (health (S attempt)).
    + repeat split; discriminate.
    + match goal with
      | |- context [probeLoop _ _ _ r ?a ?app' ?w'] =>
          specialize (IH a app' w');
          destruct (probeLoop budget delay endpoint r a app' w')
            as [[[? c] ?] w'']
      end. exact IH.
    + match goal with
      | |- context [probeLoop _ _ _ r ?a ?app' ?w'] =>
          specialize (IH a app' w');
          destruct (probeLoop budget delay endpoint r a app' w')
            as [[[? c] ?] w'']
      end. exact IH.
Qed.

(** The two ends of a cycle, in the version with the loop. *)
Lemma cycle_ends_ready_or_error_000 (app : App) (w : World) :
  config (fst (saveAISettings app w)) = config app
  /\ ((aiStatus (view (fst (saveAISettings app w))) = "ready"
       /\ showAISettings (view (fst (saveAISettings app w))) = false
       /\ loadingProgress (view (fst (saveAISettings app w))) = 100)
      \/ (aiStatus (view (fst (saveAISettings app w))) = "error"
          /\ showModelLoading (view (fst (saveAISettings app w))) = false
          /\ showAISettings (view (fst (saveAISettings app w)))
             = showAISettings (view app))).
Proof.
  unfold AISettings000.saveAISettings, AISettings000.testConnection.
  cbn [withView config].
  destruct (String.eqb (aiMode (config app)) "local").
  - unfold AISettings000.testLocal. cbn [withView config].
    match goal with
    | |- context [probeLoop ?b ?d ?e ?r ?a ?app' ?w'] =>
        pose proof (probeLoop_view b d e r a app' w') as H;
        destruct (probeLoop b d e r a app' w') as [[[attempt connected] app1] w1]
    end.
    destruct H as (Hc & Hs & Hready & Herr).
    destruct connected; cbn [fst snd failed withView view config].
    + destruct (Hready eq_refl) as [H1 H2]. split; [exact Hc |]. left.
      cbn [setShowAISettings aiStatus showAISettings loadingProgress].
      now repeat split.
    + split; [exact Hc |]. right. repeat split. exact Hs.
  - unfold AISettings000.testApi. cbn [config withView].
    destruct (Js.nonempty (aiApiKey (config app)));
      [destruct (Js.nonempty (aiModel (config app))) |];
      cbn [fst negb]; (split; [reflexivity |]);
      [left | right | right]; repeat split.
Qed.

End RetryMore.

Section SingleProbeMore.
Import Browser AISettings AISettingsStore Examples.

Variable health : nat -> Probe.

Lemma cycle_ends_ready_or_error_single (app : App) (w : World) :
  config (fst (saveAISettings health app w)) = config app
  /\ ((aiStatus (view (fst (saveAISettings health app w))) = "ready"
       /\ showAISettings (view (fst (saveAISettings health app w))) = false
       /\ loadingProgress (view (fst (saveAISettings health app w))) = 100)
      \/ (aiStatus (view (fst (saveAISettings health app w))) = "error"
          /\ showModelLoading (view (fst (saveAISettings health app w))) = false
          /\ showAISettings (view (fst (saveAISettings health app w)))
             = showAISettings (view app))).
Proof.
  unfold saveAISettings, testConnection. cbn [withView config].
  destruct (String.eqb (aiMode (config app)) "local").
  - destruct (health 1); cbn [fst]; (split; [reflexivity |]);
      [left | right | right]; repeat split.
  - destruct (Js.nonempty (aiApiKey (config app)));
      [destruct (Js.nonempty (aiModel (config app))) |];
      cbn [fst negb]; (split; [reflexivity |]);
      [left | right | right]; repeat split.
Qed.

(** X13. Outside local mode the test is a validation of the settings and
    sends no request: without an API key it ends in the error status
    with the alert that a key is required (also when the model is missing
    too); with a key and without a model, with the alert that a model
    name is required; with both, in the ready status. *)
Theorem api_mode_validates_without_request (app : App) (w : World) :
  String.eqb (aiMode (config app)) "local" = false ->
  let result := saveAISettings health app w in
  probes (snd result) = probes w
  /\ (Js.nonempty (aiApiKey (config app)) = false ->
      aiStatus (view (fst result)) = "error"
      /\ alerts (snd result)
         = (alerts w ++ ["Connection failed: API key is required"])%list)
  /\ (Js.nonempty (aiApiKey (config app)) = true ->
      Js.nonempty (aiModel (config app)) = false ->
      aiStatus (view (fst result)) = "error"
      /\ alerts (snd result)
         = (alerts w ++ ["Connection failed: Model name is required"])%list)
  /\ (Js.nonempty (aiApiKey (config app)) = true ->
      Js.nonempty (aiModel (config app)) = true ->
      aiStatus (view (fst result)) = "ready"
      /\ aiStatusText (view (fst result))
         = "AI Ready (" ++ aiProvider (config app) ++ ")").
Proof.
  intros Hmode. cbv zeta. unfold saveAISettings, testConnection.
  cbn [withView config]. rewrite Hmode.
  destruct (Js.nonempty (aiApiKey (config app)));
    [destruct (Js.nonempty (aiModel (config app))) |];
    cbn [fst snd negb]; unfold failed; cbn [fst snd];
    rewrite ?probes_emit, ?alerts_emit, ?probes_setItem, ?alerts_setItem,
      ?app_nil_r;
    repeat split; try discriminate; try lia; try reflexivity.
Qed.

(** The quick save of this version. *)
Lemma quick_save_stores_the_same_single (app : App) (w : World) :
  localStorage (snd (saveAISettings health app w))
  = localStorage (saveGenerationParams app w)
  /\ trace (saveGenerationParams app w) = trace w.
Proof. split; [apply single_probe_stores | reflexivity]. Qed.

End SingleProbeMore.

Section CycleTheorems.
Import Browser Examples.

(** X12. Every test cycle, in either version, leaves the configuration
    under test as it is and ends in one of two states: the ready status,
    with the progress at 100 and the settings dialog closed, or the error
    status, with the loading overlay hidden and the settings dialog left
    as it was. *)
Theorem cycle_ends_ready_or_error :
  (forall t progressOf health app w,
     let app' := fst (AISettings000.saveAISettings t progressOf health app w) in
     config app' = config app
     /\ ((aiStatus (view app') = "ready" /\ showAISettings (view app') = false
          /\ loadingProgress (view app') = 100)
         \/ (aiStatus (view app') = "error"
             /\ showModelLoading (view app') = false
             /\ showAISettings (view app') = showAISettings (view app))))
  /\ (forall health app w,
        let app' := fst (AISettings.saveAISettings health app w) in
        config app' = config app
        /\ ((aiStatus (view app') = "ready" /\ showAISettings (view app') = false
             /\ loadingProgress (view app') = 100)
            \/ (aiStatus (view app') = "error"
                /\ showModelLoading (view app') = false
                /\ showAISettings (view app') = showAISettings (view app)))).
Proof.
  split; intros; [apply cycle_ends_ready_or_error_000
                 | apply cycle_ends_ready_or_error_single].
Qed.

(** X14. The quick save and the full save write the same record: after
    [saveAISettings], whatever the outcome of its test, the storage is
    the one [saveGenerationParams] leaves, and the quick save has no
    other effect.  This holds in both versions. *)
Theorem quick_save_stores_the_same :
  (forall t progressOf health app w,
     localStorage (snd (AISettings000.saveAISettings t progressOf health app w))
     = localStorage (AISettings000Store.saveGenerationParams app w)
     /\ trace (AISettings000Store.saveGenerationParams app w) = trace w)
  /\ (forall health app w,
        localStorage (snd (AISettings.saveAISettings health app w))
        = localStorage (AISettingsStore.saveGenerationParams app w)
        /\ trace (AISettingsStore.saveGenerationParams app w) = trace w).
Proof.
  split; intros; (split; [|reflexivity]);
    [apply saveAISettings_stores | apply single_probe_stores].
Qed.

End CycleTheorems.

(** ** Loading the settings and the model catalogs *)

Section CatalogFacts.
Import Browser AISettings AISettingsStore Examples.

Variable toUpperCase : string -> string.
Variable answer : string -> Answer.

Local Abbreviation fetchCatalog := (fetchCatalog toUpperCase answer).
Local Abbreviation fetchProviderModels := (fetchProviderModels toUpperCase answer).
Local Abbreviation loadAISettings := (loadAISettings toUpperCase answer).

Lemma insertSorted_free x (l : list (string * option string)) :
  isFree (fst x) = true ->
  insertSorted freeFirst x l = x :: l.
Proof.
  intros Hx. destruct l as [|y l]; [reflexivity |]. cbn [insertSorted].
  unfold freeFirst. rewrite Hx. cbn [negb]. rewrite andb_false_r.
  now destruct (isFree (fst y)).
Qed.

Lemma insertSorted_paid x (free paid : list (string * option string)) :
  isFree (fst x) = false ->
  Forall (fun y => isFree (fst y) = true) free ->
  Forall (fun y => isFree (fst y) = false) paid ->
  insertSorted freeFirst x (free ++ paid) = (free ++ x :: paid)%list.
Proof.
  intros Hx Hfree Hpaid. induction Hfree as [|y free Hy _ IH]; cbn [app].
  - destruct paid as [|z paid]; [reflexivity |]. cbn [insertSorted].
    apply Forall_cons_iff in Hpaid as [Hz _].
    unfold freeFirst. now rewrite Hx, Hz.
  - cbn [insertSorted]. unfold freeFirst at 1. rewrite Hx, Hy. cbn.
    now rewrite IH.
Qed.

(** Sorting free models first is a stable partition. *)
Lemma sort_freeFirst (l : list (string * option string)) :
  sort freeFirst l
  = (List.filter (fun m => isFree (fst m)) l
     ++ List.filter (fun m => negb (isFree (fst m))) l)%list.
Proof.
  unfold sort. induction l as [|x l IH]; [reflexivity |].
  cbn [fold_right List.filter]. rewrite IH.
  destruct (isFree (fst x)) eqn:Hx; cbn [negb].
  - now apply insertSorted_free.
  - apply insertSorted_paid; [exact Hx | |];
      apply List.Forall_forall; intros y Hy;
      apply List.filter_In in Hy as [_ Hy]; [exact Hy |].
    now destruct (isFree (fst y)).
Qed.

(** X15. The OpenRouter catalog: of the entries the provider lists, those
    without an id are dropped, the free ones come first and the others
    after them, each group in the provider's order; the name falls back
    to the id.  The fetch marks the catalog as fetched and clears the
    in-flight flag. *)
Theorem openrouter_catalog_free_first (c : Config) (m : Models) (w : World)
  (data : list RawModel) :
  aiMode c = "api" ->
  Js.nonempty (aiApiKey c) = true ->
  fetchingModels m = false ->
  aiProvider c = "openrouter" ->
  answer "https://openrouter.ai/api/v1/models" = Body (Some data) ->
  let m' := fst (fetchProviderModels c m w) in
  catalog m'
  = <["openrouter" :=
        map openrouterInfo
          (List.filter (fun x => isFree (fst x)) (withId data)
           ++ List.filter (fun x => negb (isFree (fst x))) (withId data))]>
      (catalog m)
  /\ modelsFetched m' = true
  /\ fetchingModels m' = false.
Proof.
  intros Hmode Hkey Hflag Hprov Hans. cbv zeta.
  unfold AISettingsStore.fetchProviderModels, AISettingsStore.fetchCatalog.
  rewrite Hmode, Hkey, Hflag, Hprov. cbn [String.eqb Ascii.eqb Bool.eqb negb orb].
  rewrite Hans. cbn [fst]. rewrite sort_freeFirst. now repeat split.
Qed.

Lemma fetchCatalog_failure provider m w :
  (forall url, match answer url with Body (Some _) => False | _ => True end) ->
  catalog (fst (fetchCatalog provider m w)) = catalog m
  /\ fetchingModels (fst (fetchCatalog provider m w)) = fetchingModels m.
Proof.
  intros Hfail. unfold AISettingsStore.fetchCatalog.
  pose proof (Hfail "https://openrouter.ai/api/v1/models") as H1.
  pose proof (Hfail "https://api.openai.com/v1/models") as H2.
  destruct (String.eqb provider "openrouter").
  { destruct (answer "https://openrouter.ai/api/v1/models") as [| |[d|]];
      try contradiction; now split. }
  destruct (String.eqb provider "openai").
  { destruct (answer "https://api.openai.com/v1/models") as [| |[d|]];
      try contradiction; now split. }
  destruct (String.eqb provider "anthropic"); [now split |].
  destruct (String.eqb provider "google"); now split.
Qed.

Lemma fetchCatalog_flag provider m w :
  fetchingModels (fst (fetchCatalog provider m w)) = fetchingModels m.
Proof.
  unfold AISettingsStore.fetchCatalog.
  destruct (String.eqb provider "openrouter").
  { destruct (answer "https://openrouter.ai/api/v1/models") as [| |[d|]];
      reflexivity. }
  destruct (String.eqb provider "openai").
  { destruct (answer "https://api.openai.com/v1/models") as [| |[d|]];
      try reflexivity. destruct (gptOnly d); reflexivity. }
  destruct (String.eqb provider "anthropic"); [reflexivity |].
  destruct (String.eqb provider "google"); reflexivity.
Qed.

Lemma fetchCatalog_others provider m w other :
  other <> "openrouter" -> other <> "openai" ->
  catalog (fst (fetchCatalog provider m w)) !! other = catalog m !! other.
Proof.
  intros Hor Hoa. unfold AISettingsStore.fetchCatalog.
  destruct (String.eqb provider "openrouter").
  { destruct (answer "https://openrouter.ai/api/v1/models") as [| |[d|]];
      try reflexivity. cbn [fst setFetched setCatalog catalog].
    now rewrite lookup_insert_ne. }
  destruct (String.eqb provider "openai").
  { destruct (answer "https://api.openai.com/v1/models") as [| |[d|]];
      try reflexivity. destruct (gptOnly d); [|reflexivity].
    cbn [fst setFetched setCatalog catalog]. now rewrite lookup_insert_ne. }
  destruct (String.eqb provider "anthropic"); [reflexivity |].
  destruct (String.eqb provider "google"); reflexivity.
Qed.

(** X16. [fetchProviderModels] is best effort and leaves no flag behind:
    a call that finds no fetch in flight ends with the in-flight flag
    cleared whatever happens; when no request is answered by a usable
    body (rejection, a status that is not [ok], a body without the array)
    the catalogs are exactly as before; and outside api mode, without a
    key or while a fetch is in flight it changes nothing and sends
    nothing. *)
Theorem catalog_fetch_best_effort (c : Config) (m : Models) (w : World) :
  (fetchingModels m = false ->
   fetchingModels (fst (fetchProviderModels c m w)) = false)
  /\ ((forall url, match answer url with Body (Some _) => False | _ => True end) ->
      catalog (fst (fetchProviderModels c m w)) = catalog m)
  /\ (negb (String.eqb (aiMode c) "api") || negb (Js.nonempty (aiApiKey c))
      || fetchingModels m = true ->
      fetchProviderModels c m w = (m, w)).
Proof.
  unfold AISettingsStore.fetchProviderModels.
  destruct (negb (String.eqb (aiMode c) "api")
            || negb (Js.nonempty (aiApiKey c))) eqn:Hguard.
  { split; [tauto |]. split; reflexivity. }
  destruct (fetchingModels m) eqn:Hflag.
  { split; [discriminate |]. split; reflexivity. }
  pose proof (fetchCatalog_failure (aiProvider c) (setFetching true m) w) as Hf.
  destruct (fetchCatalog (aiProvider c) (setFetching true m) w) as [m1 w1].
  cbn [fst] in *. split; [reflexivity |]. split; [|discriminate].
  intros Hfail. destruct (Hf Hfail) as [Hcat _]. exact Hcat.
Qed.

Lemma gptOnly_missing_id (data : list RawModel) :
  Exists (fun r => raw_id r = None) data -> gptOnly data = None.
Proof.
  induction 1 as [r l Hr | r l _ IH]; cbn [gptOnly].
  - now rewrite Hr.
  - rewrite IH. now destruct (raw_id r).
Qed.

(** X17. An OpenAI answer with an entry that has no id yields no catalog
    at all: reading the id throws inside the filter, the error is logged
    and the catalog stays as it was, also for the entries that were
    fine. *)
Theorem openai_entry_without_id_voids_catalog (c : Config) (m : Models)
  (w : World) (data : list RawModel) :
  aiMode c = "api" ->
  Js.nonempty (aiApiKey c) = true ->
  fetchingModels m = false ->
  aiProvider c = "openai" ->
  answer "https://api.openai.com/v1/models" = Body (Some data) ->
  Exists (fun r => raw_id r = None) data ->
  catalog (fst (fetchProviderModels c m w)) = catalog m
  /\ modelsFetched (fst (fetchProviderModels c m w)) = modelsFetched m.
Proof.
  intros Hmode Hkey Hflag Hprov Hans Hbad.
  pose proof (gptOnly_missing_id data Hbad) as Hnone.
  unfold AISettingsStore.fetchProviderModels, AISettingsStore.fetchCatalog.
  rewrite Hmode, Hkey, Hflag, Hprov. cbn [String.eqb Ascii.eqb Bool.eqb negb orb].
  rewrite Hans, Hnone. now split.
Qed.

(** X18. Save and load: the quick save followed by [loadAISettings] gives
    back the mode, the provider, the key, the model, the temperature and
    the token limit that were saved, and the endpoint as it was stored,
    provided the mode and the provider are not empty and the two numbers
    are not zero. *)
Theorem settings_round_trip (app other : App) (m : Models) (w : World) :
  Js.nonempty (aiMode (config app)) = true ->
  Js.nonempty (aiProvider (config app)) = true ->
  Json.nonzero (fst (appTemperature (config app)))
               (snd (appTemperature (config app))) = true ->
  Json.nonzero (fst (appMaxTokens (config app)))
               (snd (appMaxTokens (config app))) = true ->
  let c := config (fst (fst (loadAISettings other m
                               (saveGenerationParams app w)))) in
  aiMode c = aiMode (config app)
  /\ aiProvider c = aiProvider (config app)
  /\ aiApiKey c = aiApiKey (config app)
  /\ aiModel c = aiModel (config app)
  /\ aiEndpoint c = endpoint (settings app)
  /\ appTemperature c = appTemperature (config app)
  /\ appMaxTokens c = appMaxTokens (config app).
Proof.
  intros Hmode Hprov Htemp Htok. cbv zeta.
  unfold AISettingsStore.loadAISettings, saveGenerationParams, setItem.
  cbn [localStorage]. rewrite lookup_insert_eq.
  match goal with
  | |- context [if ?b then _ else _] => destruct b
  end.
  all: try match goal with
       | |- context [AISettingsStore.fetchProviderModels ?u ?a ?c ?m ?w] =>
           destruct (AISettingsStore.fetchProviderModels u a c m w)
       end.
  all: cbn [fst config loaded settings mode provider apiKey model endpoint
              temperature maxTokens aiMode aiProvider aiApiKey aiModel
              aiEndpoint appTemperature appMaxTokens].
  all: unfold or_num, or_str; rewrite Hmode, Hprov, Htemp, Htok.
  all: destruct (aiApiKey (config app)), (aiModel (config app));
    repeat split;
    match goal with
    | |- context [Js.nonempty ?s] => destruct s; reflexivity
    | _ => idtac
    end.
Qed.

(** X19. Zero does not survive save and load: a temperature of zero is
    loaded as the default 0.8, and, whatever the temperature, a token
    limit of zero is loaded as the default 300. *)
Theorem zero_temperature_not_restored (app other : App) (m : Models) (w : World) :
  let c := config (fst (fst (loadAISettings other m
                               (saveGenerationParams app w)))) in
  (Json.nonzero (fst (appTemperature (config app)))
                (snd (appTemperature (config app))) = false ->
   appTemperature c = (8, -1)%Z)
  /\ (Json.nonzero (fst (appMaxTokens (config app)))
                    (snd (appMaxTokens (config app))) = false ->
      appMaxTokens c = (300, 0)%Z).
Proof.
  cbv zeta.
  unfold AISettingsStore.loadAISettings, saveGenerationParams, setItem.
  cbn [localStorage]. rewrite lookup_insert_eq.
  match goal with
  | |- context [if ?b then _ else _] => destruct b
  end.
  all: try match goal with
       | |- context [AISettingsStore.fetchProviderModels ?u ?a ?c ?m ?w] =>
           destruct (AISettingsStore.fetchProviderModels u a c m w)
       end.
  all: cbn [fst config loaded settings temperature maxTokens
              appTemperature appMaxTokens].
  all: unfold or_num; split; intros Hzero; now rewrite Hzero.
Qed.

(** With nothing stored, [loadAISettings] changes nothing and sends
    nothing. *)
Lemma load_without_settings (app : App) (m : Models) (w : World) :
  localStorage w !! storageKey = None ->
  loadAISettings app m w = (app, m, w).
Proof. intros H. unfold AISettingsStore.loadAISettings. now rewrite H. Qed.

End CatalogFacts.

(** ** The compendium editor: changes and tags *)

Section DirtyFacts.
Import CompendiumManager CompendiumNotions.

Lemma differs_false a b : differs a b = false <-> a = b.
Proof.
  destruct a as [| |s], b as [| |s']; cbn [differs]; split;
    try discriminate; try reflexivity.
  - rewrite negb_false_iff, String.eqb_eq. now intros ->.
  - intros [= ->]. now rewrite String.eqb_refl.
Qed.

Lemma tagsDiffer_false curr orig :
  List.length curr = List.length orig ->
  tagsDiffer curr orig = false <-> curr = orig.
Proof.
  revert orig. induction curr as [|c curr IH]; intros [|o orig] Hlen;
    try discriminate Hlen; cbn [tagsDiffer].
  - split; reflexivity.
  - injection Hlen as Hlen. destruct (String.eqb c o) eqn:E; cbn [negb].
    + apply String.eqb_eq in E as ->. rewrite (IH _ Hlen).
      split; [now intros -> | now intros [= ->]].
    + apply String.eqb_neq in E. split; [discriminate | intros [= ? ?]; contradiction].
Qed.

Lemma clean_editable curr orig :
  (if negb (String.eqb (e_title curr) (e_title orig)) then true
   else if negb (String.eqb (e_body curr) (e_body orig)) then true
   else if differs (e_imageUrl curr) (e_imageUrl orig) then true
   else if negb (Bool.eqb (toBoolean (e_alwaysInContext curr))
                          (toBoolean (e_alwaysInContext orig))) then true
   else if negb (Nat.eqb (List.length (orEmpty (e_tags curr)))
                         (List.length (orEmpty (e_tags orig)))) then true
   else tagsDiffer (orEmpty (e_tags curr)) (orEmpty (e_tags orig))) = false
  <-> editable curr = editable orig.
Proof.
  unfold editable.
  destruct (String.eqb (e_title curr) (e_title orig)) eqn:Et; cbn [negb];
    [apply String.eqb_eq in Et
    | apply String.eqb_neq in Et; split; [discriminate | intros [= ? ? ? ? ?]; contradiction]].
  destruct (String.eqb (e_body curr) (e_body orig)) eqn:Eb; cbn [negb];
    [apply String.eqb_eq in Eb
    | apply String.eqb_neq in Eb; split; [discriminate | intros [= ? ? ? ? ?]; contradiction]].
  destruct (differs (e_imageUrl curr) (e_imageUrl orig)) eqn:Ei.
  { split; [discriminate |]. intros [= _ _ Hi _ _].
    apply differs_false in Hi. congruence. }
  apply differs_false in Ei.
  destruct (Bool.eqb (toBoolean (e_alwaysInContext curr))
                     (toBoolean (e_alwaysInContext orig))) eqn:Ea; cbn [negb].
  2:{ split; [discriminate |]. intros [= _ _ _ Ha _].
      rewrite Ha, Bool.eqb_reflx in Ea. discriminate. }
  apply Bool.eqb_prop in Ea.
  destruct (Nat.eqb (List.length (orEmpty (e_tags curr)))
                    (List.length (orEmpty (e_tags orig)))) eqn:El; cbn [negb].
  2:{ split; [discriminate |]. intros [= _ _ _ _ Hl].
      rewrite Hl, Nat.eqb_refl in El. discriminate. }
  apply Nat.eqb_eq in El. rewrite (tagsDiffer_false _ _ El).
  split; [intros Ht; congruence | now intros [= _ _ _ _ Ht]].
Qed.

Lemma isCompendiumDirty_clean (a : App) curr orig :
  currentCompEntry a = Some curr -> compendiumOriginalEntry a = Some orig ->
  isCompendiumDirty a = false <-> editable curr = editable orig.
Proof.
  intros Hc Ho. unfold isCompendiumDirty. rewrite Hc, Ho. cbv zeta.
  apply clean_editable.
Qed.

(** X20.  The entry counts as changed exactly when an entry is being
    edited, a snapshot of it exists, and the two differ in title, body,
    image, context flag or tags (missing tags reading as no tags, a
    missing flag as [false]); identifier, category and order never
    matter. *)
Theorem dirty_iff_edited (a : App) :
  isCompendiumDirty a = true <->
  exists curr orig,
    currentCompEntry a = Some curr /\ compendiumOriginalEntry a = Some orig /\
    editable curr <> editable orig.
Proof.
  destruct (currentCompEntry a) as [curr|] eqn:Hc.
  2:{ unfold isCompendiumDirty. rewrite Hc.
      split; [discriminate | intros (? & ? & [=] & _)]. }
  destruct (compendiumOriginalEntry a) as [orig|] eqn:Ho.
  2:{ unfold isCompendiumDirty. rewrite Hc, Ho.
      split; [discriminate | intros (? & ? & _ & [=] & _)]. }
  pose proof (isCompendiumDirty_clean a curr orig Hc Ho) as H.
  destruct (isCompendiumDirty a).
  - split; [| reflexivity]. intros _. exists curr, orig.
    repeat split. intros Heq. apply H in Heq. discriminate.
  - split; [discriminate |]. intros (c & o & [= <-] & [= <-] & Hne).
    exfalso. apply Hne, H. reflexivity.
Qed.

Lemma includesTag_elem (tag : string) tags :
  includesTag tag tags = true <-> tag ∈ tags.
Proof.
  unfold includesTag. rewrite existsb_exists, list_elem_of_In. split.
  - intros (x & Hx & E). apply String.eqb_eq in E as ->. exact Hx.
  - intros Hx. exists tag. split; [exact Hx | apply String.eqb_refl].
Qed.

Lemma NoDup_snoc (tag : string) tags :
  NoDup tags -> includesTag tag tags = false -> NoDup (tags ++ [tag])%list.
Proof.
  intros Hnd Hin. apply NoDup_app. split; [exact Hnd |].
  split; [| apply NoDup_singleton].
  intros x Hx Hx'. apply list_elem_of_singleton in Hx' as ->.
  apply includesTag_elem in Hx. congruence.
Qed.

Lemma tagsOf_addCompTag (a : App) :
  tagsOf (addCompTag a) = tagsOf a \/
  exists tag,
    Js.nonempty tag = true /\ includesTag tag (tagsOf a) = false /\
    tag = Js.trim (orText (newCompTag a)) /\
    tagsOf (addCompTag a) = (tagsOf a ++ [tag])%list.
Proof.
  unfold addCompTag, tagsOf. destruct (currentCompEntry a) as [e|] eqn:Ha.
  2:{ left. now rewrite Ha. }
  destruct (Js.nonempty (Js.trim (orText (newCompTag a)))) eqn:Hn; cbn [negb].
  2:{ left. now rewrite Ha. }
  destruct (includesTag _ (orEmpty (e_tags e))) eqn:Hi; cbn [negb].
  - left. reflexivity.
  - right. eexists. repeat split; [exact Hn | exact Hi].
Qed.

(** X21.  Adding a tag keeps the tags free of duplicates and of empty
    tags, and changes them at most by one new tag at the end. *)
Theorem tags_stay_distinct (a : App) :
  NoDup (tagsOf a) -> Forall (fun tag => Js.nonempty tag = true) (tagsOf a) ->
  NoDup (tagsOf (addCompTag a)) /\
  Forall (fun tag => Js.nonempty tag = true) (tagsOf (addCompTag a)) /\
  exists added,
    tagsOf (addCompTag a) = (tagsOf a ++ added)%list /\ List.length added <= 1.
Proof.
  intros Hnd Hne.
  destruct (tagsOf_addCompTag a) as [-> | (tag & Hn & Hi & _ & ->)].
  - repeat split; [exact Hnd | exact Hne |].
    exists []. split; [now rewrite app_nil_r | cbn; lia].
  - repeat split.
    + now apply NoDup_snoc.
    + apply Forall_app. split; [exact Hne | now constructor].
    + exists [tag]. split; [reflexivity | cbn; lia].
Qed.

Lemma spliceOne_delete {A} (index : Z) (l : list A) :
  spliceOne index l =
  delete (Z.to_nat (if (index <? 0)%Z
                    then Z.max (Z.of_nat (List.length l) + index) 0
                    else Z.min index (Z.of_nat (List.length l)))) l.
Proof. unfold spliceOne. cbv zeta. now rewrite delete_take_drop. Qed.

Lemma delete_beyond {A} (i : nat) (l : list A) :
  List.length l <= i -> delete i l = l.
Proof.
  intros H. rewrite delete_take_drop, take_ge, drop_ge by lia.
  apply app_nil_r.
Qed.

Lemma spliceOne_last {A} (index : Z) (l : list A) (x : A) :
  index = Z.of_nat (List.length l) \/ index = (-1)%Z ->
  spliceOne index (l ++ [x])%list = l.
Proof.
  intros H. rewrite spliceOne_delete.
  replace (Z.to_nat _) with (List.length l).
  - rewrite delete_take_drop, take_app_length.
    rewrite drop_ge; [apply app_nil_r |].
    rewrite length_app. cbn. lia.
  - rewrite List.length_app. cbn [List.length].
    destruct H as [-> | ->].
    + destruct (Z.ltb_spec (Z.of_nat (List.length l)) 0); lia.
    + cbn [Z.ltb Z.compare]. lia.
Qed.

(** X22.  Removing a tag by its index: an index inside the list removes
    that tag, an index at or beyond the end removes nothing, a negative
    index counts back from the end, and one below minus the length
    removes the first tag. *)
Theorem removeCompTag_by_index (a : App) (e : Entry) (tags : list string)
  (index : Z) :
  currentCompEntry a = Some e -> e_tags e = Some tags ->
  let len := Z.of_nat (List.length tags) in
  let left := tagsOf (removeCompTag index a) in
  ((0 <= index < len)%Z -> left = delete (Z.to_nat index) tags) /\
  ((len <= index)%Z -> left = tags) /\
  ((- len <= index < 0)%Z -> left = delete (Z.to_nat (len + index)) tags) /\
  ((index < - len)%Z -> left = delete 0 tags).
Proof.
  intros Ha Ht len left.
  assert (Hleft : left = spliceOne index tags).
  { subst left. unfold removeCompTag, tagsOf. rewrite Ha, Ht. reflexivity. }
  rewrite Hleft, spliceOne_delete. fold len.
  repeat split; intros H.
  - destruct (Z.ltb_spec index 0); [lia |]. f_equal. lia.
  - destruct (Z.ltb_spec index 0); [lia |]. apply delete_beyond. lia.
  - destruct (Z.ltb_spec index 0); [| lia]. f_equal. lia.
  - destruct (Z.ltb_spec index 0); [| lia]. f_equal. lia.
Qed.

(** X23.  On an entry whose snapshot was just taken, adding a tag it
    does not have marks the entry as changed, and removing that tag
    again (by its index, or by the index [-1]) brings back the tags and
    clears the mark. *)
Theorem add_then_remove_tag (a : App) (e : Entry) (index : Z) :
  currentCompEntry a = Some e -> compendiumOriginalEntry a = Some e ->
  let tag := Js.trim (orText (newCompTag a)) in
  Js.nonempty tag = true -> includesTag tag (tagsOf a) = false ->
  index = Z.of_nat (List.length (tagsOf a)) \/ index = (-1)%Z ->
  tagsOf (addCompTag a) = (tagsOf a ++ [tag])%list /\
  compendiumDirty (addCompTag a) = true /\
  tagsOf (removeCompTag index (addCompTag a)) = tagsOf a /\
  compendiumDirty (removeCompTag index (addCompTag a)) = false.
Proof.
  intros Ha Ho tag Hn Hi Hidx.
  assert (Htags : tagsOf a = orEmpty (e_tags e)).
  { unfold tagsOf. now rewrite Ha. }
  rewrite Htags in *.
  set (e1 := setTags (Some (orEmpty (e_tags e) ++ [tag])%list) e).
  assert (Hadd : addCompTag a =
                 setNewTag (Some EmptyString)
                   (updateCompendiumDirtyFlag
                      (setEntry (Some e1)
                         (setEntry (Some (setTags (Some (orEmpty (e_tags e))) e)) a)))).
  { unfold addCompTag. rewrite Ha. fold tag. rewrite Hn, Hi. reflexivity. }
  assert (Hdirty : compendiumDirty (addCompTag a) = true).
  { rewrite Hadd. cbn [compendiumDirty setNewTag updateCompendiumDirtyFlag setDirty].
    apply not_false_iff_true. intros Hc.
    apply (isCompendiumDirty_clean _ e1 e) in Hc; [| reflexivity | exact Ho].
    unfold editable, e1 in Hc. cbn [e_tags setTags orEmpty] in Hc.
    injection Hc as Hc. apply (f_equal (@List.length _)) in Hc.
    rewrite List.length_app in Hc. cbn in Hc. lia. }
  assert (Hrem : removeCompTag index (addCompTag a) =
                 updateCompendiumDirtyFlag
                   (setEntry (Some (setTags (Some (orEmpty (e_tags e))) e1))
                             (addCompTag a))).
  { unfold removeCompTag at 1. rewrite Hadd at 1 2.
    cbn [currentCompEntry setNewTag updateCompendiumDirtyFlag setDirty setEntry].
    unfold e1 at 1. cbn [e_tags setTags].
    rewrite (spliceOne_last _ _ _ Hidx). rewrite <- Hadd. reflexivity. }
  split; [rewrite Hadd; reflexivity |]. split; [exact Hdirty |].
  rewrite Hrem. split; [reflexivity |].
  cbn [compendiumDirty updateCompendiumDirtyFlag setDirty].
  apply (isCompendiumDirty_clean _ (setTags (Some (orEmpty (e_tags e))) e1) e).
  - reflexivity.
  - rewrite Hadd. exact Ho.
  - reflexivity.
Qed.

End DirtyFacts.

(** ** The compendium manager and its store *)

Section StoreFacts.
Import CompendiumManager CompendiumNotions.

Variable Db : Type.
Variable listByCategory : Db -> string -> string -> option (list Entry).
Variable getEntry : Db -> string -> option (option Entry).
Variable createEntry : Db -> string -> option string -> option (Entry * Db).
Variable updateEntry : Db -> string -> Updates -> option Db.

Local Abbreviation State := (CompendiumManager.State Db).
Local Abbreviation counts := (loadCompendiumCounts listByCategory).
Local Abbreviation refresh := (refreshCategoryList listByCategory).
Local Abbreviation doSelect := (doSelectCompendiumEntry getEntry).
Local Abbreviation doLoad := (doLoadCompendiumCategory listByCategory).
Local Abbreviation doCreate :=
  (doCreateCompendiumEntry listByCategory getEntry createEntry).
Local Abbreviation doMove :=
  (doMoveCompendiumEntryToCategory listByCategory getEntry updateEntry).
Local Abbreviation save := (saveCompendiumEntry listByCategory updateEntry).
Local Abbreviation execute :=
  (executePendingCompendiumAction listByCategory getEntry createEntry
     updateEntry).

(** *** What the reads of the store leave alone *)

Lemma counts_edits (s : State) : edits (app (counts s)) = edits (app s).
Proof.
  unfold loadCompendiumCounts.
  destruct (compendiumCategories (app s)); [reflexivity |].
  destruct (currentProject (app s)); [| reflexivity].
  destruct (countAll _ _ _ _ _); reflexivity.
Qed.

Lemma counts_db (s : State) : db (counts s) = db s.
Proof.
  unfold loadCompendiumCounts.
  destruct (compendiumCategories (app s)); [reflexivity |].
  destruct (currentProject (app s)); [| reflexivity].
  destruct (countAll _ _ _ _ _); reflexivity.
Qed.

Lemma refresh_edits category (s : State) :
  edits (app (refresh category s)) = edits (app s).
Proof.
  unfold refreshCategoryList.
  destruct (currentProject (app s)); [| reflexivity].
  destruct category as [c|]; [| reflexivity].
  destruct (Js.nonempty c); cbn [negb]; [| reflexivity].
  destruct (listByCategory _ _ _); reflexivity.
Qed.

Lemma refresh_db category (s : State) : db (refresh category s) = db s.
Proof.
  unfold refreshCategoryList.
  destruct (currentProject (app s)); [| reflexivity].
  destruct category as [c|]; [| reflexivity].
  destruct (Js.nonempty c); cbn [negb]; [| reflexivity].
  destruct (listByCategory _ _ _); reflexivity.
Qed.

Lemma refresh_all_edits categories (s : State) :
  edits (app (fold_left (fun s cat => refresh cat s) categories s))
  = edits (app s).
Proof.
  revert s. induction categories as [|c rest IH]; intros s; [reflexivity |].
  cbn [fold_left]. rewrite IH. apply refresh_edits.
Qed.

Lemma guard_dirty action proceed (s : State) :
  compendiumDirty (app s) = true ->
  guardCompendiumAction action proceed s
  = onApp (fun a => setModal true (setPending (Some action) a)) s.
Proof. intros H. unfold guardCompendiumAction. now rewrite H. Qed.

Lemma edits_dirty (a a' : App) :
  edits a' = edits a -> compendiumDirty a = true ->
  currentCompEntry a' = currentCompEntry a /\
  compendiumOriginalEntry a' = compendiumOriginalEntry a /\
  compendiumDirty a' = true.
Proof. unfold edits. intros [= -> -> ->] H. auto. Qed.

Lemma doLoad_edits category (s : State) :
  inCategory category (app s) = false ->
  edits (app (doLoad category s)) = edits (app s).
Proof.
  intros Hin. unfold doLoadCompendiumCategory.
  destruct (includesCategory _ _); [| reflexivity].
  rewrite counts_edits. cbn [app onApp]. cbv beta zeta.
  match goal with
  | |- edits (if inCategory category ?a then _ else _) = _ =>
      change (inCategory category a) with (inCategory category (app s))
  end.
  rewrite Hin. reflexivity.
Qed.

Lemma doMove_edits id newCategory (s : State) :
  selected id (app s) = false ->
  edits (app (doMove id newCategory s)) = edits (app s).
Proof.
  intros Hsel. unfold doMoveCompendiumEntryToCategory.
  destruct (getEntry _ _) as [entry|]; [| reflexivity].
  destruct (currentProject (app s)); [| reflexivity].
  destruct (listByCategory _ _ _); [| reflexivity].
  destruct (updateEntry _ _ _) as [d|]; [| reflexivity].
  match goal with
  | |- edits (app (if selected id (app ?x) then _ else _)) = _ =>
      assert (He : edits (app x) = edits (app s)); [| set (s' := x) in * ]
  end.
  { rewrite counts_edits.
    match goal with |- edits (app (if ?b then _ else _)) = _ => destruct b end;
      [rewrite refresh_edits |];
      (destruct entry as [e|]; [| reflexivity];
       match goal with |- edits (app (if ?b then _ else _)) = _ => destruct b end;
       [rewrite refresh_edits |]; reflexivity). }
  assert (Hs : selected id (app s') = false).
  { unfold selected in *. unfold edits in He. injection He as -> _ _.
    exact Hsel. }
  rewrite Hs. exact He.
Qed.

(** X24.  While the entry being edited has unsaved changes, closing or
    toggling the panel, selecting another entry, creating an entry,
    toggling a category and moving an entry to another category all
    leave the edited entry, its snapshot and the unsaved mark as they
    are: none of them discards the edits. *)
Theorem unsaved_edits_survive (s : State) (id category : string)
  (newCategory : option string) :
  compendiumDirty (app s) = true ->
  let kept (s' : State) :=
    currentCompEntry (app s') = currentCompEntry (app s) /\
    compendiumOriginalEntry (app s') = compendiumOriginalEntry (app s) /\
    compendiumDirty (app s') = true in
  kept (closeCompendium s) /\
  kept (openCompendium listByCategory s) /\
  kept (selectCompendiumEntry getEntry id s) /\
  kept (createCompendiumEntry listByCategory getEntry createEntry
          newCategory s) /\
  kept (loadCompendiumCategory listByCategory category s) /\
  kept (moveCompendiumEntryToCategory listByCategory getEntry updateEntry
          id category s).
Proof.
  intros Hd kept.
  assert (Hkept : forall s' : State, edits (app s') = edits (app s) -> kept s').
  { intros s' He. exact (edits_dirty _ _ He Hd). }
  assert (Hguard : forall action proceed,
             kept (guardCompendiumAction action proceed s)).
  { intros action proceed. rewrite (guard_dirty _ _ _ Hd).
    apply Hkept. reflexivity. }
  refine (conj _ (conj _ (conj _ (conj _ (conj _ _))))).
  - apply Hguard.
  - unfold openCompendium. destruct (showCodexPanel (app s)); [apply Hguard |].
    apply Hkept. cbv zeta. rewrite refresh_all_edits, counts_edits. reflexivity.
  - unfold selectCompendiumEntry.
    destruct (selected id (app s)); [apply Hkept; reflexivity | apply Hguard].
  - unfold createCompendiumEntry.
    destruct (currentProject (app s)); [apply Hguard | apply Hkept; reflexivity].
  - unfold loadCompendiumCategory.
    destruct (currentProject (app s)); [| apply Hkept; reflexivity].
    destruct (includesCategory _ _) eqn:Hopen.
    + destruct (inCategory category (app s)) eqn:Hin; [apply Hguard |].
      apply Hkept, doLoad_edits, Hin.
    + apply Hkept. rewrite counts_edits, refresh_edits. reflexivity.
  - unfold moveCompendiumEntryToCategory.
    destruct (negb (Js.nonempty id) || negb (Js.nonempty category));
      [apply Hkept; reflexivity |].
    rewrite Hd, andb_true_r.
    destruct (selected id (app s)) eqn:Hsel; [apply Hguard |].
    apply Hkept, doMove_edits, Hsel.
Qed.

(** *** After the dialog *)

Lemma counts_settled (s : State) :
  settled (app s) -> settled (app (counts s)).
Proof.
  unfold loadCompendiumCounts.
  destruct (compendiumCategories (app s)); [exact id |].
  destruct (currentProject (app s)); [| exact id].
  destruct (countAll _ _ _ _ _); exact id.
Qed.

Lemma refresh_settled category (s : State) :
  settled (app s) -> settled (app (refresh category s)).
Proof.
  unfold refreshCategoryList.
  destruct (currentProject (app s)); [| exact id].
  destruct category as [c|]; [| exact id].
  destruct (Js.nonempty c); cbn [negb]; [| exact id].
  destruct (listByCategory _ _ _); exact id.
Qed.

Lemma doSelect_settled id (s : State) :
  settled (app s) -> settled (app (doSelect id s)).
Proof.
  unfold doSelectCompendiumEntry.
  destruct (getEntry _ _) as [e|]; [| exact (fun H => H)].
  intros (_ & Hp & Hm). unfold settled, storeCompendiumOriginal.
  cbn [app onApp]. destruct e as [e|]; repeat split; assumption.
Qed.

Lemma clearSelection_settled (a : App) :
  settled a -> settled (clearSelection a).
Proof. intros (_ & Hp & Hm). repeat split; assumption. Qed.

Lemma doLoad_settled category (s : State) :
  settled (app s) -> settled (app (doLoad category s)).
Proof.
  intros H. unfold doLoadCompendiumCategory.
  destruct (includesCategory _ _); [| exact H].
  apply counts_settled. cbn [app onApp]. cbv beta zeta.
  match goal with |- settled (if ?b then _ else _) => destruct b end;
    [apply clearSelection_settled |]; exact H.
Qed.

Lemma doCreate_settled category (s : State) :
  settled (app s) -> settled (app (doCreate category s)).
Proof.
  intros H. unfold doCreateCompendiumEntry.
  destruct (currentProject (app s)); [| exact H].
  destruct (createEntry _ _ _) as [[entry d]|]; [| exact H].
  cbv zeta. apply doSelect_settled, counts_settled, refresh_settled.
  match goal with |- settled (app (if ?b then _ else _)) => destruct b end;
    exact H.
Qed.

Lemma doMove_settled id newCategory (s : State) :
  settled (app s) -> settled (app (doMove id newCategory s)).
Proof.
  intros H. unfold doMoveCompendiumEntryToCategory.
  destruct (getEntry _ _) as [entry|]; [| exact H].
  destruct (currentProject (app s)); [| exact H].
  destruct (listByCategory _ _ _); [| exact H].
  destruct (updateEntry _ _ _) as [d|]; [| exact H].
  cbv zeta.
  match goal with
  | |- settled (app (if selected id (app ?x) then _ else _)) =>
      assert (Hx : settled (app x)); [| destruct (selected id (app x)) ]
  end.
  - apply counts_settled.
    match goal with |- settled (app (if ?b then _ else _)) => destruct b end;
      [apply refresh_settled |];
      (destruct entry as [e|]; [| exact H];
       match goal with |- settled (app (if ?b then _ else _)) => destruct b end;
       [apply refresh_settled |]; exact H).
  - apply clearSelection_settled, Hx.
  - exact Hx.
Qed.

Lemma execute_settled (s : State) :
  compendiumDirty (app s) = false -> settled (app (execute s)).
Proof.
  intros Hd. unfold executePendingCompendiumAction. cbv zeta.
  set (s0 := onApp _ s).
  assert (H0 : settled (app s0)) by (repeat split; exact Hd).
  destruct (pendingCompendiumAction (app s)) as [[id| |c|c|id c]|].
  - apply doSelect_settled, H0.
  - destruct H0 as (_ & Hp & Hm). repeat split; assumption.
  - apply doLoad_settled, H0.
  - apply doCreate_settled, H0.
  - apply doMove_settled, H0.
  - exact H0.
Qed.

(** X25.  After [Leave without saving] the dialog is over whichever
    action was pending and whatever the store answers: the entry is not
    marked as changed, no action is pending and the modal is closed. *)
Theorem leave_without_saving_settles (s : State) :
  settled (app (discardAndProceedCompendium listByCategory getEntry
                  createEntry updateEntry s)).
Proof.
  unfold discardAndProceedCompendium. apply execute_settled. reflexivity.
Qed.

(** *** Saving *)

Lemma or_str_empty (x : string) : Browser.or_str x EmptyString = x.
Proof. now destruct x. Qed.

Lemma save_rejected (s : State) (e : Entry) :
  currentCompEntry (app s) = Some e -> Js.nonempty (e_id e) = true ->
  updateEntry (db s) (e_id e) (contentOf e) = None ->
  save s =
  emit (ClearSaveStatusAfter 3000)
    (onApp (setSaveStatus "Error")
       (emit (LogError "Failed to save compendium entry:")
          (onApp (setSaveStatus "Saving...") s))).
Proof.
  intros He Hid Hup. unfold saveCompendiumEntry. rewrite He, Hid.
  cbn [negb]. cbv zeta. cbn [db onApp]. rewrite !or_str_empty.
  unfold contentOf, toBoolean in Hup. unfold Browser.or_false.
  now rewrite Hup.
Qed.

Lemma save_accepted (s : State) (e : Entry) (d : Db) :
  currentCompEntry (app s) = Some e -> Js.nonempty (e_id e) = true ->
  updateEntry (db s) (e_id e) (contentOf e) = Some d ->
  save s =
  emit (ClearSaveStatusAfter 2000)
    (onApp (setSaveStatus "Saved")
       (onApp storeCompendiumOriginal
          (counts (refresh (Some (e_category e))
                     (setDb d (onApp (setSaveStatus "Saving...") s)))))).
Proof.
  intros He Hid Hup. unfold saveCompendiumEntry. rewrite He, Hid.
  cbn [negb]. cbv zeta. cbn [db onApp]. rewrite !or_str_empty.
  unfold contentOf, toBoolean in Hup. unfold Browser.or_false.
  now rewrite Hup.
Qed.

(** X26.  Saving sends title, body, tags, image and context flag of the
    edited entry to the store.  If the store accepts, the entry becomes
    its own snapshot and is no longer marked as changed; if it rejects,
    the entry, its snapshot, the mark and the store stay as they were
    and the status reads [Error]. *)
Theorem save_outcome (s : State) (e : Entry) :
  currentCompEntry (app s) = Some e -> Js.nonempty (e_id e) = true ->
  let s' := saveCompendiumEntry listByCategory updateEntry s in
  currentCompEntry (app s') = Some e /\
  match updateEntry (db s) (e_id e) (contentOf e) with
  | Some d =>
      db s' = d /\ compendiumOriginalEntry (app s') = Some e /\
      compendiumDirty (app s') = false /\
      compendiumSaveStatus (app s') = "Saved"
  | None =>
      db s' = db s /\
      compendiumOriginalEntry (app s') = compendiumOriginalEntry (app s) /\
      compendiumDirty (app s') = compendiumDirty (app s) /\
      compendiumSaveStatus (app s') = "Error"
  end.
Proof.
  intros He Hid s'. subst s'.
  destruct (updateEntry (db s) (e_id e) (contentOf e)) as [d|] eqn:Hup.
  - rewrite (save_accepted s e d He Hid Hup).
    set (s1 := counts _).
    assert (H1 : edits (app s1) = edits (app s)).
    { subst s1. rewrite counts_edits, refresh_edits. reflexivity. }
    assert (Hc : currentCompEntry (app s1) = Some e).
    { unfold edits in H1. injection H1 as -> _ _. exact He. }
    assert (Hdb : db s1 = d).
    { subst s1. rewrite counts_db, refresh_db. reflexivity. }
    cbn [app db emit onApp currentCompEntry compendiumOriginalEntry
         compendiumDirty compendiumSaveStatus setSaveStatus].
    unfold storeCompendiumOriginal. rewrite Hc.
    repeat split; [exact Hc | exact Hdb].
  - rewrite (save_rejected s e He Hid Hup). repeat split. exact He.
Qed.

(** X27.  [Save and leave] leaves even when the store rejects the save:
    with a pending close the panel is closed and the edited entry
    dropped, although the store holds none of the edits. *)
Theorem save_and_leave_despite_rejection (s : State) (e : Entry) :
  currentCompEntry (app s) = Some e -> Js.nonempty (e_id e) = true ->
  pendingCompendiumAction (app s) = Some Close ->
  updateEntry (db s) (e_id e) (contentOf e) = None ->
  let s' := saveAndProceedCompendium listByCategory getEntry createEntry
              updateEntry s in
  db s' = db s /\ showCodexPanel (app s') = false /\
  currentCompEntry (app s') = None /\ settled (app s').
Proof.
  intros He Hid Hp Hup s'. subst s'. unfold saveAndProceedCompendium.
  rewrite (save_rejected s e He Hid Hup).
  unfold executePendingCompendiumAction.
  cbn [app emit onApp pendingCompendiumAction setSaveStatus]. rewrite Hp.
  repeat split.
Qed.

(** *** Counting *)

Lemma lookup_assign_eq {V} (key : string) (v : V) (o : gmap string V) :
  key <> "__proto__" -> assign key v o !! key = Some v.
Proof.
  intros H. unfold assign. apply String.eqb_neq in H. rewrite H.
  apply lookup_insert_eq.
Qed.

Lemma lookup_assign_ne {V} (key key' : string) (v : V) (o : gmap string V) :
  key <> key' -> assign key v o !! key' = o !! key'.
Proof.
  intros H. unfold assign. destruct (String.eqb key "__proto__");
    [reflexivity | now apply lookup_insert_ne].
Qed.

Lemma lookup_assign_proto {V} (key : string) (v : V) (o : gmap string V) :
  assign key v o !! "__proto__" = o !! "__proto__".
Proof.
  unfold assign. destruct (String.eqb key "__proto__") eqn:E; [reflexivity |].
  apply String.eqb_neq in E. now apply lookup_insert_ne.
Qed.

Lemma countAll_some d project categories (m r : gmap string nat) :
  countAll listByCategory d project categories m = Some r ->
  forall c,
    (c ∈ categories -> c <> "__proto__" ->
     exists l, listByCategory d project c = Some l /\
               r !! c = Some (List.length l)) /\
    (c ∉ categories \/ c = "__proto__" -> r !! c = m !! c).
Proof.
  revert m. induction categories as [|c0 rest IH]; intros m H c.
  - injection H as <-. split; [intros Hin; inversion Hin | reflexivity].
  - cbn [countAll] in H.
    destruct (listByCategory d project c0) as [l0|] eqn:E0; [| discriminate].
    specialize (IH _ H c). destruct IH as [IHin IHout]. split.
    + intros Hin Hc. destruct (decide (c ∈ rest)) as [Hr | Hr];
        [exact (IHin Hr Hc) |].
      apply elem_of_cons in Hin as [-> | Hin]; [| contradiction].
      exists l0. split; [exact E0 |].
      rewrite (IHout (or_introl Hr)). now apply lookup_assign_eq.
    + intros [Hn | ->].
      * rewrite IHout by (left; intros Hr; apply Hn; now right).
        apply lookup_assign_ne. intros ->. apply Hn. now left.
      * rewrite IHout by now right. apply lookup_assign_proto.
Qed.

Lemma countAll_none d project categories (m : gmap string nat) c :
  c ∈ categories -> listByCategory d project c = None ->
  countAll listByCategory d project categories m = None.
Proof.
  revert m. induction categories as [|c0 rest IH]; intros m Hin Hc;
    [inversion Hin |].
  cbn [countAll]. destruct (listByCategory d project c0) as [l0|] eqn:E0.
  - apply elem_of_cons in Hin as [-> | Hin]; [congruence |]. now apply IH.
  - reflexivity.
Qed.

Lemma countAll_all d project categories (m : gmap string nat) :
  (forall c, c ∈ categories -> listByCategory d project c <> None) ->
  countAll listByCategory d project categories m <> None.
Proof.
  revert m. induction categories as [|c0 rest IH]; intros m H; [discriminate |].
  cbn [countAll]. destruct (listByCategory d project c0) as [l0|] eqn:E0.
  - apply IH. intros c Hc. apply H. now right.
  - exfalso. apply (H c0); [now left | exact E0].
Qed.

Lemma counts_project (s : State) (project : string) :
  currentProject (app s) = Some project ->
  counts s =
  match countAll listByCategory (db s) project (compendiumCategories (app s)) ∅
  with
  | Some r => onApp (setCounts r) s
  | None =>
      onApp (setCounts ∅) (emit (LogWarn "Failed to load compendium counts:") s)
  end.
Proof.
  intros Hp. unfold loadCompendiumCounts. rewrite Hp.
  now destruct (compendiumCategories (app s)).
Qed.

(** X28.  The counts are all or nothing: when the store lists every
    category, each category other than [__proto__] gets the length of
    its list and nothing else gets a count (for the key [__proto__] the
    assignment stores nothing); when the store rejects the listing of
    one category, no category has a count, not even those listed
    before. *)
Theorem counts_all_or_nothing (s : State) (project : string) :
  currentProject (app s) = Some project ->
  let categories := compendiumCategories (app s) in
  let result := compendiumCounts (app (loadCompendiumCounts listByCategory s)) in
  ((forall c, c ∈ categories ->
              listByCategory (db s) project c <> None) ->
   forall c,
     result !! c =
     if decide (c ∈ categories /\ c <> "__proto__")
     then List.length <$> listByCategory (db s) project c
     else None) /\
  (forall c, c ∈ categories -> listByCategory (db s) project c = None ->
             result = ∅).
Proof.
  intros Hp categories result. subst result.
  rewrite (counts_project s project Hp). fold categories. split.
  - intros Hall c.
    destruct (countAll listByCategory (db s) project categories ∅) as [r|] eqn:E.
    2:{ exfalso. exact (countAll_all _ _ _ _ Hall E). }
    cbn [app onApp compendiumCounts setCounts].
    destruct (countAll_some _ _ _ _ _ E c) as [Hin Hout].
    destruct (decide (c ∈ categories /\ c <> "__proto__")) as [[Hc Hn] | Hc].
    + destruct (Hin Hc Hn) as (l & -> & ->). reflexivity.
    + rewrite Hout; [apply lookup_empty |].
      destruct (decide (c ∈ categories)) as [Hc' | Hc']; [| now left].
      right. destruct (decide (c = "__proto__")) as [Hp' | Hp'];
        [exact Hp' | exfalso; apply Hc; now split].
  - intros c Hc Hnone. rewrite (countAll_none _ _ _ _ c Hc Hnone).
    reflexivity.
Qed.

(** *** The order of a moved entry *)

Lemma fold_max_ge (l : list Z) (z : Z) :
  (z <= fold_left Z.max l z)%Z /\
  Forall (fun x => (x <= fold_left Z.max l z)%Z) l.
Proof.
  revert z. induction l as [|x l IH]; intros z; cbn [fold_left].
  - split; [lia | constructor].
  - destruct (IH (Z.max z x)) as [H1 H2]. split; [lia |].
    constructor; [lia | exact H2].
Qed.

End StoreFacts.

Section OrderAndVoice.
Import CompendiumManager CompendiumNotions.

Lemma fold_max_lt (l : list Z) (z bound : Z) :
  (z < bound)%Z -> Forall (fun x => (x < bound)%Z) l ->
  (fold_left Z.max l z < bound)%Z.
Proof.
  revert z. induction l as [|x l IH]; intros z Hz Hl; [exact Hz |].
  cbn [fold_left]. inversion Hl as [|? ? Hx Hl']; subst.
  apply IH; [lia | exact Hl'].
Qed.

Lemma plusOne_exact (x : Z) :
  (- 2 ^ 53 <= x < 2 ^ 53)%Z -> plusOne x = (x + 1)%Z.
Proof.
  intros [Hlo Hhi]. unfold plusOne.
  apply Z.leb_le in Hlo. apply Z.ltb_lt in Hhi. now rewrite Hlo, Hhi.
Qed.

(** X29.  A moved entry goes to the end of its new category as long as
    the orders there are within 2^53 in size, the range in which adding
    1 is exact: the order it is given is then greater than the order of
    every entry there (an entry without order counting as 0).  It is 0
    in an empty category.  The range is needed: behind a single entry of
    order 2^53 the order given is 2^53 again. *)
Theorem moved_entry_goes_last (items : list Entry) :
  Forall (fun it => (- 2 ^ 53 <= orderOf it < 2 ^ 53)%Z) items ->
  Forall (fun it => (orderOf it < nextOrder items)%Z) items /\
  nextOrder [] = 0%Z /\
  (forall it, orderOf it = (2 ^ 53)%Z -> nextOrder [it] = (2 ^ 53)%Z).
Proof.
  intros Hrange. split; [| split; [reflexivity |]].
  - destruct items as [|it rest]; [constructor |]. cbn [nextOrder].
    inversion Hrange as [|? ? Hit Hrest]; subst.
    destruct (fold_max_ge (map orderOf rest) (orderOf it)) as [H1 H2].
    assert (Hhi : (fold_left Z.max (map orderOf rest) (orderOf it) < 2 ^ 53)%Z).
    { apply fold_max_lt; [apply Hit |].
      apply List.Forall_map. eapply List.Forall_impl; [| exact Hrest].
      cbn beta. intros x Hx. apply Hx. }
    rewrite plusOne_exact by (split; [destruct Hit; lia | exact Hhi]).
    constructor; [lia |].
    apply (proj1 (List.Forall_map _ _ _)) in H2.
    eapply List.Forall_impl; [| exact H2]. cbn beta. intros x Hx. lia.
  - intros it Hit. cbn [nextOrder map fold_left]. rewrite Hit. reflexivity.
Qed.

Lemma find_first voices v :
  List.find TTS.isNatural voices = Some v ->
  exists before after,
    voices = (before ++ v :: after)%list /\ TTS.isNatural v = true /\
    Forall (fun u => TTS.isNatural u = false) before.
Proof.
  induction voices as [|u voices IH]; [discriminate |]. cbn [List.find].
  destruct (TTS.isNatural u) eqn:Eu.
  - intros [= <-]. exists [], voices. repeat split; [exact Eu | constructor].
  - intros H. destruct (IH H) as (before & after & -> & Hv & Hb).
    exists (u :: before), after. repeat split; [exact Hv |].
    constructor; [exact Eu | exact Hb].
Qed.

Lemma filter_nil_existsb voices :
  List.filter TTS.isEnglish voices = [] <->
  List.existsb TTS.isEnglish voices = false.
Proof.
  induction voices as [|v voices IH]; cbn [List.filter List.existsb];
    [split; reflexivity |].
  destruct (TTS.isEnglish v); cbn [orb]; [split; discriminate | exact IH].
Qed.

Lemma getDefaultVoice_candidates v voices :
  TTS.getDefaultVoice (v :: voices) =
  match List.find TTS.isNatural (candidates (v :: voices)) with
  | Some naturalVoice => Some naturalVoice
  | None => List.hd_error (candidates (v :: voices))
  end.
Proof.
  unfold TTS.getDefaultVoice, candidates. cbv zeta.
  destruct (List.filter TTS.isEnglish (v :: voices)) as [|e es] eqn:E.
  - apply filter_nil_existsb in E. now rewrite E.
  - destruct (List.existsb TTS.isEnglish (v :: voices)) eqn:Ex; [reflexivity |].
    apply filter_nil_existsb in Ex. congruence.
Qed.

(** X30.  The default voice: there is none exactly when there are no
    voices; otherwise it is one of the voices, it is English if any
    voice is, and among the candidates (the English voices in their
    order, or all voices if none is English) it is the first whose name
    has [Natural], [Neural] or [Premium]: no candidate before it has
    such a name.  If no candidate has such a name, it is the first
    candidate. *)
Theorem default_voice_choice (voices : list TTS.Voice) :
  (TTS.getDefaultVoice voices = None <-> voices = []) /\
  forall v, TTS.getDefaultVoice voices = Some v ->
    v ∈ voices /\
    (List.existsb TTS.isEnglish voices = true -> TTS.isEnglish v = true) /\
    (List.existsb TTS.isNatural (candidates voices) = true ->
     exists before after,
       candidates voices = (before ++ v :: after)%list /\
       TTS.isNatural v = true /\
       Forall (fun u => TTS.isNatural u = false) before) /\
    (List.existsb TTS.isNatural (candidates voices) = false ->
     List.hd_error (candidates voices) = Some v).
Proof.
  destruct voices as [|v0 voices].
  { split; [split; reflexivity | discriminate]. }
  rewrite getDefaultVoice_candidates.
  set (cs := candidates (v0 :: voices)).
  assert (Hsub : forall v, v ∈ cs ->
             v ∈ v0 :: voices /\
             (List.existsb TTS.isEnglish (v0 :: voices) = true ->
              TTS.isEnglish v = true)).
  { intros v Hv. subst cs. unfold candidates in Hv.
    destruct (List.existsb TTS.isEnglish (v0 :: voices)).
    - apply list_elem_of_In, filter_In in Hv as [Hin He].
      split; [now apply list_elem_of_In | intros _; exact He].
    - split; [exact Hv | discriminate]. }
  assert (Hne : cs <> []).
  { subst cs. unfold candidates.
    destruct (List.existsb TTS.isEnglish (v0 :: voices)) eqn:Ex; [| discriminate].
    intros Hnil. apply filter_nil_existsb in Hnil. congruence. }
  destruct (List.find TTS.isNatural cs) as [n|] eqn:En.
  - split; [split; discriminate |]. intros v [= <-].
    destruct (find_first _ _ En) as (before & after & Hcs & Hn & Hb).
    assert (Hin : n ∈ cs).
    { rewrite Hcs. apply elem_of_app. right. now left. }
    destruct (Hsub _ Hin) as [H1 H2].
    split; [exact H1 |]. split; [exact H2 |]. split.
    + intros _. exists before, after. now repeat split.
    + intros Hex. exfalso.
      assert (List.existsb TTS.isNatural cs = true) as Ht; [| congruence].
      apply existsb_exists. exists n. split; [now apply list_elem_of_In | exact Hn].
  - destruct cs as [|c cs'] eqn:Ecs; [contradiction |]. cbn [List.hd_error].
    split; [split; discriminate |]. intros v [= <-].
    assert (Hin : c ∈ c :: cs') by now left.
    destruct (Hsub _ Hin) as [H1 H2].
    split; [exact H1 |]. split; [exact H2 |]. split; [| reflexivity].
    intros Hex. exfalso. apply existsb_exists in Hex as (x & Hx & Hnx).
    pose proof (find_none _ _ En x Hx) as Hf. cbv beta in Hf. congruence.
Qed.

End OrderAndVoice.

(** ** The theorems at work *)

Section MoreDecoderExamples.
Import Generation Spec Examples Notions MoreExamples.

Lemma decoding_ignores_chunk_boundaries_witness :
  textOf helloChunks = textOf [textOf helloChunks]
  /\ readLoop Json.parse EmptyString helloChunks
     = readLoop Json.parse EmptyString [textOf helloChunks].
Proof.
  split; [reflexivity |].
  exact (decoding_ignores_chunk_boundaries Json.parse helloChunks
           [textOf helloChunks] eq_refl).
Defined.

Lemma unprefixed_line_ignored_witness :
  Js.startsWith "data: " ": ping" = false
  /\ readLoop Json.parse EmptyString commentedChunks
     = readLoop Json.parse EmptyString [dq "data: {'content':'x'}" ++ newline].
Proof.
  split; [reflexivity |].
  exact (unprefixed_line_ignored Json.parse commentedChunks
           [dq "data: {'content':'x'}" ++ newline] [] ": ping"
           (dq "data: {'content':'x'}" ++ newline)
           eq_refl eq_refl (List.Forall_nil _) eq_refl eq_refl).
Defined.

Lemma non_object_payload_ignored_witness :
  Json.parse (Js.drop 6 "data: null") = Some Json.Null
  /\ not_object Json.Null = true
  /\ readLoop Json.parse EmptyString nullChunks
     = readLoop Json.parse EmptyString [dq "data: {'content':'x'}" ++ newline].
Proof.
  split; [reflexivity |]. split; [reflexivity |].
  exact (non_object_payload_ignored Json.parse nullChunks
           [dq "data: {'content':'x'}" ++ newline] [] "data: null"
           (dq "data: {'content':'x'}" ++ newline) Json.Null
           eq_refl eq_refl (List.Forall_nil _) eq_refl eq_refl eq_refl).
Defined.

Lemma unterminated_tail_dropped_witness :
  textOf cutChunks
  = unlines [dq "data: {'content':'a'}"] ++ dq "data: {'content':'b'}"
  /\ readLoop Json.parse EmptyString cutChunks
     = readLoop Json.parse EmptyString [unlines [dq "data: {'content':'a'}"]].
Proof.
  split; [reflexivity |].
  refine (unterminated_tail_dropped Json.parse cutChunks
            [dq "data: {'content':'a'}"] (dq "data: {'content':'b'}")
            eq_refl _ eq_refl).
  repeat constructor.
Defined.

Example cut_stream_delivers_first_only :
  readLoop Json.parse EmptyString cutChunks = ([Json.Str "a"], Done).
Proof. vm_compute. reflexivity. Qed.

End MoreDecoderExamples.

Section MoreSettingsExamples.
Import Browser Examples MoreExamples AISettingsStore AISettings000Store.

Lemma local_test_delays_witness :
  aiMode (config firstApp) = "local"
  /\ exists k,
       waits (snd (AISettings000.saveAISettings keyText progressSketch
                     unreachable firstApp freshWorld))
       = (waits freshWorld ++ repeat AISettings000.retryDelay k)%list
       /\ k = AISettings000.maxRetries - 1.
Proof.
  split; [reflexivity |].
  destruct (local_test_delays keyText progressSketch unreachable firstApp
              freshWorld eq_refl) as (k & Hw & _ & Hall & _).
  exists k. split; [exact Hw |]. apply Hall. reflexivity.
Defined.

Lemma api_mode_validates_without_request_witness :
  String.eqb (aiMode (config apiApp)) "local" = false
  /\ probes (snd (AISettings.saveAISettings unreachable apiApp freshWorld))
     = probes freshWorld.
Proof.
  split; [reflexivity |].
  exact (proj1 (api_mode_validates_without_request unreachable apiApp
                  freshWorld eq_refl)).
Defined.

Lemma openrouter_catalog_free_first_witness :
  aiMode (config apiApp) = "api"
  /\ modelsFetched
       (fst (fetchProviderModels keyText (answering listed) (config apiApp)
               noModels freshWorld)) = true
  /\ fetchingModels
       (fst (fetchProviderModels keyText (answering listed) (config apiApp)
               noModels freshWorld)) = false.
Proof.
  split; [reflexivity |].
  exact (proj2 (openrouter_catalog_free_first keyText (answering listed)
                  (config apiApp) noModels freshWorld listed
                  eq_refl eq_refl eq_refl eq_refl eq_refl)).
Defined.

Lemma openai_entry_without_id_voids_catalog_witness :
  Exists (fun r => raw_id r = None) listed
  /\ catalog (fst (fetchProviderModels keyText (answering listed)
                     (config coldApp) noModels freshWorld))
     = catalog noModels.
Proof.
  assert (H : Exists (fun r => raw_id r = None) listed).
  { right. left. reflexivity. }
  split; [exact H |].
  exact (proj1 (openai_entry_without_id_voids_catalog keyText
                  (answering listed) (config coldApp) noModels freshWorld
                  listed eq_refl eq_refl eq_refl eq_refl eq_refl H)).
Defined.

Lemma settings_round_trip_witness :
  Js.nonempty (aiMode (config apiApp)) = true
  /\ aiModel (config (fst (fst (loadAISettings keyText (answering listed)
                                  firstApp noModels
                                  (saveGenerationParams apiApp freshWorld)))))
     = "b:free"
  /\ appTemperature
       (config (fst (fst (loadAISettings keyText (answering listed)
                            firstApp noModels
                            (saveGenerationParams apiApp freshWorld)))))
     = (7, -1)%Z.
Proof.
  split; [reflexivity |].
  pose proof (settings_round_trip keyText (answering listed) apiApp firstApp
                noModels freshWorld eq_refl eq_refl eq_refl eq_refl) as H.
  cbv zeta in H. destruct H as (_ & _ & _ & Hm & _ & Ht & _).
  split; [exact Hm | exact Ht].
Defined.

Lemma zero_temperature_not_restored_witness :
  appTemperature (config coldApp) = (0, 0)%Z
  /\ appTemperature
       (config (fst (fst (loadAISettings keyText (answering listed)
                            firstApp noModels
                            (saveGenerationParams coldApp freshWorld)))))
     = (8, -1)%Z
  /\ appTemperature (config unboundedApp) = (7, -1)%Z
  /\ appMaxTokens (config unboundedApp) = (0, 0)%Z
  /\ appMaxTokens
       (config (fst (fst (loadAISettings keyText (answering listed)
                            firstApp noModels
                            (saveGenerationParams unboundedApp freshWorld)))))
     = (300, 0)%Z.
Proof.
  split; [reflexivity |].
  split.
  { exact (proj1 (zero_temperature_not_restored keyText (answering listed)
                    coldApp firstApp noModels freshWorld) eq_refl). }
  split; [reflexivity |]. split; [reflexivity |].
  exact (proj2 (zero_temperature_not_restored keyText (answering listed)
                  unboundedApp firstApp noModels freshWorld) eq_refl).
Defined.

End MoreSettingsExamples.

Section CompendiumWitnesses.
Import CompendiumManager CompendiumNotions CompendiumExamples.

Lemma tags_stay_distinct_witness :
  tagsOf editing = ["hero"]
  /\ tagsOf (addCompTag editing) = ["hero"; "north"]
  /\ NoDup (tagsOf (addCompTag editing)).
Proof.
  split; [reflexivity |]. split; [reflexivity |].
  refine (proj1 (tags_stay_distinct editing _ _)).
  - apply NoDup_singleton.
  - repeat constructor.
Defined.

Lemma removeCompTag_by_index_witness :
  tagsOf (removeCompTag (-1) (addCompTag editing)) = ["hero"]
  /\ tagsOf (removeCompTag 5 (addCompTag editing)) = ["hero"; "north"]
  /\ tagsOf (removeCompTag (-7) (addCompTag editing)) = ["north"].
Proof.
  assert (He : currentCompEntry (addCompTag editing)
               = Some (setTags (Some ["hero"; "north"]) ann))
    by reflexivity.
  split; [| split].
  - refine (proj1 (proj2 (proj2 (removeCompTag_by_index (addCompTag editing)
                                   _ ["hero"; "north"] (-1) He eq_refl))) _).
    cbn. lia.
  - refine (proj1 (proj2 (removeCompTag_by_index (addCompTag editing)
                            _ ["hero"; "north"] 5 He eq_refl)) _).
    cbn. lia.
  - refine (proj2 (proj2 (proj2 (removeCompTag_by_index (addCompTag editing)
                                   _ ["hero"; "north"] (-7) He eq_refl))) _).
    cbn. lia.
Defined.

Lemma add_then_remove_tag_witness :
  Js.trim (orText (newCompTag editing)) = "north"
  /\ compendiumDirty (addCompTag editing) = true
  /\ compendiumDirty (removeCompTag 1 (addCompTag editing)) = false.
Proof.
  split; [reflexivity |].
  pose proof (add_then_remove_tag editing ann 1 eq_refl eq_refl eq_refl
                eq_refl (or_introl eq_refl)) as (_ & Hd & _ & Hc).
  split; [exact Hd | exact Hc].
Defined.

Lemma unsaved_edits_survive_witness :
  compendiumDirty (app (offline edited)) = true
  /\ currentCompEntry (app (closeCompendium (offline edited))) = Some retitled
  /\ currentCompEntry
       (app (selectCompendiumEntry offlineGet "e2" (offline edited)))
     = Some retitled.
Proof.
  split; [reflexivity |].
  pose proof (unsaved_edits_survive unit offlineList offlineGet offlineCreate
                offlineUpdate (offline edited) "e2" "places" None eq_refl)
    as (Hclose & _ & Hselect & _).
  split; [exact (proj1 Hclose) | exact (proj1 Hselect)].
Defined.

Lemma save_outcome_witness :
  currentCompEntry (app (offline edited)) = Some retitled
  /\ compendiumDirty
       (app (saveCompendiumEntry offlineList offlineUpdate (offline edited)))
     = true
  /\ compendiumSaveStatus
       (app (saveCompendiumEntry offlineList offlineUpdate (offline edited)))
     = "Error".
Proof.
  split; [reflexivity |].
  pose proof (save_outcome unit offlineList offlineUpdate (offline edited)
                retitled eq_refl eq_refl) as (_ & H).
  cbv beta iota in H. destruct H as (_ & _ & Hd & Hs).
  split; [exact Hd | exact Hs].
Defined.

Lemma save_and_leave_despite_rejection_witness :
  pendingCompendiumAction (app (offline closing)) = Some Close
  /\ currentCompEntry (app (offline closing)) = Some retitled
  /\ currentCompEntry
       (app (saveAndProceedCompendium offlineList offlineGet offlineCreate
               offlineUpdate (offline closing)))
     = None.
Proof.
  split; [reflexivity |]. split; [reflexivity |].
  pose proof (save_and_leave_despite_rejection unit offlineList offlineGet
                offlineCreate offlineUpdate (offline closing) retitled
                eq_refl eq_refl eq_refl eq_refl) as (_ & _ & H & _).
  exact H.
Defined.

Lemma counts_all_or_nothing_witness :
  currentProject (app (offline editing)) = Some "p1"
  /\ compendiumCounts (app (loadCompendiumCounts offlineList (offline editing)))
     = ∅.
Proof.
  split; [reflexivity |].
  refine (proj2 (counts_all_or_nothing unit offlineList (offline editing)
                   "p1" eq_refl) "places" _ eq_refl).
  right. left.
Defined.

Lemma moved_entry_goes_last_witness :
  orderOf ann = 2%Z
  /\ nextOrder [ann; retitled] = 3%Z
  /\ Forall (fun it => (orderOf it < nextOrder [ann; retitled])%Z)
            [ann; retitled].
Proof.
  split; [reflexivity |]. split; [reflexivity |].
  refine (proj1 (moved_entry_goes_last [ann; retitled] _)).
  repeat constructor; (apply Z.leb_le || apply Z.ltb_lt); reflexivity.
Defined.

(** Two voices with such a name: the first of them is chosen. *)
Example first_natural_voice_is_chosen :
  TTS.getDefaultVoice
    [ {| TTS.lang := "en-GB"; TTS.name := "Daniel" |};
      {| TTS.lang := "de-DE"; TTS.name := "Anna Premium" |};
      {| TTS.lang := "en-US"; TTS.name := "Samantha Neural" |};
      {| TTS.lang := "en-US"; TTS.name := "Ava Natural" |} ]
  = Some {| TTS.lang := "en-US"; TTS.name := "Samantha Neural" |}.
Proof. reflexivity. Qed.

End CompendiumWitnesses.
